(** * Open-Hadith-Data: corpus loader, collection index, search engine,
      advanced filter pipeline and statistics aggregator.

    A shallow embedding of
      - server/plugins/enhanced-data-loader.js  (class HadithDataLoader)
      - server/plugins/dataLoader.js            (class HadithDataManager)
      - the search routes (GET /search, POST /search/advanced)
      - server/routes/stats.js                  (GET /stats/distribution)
      - the data splitter script
    together with the properties the specification states about them, and of
      - scripts/csv-to-json-converter.js        (class HadithCSVConverter)
      - the queries of the loader and of the manager
      - the collection routes, GET /search and GET /search/suggestions
      - GET /stats/collections/:collectionId and GET /stats/frequent-terms
    together with further properties of the code.

    JavaScript strings are sequences of UTF-16 code units, JavaScript numbers
    are IEEE 754 binary64 values ([spec_float] at precision 53), arrays are
    lists, the [Map] of the collection index is a [gmap]. *)

From Stdlib Require Import ZArith List Bool Lia String Ascii.
From Stdlib Require Import Sorting.Sorted Sorting.Permutation.
From Stdlib Require Import Floats.SpecFloat.
From stdpp Require Import base gmap list.

Local Open Scope Z_scope.

(* ===================================================================== *)
(** * JavaScript values                                                 *)
(* ===================================================================== *)

Module JS.

(** ** Strings: lists of UTF-16 code units *)

Abbreviation jsstring := (list N).

(** An ASCII literal as a JavaScript string. *)
Fixpoint lit (s : string) : jsstring :=
  match s with
  | EmptyString => []
  | String c s' => N_of_ascii c :: lit s'
  end.

(** [String.prototype.toLowerCase] applies the Unicode case mapping, which is
    not part of the repository: the engine is parametric in it. The mapping
    removes no character, so that only the empty string has an empty lower
    case. *)
Class CaseMapping := {
  toLowerCase : jsstring -> jsstring;
  toLowerCase_empty : forall s, toLowerCase s = [] <-> s = []
}.

(** The mapping on Basic Latin and Latin-1, where it is a shift by 32. *)
Definition lowerUnit (c : N) : N :=
  if ((65 <=? c) && (c <=? 90))%N then (c + 32)%N
  else if ((192 <=? c) && (c <=? 222) && negb (c =? 215))%N then (c + 32)%N
  else c.

Definition latin1Case : CaseMapping.
Proof.
  refine {| toLowerCase := List.map lowerUnit |}.
  intros s. destruct s; simpl; split; intros E; try reflexivity;
    discriminate E.
Defined.

(** WhiteSpace and LineTerminator code units: what [trim] strips and what the
    regular expression class [\s] matches. *)
Definition isWhiteSpace (c : N) : bool :=
  ((9 <=? c) && (c <=? 13) || (c =? 32) || (c =? 160) || (c =? 5760)
   || (8192 <=? c) && (c <=? 8202) || (c =? 8232) || (c =? 8233)
   || (c =? 8239) || (c =? 8287) || (c =? 12288) || (c =? 65279))%N.

Fixpoint trimStart (s : jsstring) : jsstring :=
  match s with
  | [] => []
  | c :: s' => if isWhiteSpace c then trimStart s' else s
  end.

Definition trimEnd (s : jsstring) : jsstring := rev (trimStart (rev s)).

Definition trim (s : jsstring) : jsstring := trimEnd (trimStart s).

(** A string is falsy exactly when it is empty. *)
Definition truthy (s : jsstring) : bool :=
  match s with [] => false | _ => true end.

Fixpoint startsWith (s p : jsstring) {struct p} : bool :=
  match p, s with
  | [], _ => true
  | _ :: _, [] => false
  | a :: p', b :: s' => (a =? b)%N && startsWith s' p'
  end.

(** [s.includes(p)]: [p] occurs at some position of [s]. *)
Fixpoint includes (s p : jsstring) : bool :=
  startsWith s p ||
  match s with
  | [] => false
  | _ :: s' => includes s' p
  end.

(** [s.indexOf(p)]: the first position at which [p] occurs, or -1. *)
Fixpoint indexOf (s p : jsstring) : Z :=
  if startsWith s p then 0
  else match s with
       | [] => -1
       | _ :: s' => let i := indexOf s' p in if i <? 0 then -1 else i + 1
       end.

(** [s.split(/\s+/)]: the pieces between maximal runs of white space; a
    leading or trailing run leaves an empty piece, and the empty string
    splits into one empty piece. [cur] is the current piece, reversed;
    [inSep] tells that the scan is inside a run of white space. *)
Fixpoint splitWsFrom (cur : jsstring) (inSep : bool) (s : jsstring)
  : list jsstring :=
  match s with
  | [] => [rev cur]
  | c :: s' =>
      if isWhiteSpace c
      then if inSep then splitWsFrom [] true s'
           else rev cur :: splitWsFrom [] true s'
      else splitWsFrom (c :: cur) false s'
  end.

Definition splitWs (s : jsstring) : list jsstring := splitWsFrom [] false s.

(** ** Numbers: IEEE 754 binary64 *)

Abbreviation num := spec_float.

Definition prec : Z := 53.
Definition emax : Z := 1024.

Definition num_of_Z (z : Z) : num := binary_normalize prec emax z 0 false.
Definition num_of_nat (n : nat) : num := num_of_Z (Z.of_nat n).

Definition add : num -> num -> num := SFadd prec emax.
Definition sub : num -> num -> num := SFsub prec emax.
Definition mul : num -> num -> num := SFmul prec emax.
Definition div : num -> num -> num := SFdiv prec emax.
Definition sqrt : num -> num := SFsqrt prec emax.

(** [x > 0] and [x < 0]; both are false on NaN. *)
Definition gt0 (x : num) : bool := SFltb (S754_zero false) x.
Definition lt0 (x : num) : bool := SFltb x (S754_zero false).

(** [Math.floor] of a finite number, as an integer. *)
Definition floorZ (x : num) : Z :=
  match x with
  | S754_finite s m e =>
      let v := if s then Z.neg m else Z.pos m in
      if 0 <=? e then v * 2 ^ e else v / 2 ^ (- e)
  | _ => 0
  end.

(** [Math.round]: the nearest integer, ties towards +infinity; zeros,
    infinities and NaN are returned unchanged. *)
Definition round (x : num) : num :=
  match x with
  | S754_finite s m e =>
      let v := if s then Z.neg m else Z.pos m in
      if 0 <=? e then x
      else num_of_Z ((2 * v + 2 ^ (- e)) / 2 ^ (- e + 1))
  | _ => x
  end.

(** ** Arrays *)

(** [a.slice(start, stop)] for indices [0 <= start], [0 <= stop]. *)
Definition slice {A} (start stop : nat) (a : list A) : list A :=
  take (stop - start) (drop start a).

(** [a.sort(cmp)], the stable sort required since ECMAScript 2019, as a
    stable insertion sort. [after x y] tells that the comparator gives
    [cmp(x, y) > 0], so that [x] has to come after [y]. *)
Section Sort.
Context {A : Type} (after : A -> A -> bool).

Fixpoint insert (x : A) (l : list A) : list A :=
  match l with
  | [] => [x]
  | y :: l' => if after x y then y :: insert x l' else x :: l
  end.

Definition sort (l : list A) : list A := foldr insert [] l.

(** [a] may stand before [b]: the comparator does not ask for the swap. *)
Definition inOrder (a b : A) : Prop := after a b = false.
End Sort.

(** ** Vocabulary of the properties *)

#[export] Instance num_eq_dec : EqDecision num.
Proof. solve_decision. Defined.

(** [p] occurs in [s] as a contiguous piece. *)
Definition occursIn (p s : jsstring) : Prop := exists a b, s = a ++ p ++ b.

(** The pages [0 .. n-1] of size [L], one after the other. *)
Definition pages {A} (L n : nat) (a : list A) : list (list A) :=
  List.map (fun k => slice (k * L) (k * L + L) a) (seq 0 n).

(** The number of pages of size [L] that [total] results fill. *)
Definition pageCount (total L : nat) : nat := ((total + L - 1) / L)%nat.

(** The least exponent of a binary64 number. *)
Definition emin : Z := 3 - emax - prec.

(** A number in the range of the scores: not NaN, and when finite with an
    exponent that is not below the least one. *)
Definition regular (x : num) : bool :=
  match x with
  | S754_nan => false
  | S754_finite _ _ e => emin <=? e
  | _ => true
  end.

(** The exact value of a regular number in units of [2^emin], the
    infinities apart. *)
Definition cls (x : num) : Z :=
  match x with
  | S754_infinity s => if s then -1 else 1
  | _ => 0
  end.

Definition scaled (x : num) : Z :=
  match x with
  | S754_finite s m e => (if s then -1 else 1) * (Z.pos m * 2 ^ (e - emin))
  | _ => 0
  end.

(** [x < y] on the exact values. *)
Definition below (x y : num) : bool :=
  (cls x <? cls y) || (cls x =? 0) && (cls y =? 0) && (scaled x <? scaled y).

(** A number that is regular and not negative. *)
Definition nonnegative (x : num) : bool :=
  regular x && negb (lt0 x).

(** The record after [k] one-bit shifts of a non-negative mantissa. *)
Definition shifted (M : Z) (k : nat) : shr_record :=
  match k with
  | O => {| shr_m := M; shr_r := false; shr_s := false |}
  | S k' => {| shr_m := M / 2 ^ Z.of_nat k;
               shr_r := 2 ^ Z.of_nat k' <=? M mod 2 ^ Z.of_nat k;
               shr_s := negb (M mod 2 ^ Z.of_nat k' =? 0) |}
  end.

(** The mantissa that rounding a mantissa [M] leaves after a shift of [n]
    bits. *)
Definition rounded (M : Z) (n : nat) : Z :=
  round_nearest_even (shr_m (shifted M n)) (loc_of_shr_record (shifted M n)).

End JS.

Import JS.

(* ===================================================================== *)
(** * Data model (the JSON documents produced by the converter)         *)
(* ===================================================================== *)

Module Model.

(** A record of the corpus: [{ id, text, textLength, hasFullDiacritics }]. *)
Record Hadith := {
  hadith_id : jsstring;
  text : jsstring;
  textLength : Z;
  hasFullDiacritics : bool
}.

(** One rendering of a collection: [{ fileType, fileName, hadiths, count }]. *)
Record FileVariant := {
  fileType : jsstring;
  hadiths : list Hadith;
  count : Z
}.

Record Collection := {
  collectionId : jsstring;
  collectionName : jsstring;
  collectionNameArabic : jsstring;
  files : list FileVariant;
  totalHadiths : Z
}.

(** The document held in [this.data]; its [metadata] is carried along and
    never read by the functions below. *)
Record Data := { collections : list Collection }.

(** [d.collections], under a name that the fields of the loader and of the
    manager do not hide. *)
Abbreviation corpus := collections.

(** The number of records a collection really holds, over all its files. *)
Definition recordCount (c : Collection) : Z :=
  fold_left (fun sum file => sum + Z.of_nat (length (hadiths file))) (files c) 0.

Definition totalRecords (cs : list Collection) : Z :=
  fold_left (fun sum c => sum + recordCount c) cs 0.

End Model.
Import Model.

(* ===================================================================== *)
(** * Corpus loader (enhanced-data-loader.js)                           *)
(* ===================================================================== *)

Module Loader.

(** An entry of [manifest.files]. *)
Record FileInfo := {
  filename : jsstring;
  fi_collectionId : jsstring;
  hadithCount : Z
}.

Record Manifest := {
  totalCollections : Z;
  manifest_files : list FileInfo
}.

(** What [JSON.parse(fs.readFileSync(path, 'utf8'))] does on an existing
    path: it throws, or it yields the parsed document. *)
Inductive Read (A : Type) : Type :=
  | Throws : Read A
  | Parsed : A -> Read A.
Arguments Throws {A}.
Arguments Parsed {A} _.

(** The part of the file system the loader looks at. A path that is absent
    from a map does not exist ([fs.existsSync] is false). *)
Record FileSystem := {
  collectionsDir : bool;
  manifestFile : option (Read Manifest);
  collectionFiles : gmap jsstring (Read Collection);
  unifiedFile : option (Read Data)
}.

Inductive Method := SplitFiles | UnifiedFile.

(** [this.stats]; the load time and the memory usage are measurements and
    are left out. *)
Record Stats := {
  collectionsCount : Z;
  hadithsCount : Z
}.

(** The fields of a [HadithDataLoader]. *)
Record State := {
  data : option Data;
  isLoaded : bool;
  loadingMethod : option Method;
  stats : Stats
}.

(** [new HadithDataLoader()]. *)
Definition init : State :=
  {| data := None; isLoaded := false; loadingMethod := None;
     stats := {| collectionsCount := 0; hadithsCount := 0 |} |}.

(** The loop over [manifest.files] of [loadFromSplitFiles], with its two
    accumulators; [None] when a read or a parse throws. *)
Fixpoint loadListed (dir : gmap jsstring (Read Collection))
    (entries : list FileInfo) (collections : list Collection)
    (totalHadiths : Z) : option (list Collection * Z) :=
  match entries with
  | [] => Some (collections, totalHadiths)
  | fileInfo :: rest =>
      match dir !! filename fileInfo with
      | Some (Parsed c) =>
          loadListed dir rest (collections ++ [c])
                     (totalHadiths + hadithCount fileInfo)
      | Some Throws => None
      | None => loadListed dir rest collections totalHadiths
      end
  end.

(** [loadFromSplitFiles]: the returned boolean and the loader afterwards. *)
Definition loadFromSplitFiles (fs : FileSystem) (st : State) : bool * State :=
  if negb (collectionsDir fs) || negb (bool_decide (is_Some (manifestFile fs)))
  then (false, st)
  else
    match manifestFile fs with
    | Some (Parsed manifest) =>
        match loadListed (collectionFiles fs) (manifest_files manifest) [] 0 with
        | Some (collections, totalHadiths) =>
            (true,
             {| data := Some {| collections := collections |};
                isLoaded := isLoaded st;
                loadingMethod := loadingMethod st;
                stats := {| collectionsCount := Z.of_nat (length collections);
                            hadithsCount := totalHadiths |} |})
        | None => (false, st)
        end
    | _ => (false, st)
    end.

(** [loadFromUnifiedFile]. *)
Definition loadFromUnifiedFile (fs : FileSystem) (st : State) : bool * State :=
  match unifiedFile fs with
  | None => (false, st)
  | Some Throws => (false, st)
  | Some (Parsed d) =>
      let totalHadiths :=
        fold_left (fun total collection =>
          fold_left (fun total file => total + Z.of_nat (length (hadiths file)))
                    (files collection) total)
          (collections d) 0 in
      (true,
       {| data := Some d;
          isLoaded := isLoaded st;
          loadingMethod := loadingMethod st;
          stats := {| collectionsCount := Z.of_nat (length (collections d));
                      hadithsCount := totalHadiths |} |})
  end.

(** How a call ends: it returns, or it throws; the loader is given in both
    cases. *)
Inductive Outcome (S : Type) : Type :=
  | Returned : S -> Outcome S
  | Thrown : S -> Outcome S.
Arguments Returned {S} _.
Arguments Thrown {S} _.

Definition loaded_with (m : Method) (st : State) : State :=
  {| data := data st; isLoaded := true; loadingMethod := Some m;
     stats := stats st |}.

(** [loadData]: split files first, the unified file as the fallback. On
    success the call returns [this.data]. *)
Definition loadData (fs : FileSystem) (st : State) : Outcome State :=
  let '(ok, st1) := loadFromSplitFiles fs st in
  if ok then Returned (loaded_with SplitFiles st1)
  else
    let '(ok, st2) := loadFromUnifiedFile fs st1 in
    if ok then Returned (loaded_with UnifiedFile st2)
    else Thrown st2.

(** The data splitter script: one file [<collectionId>.json] per collection
    of the unified document, and a manifest entry with the number of
    records counted in that collection. *)
Definition splitFilename (c : Collection) : jsstring :=
  collectionId c ++ lit ".json".



(** ** The relevance score of the loader's own search *)

(** The characters [^ $ \ . * + ? ( ) [ ] { } |] of the regular expression
    syntax. A pattern without them matches itself and nothing else. *)
Definition isSyntaxCharacter (c : N) : bool :=
  existsb (N.eqb c) [94; 36; 92; 46; 42; 43; 63; 40; 41; 91; 93; 123; 125; 124]%N.

Definition isLiteralPattern (p : jsstring) : bool :=
  truthy p && forallb (fun c => negb (isSyntaxCharacter c)) p.

(** The class [\w]: [A-Z], [a-z], [0-9] and [_]. *)
Definition isWordChar (c : N) : bool :=
  ((65 <=? c) && (c <=? 90) || (97 <=? c) && (c <=? 122)
   || (48 <=? c) && (c <=? 57) || (c =? 95))%N.

(** The assertion [\b] between two neighbours; there is no character
    before the start and after the end of the text. *)
Definition wordBoundary (before after : option N) : bool :=
  xorb (from_option isWordChar false before)
       (from_option isWordChar false after).

(** [(s.match(new RegExp(pat, 'g')) || []).length] for a literal pattern, and
    the same for the pattern between two [\b] when [bounded] is set: the
    scan goes from left to right and resumes after each match. [prev] is the
    character before [s], [skip] the number of characters still covered by
    the last match. *)
Fixpoint countMatches (pat : jsstring) (bounded : bool) (prev : option N)
    (s : jsstring) (skip : nat) : Z :=
  match s with
  | [] => 0
  | c :: s' =>
      match skip with
      | S k => countMatches pat bounded (Some c) s' k
      | O =>
          if startsWith s pat
             && (negb bounded
                 || wordBoundary prev (Some c)
                    && wordBoundary (last pat) (s !! length pat))
          then 1 + countMatches pat bounded (Some c) s' (length pat - 1)
          else countMatches pat bounded (Some c) s' 0
      end
  end.

(** [HadithDataLoader.calculateRelevance(text, searchTerm)]. The search term
    is used as the source of a regular expression; [None] stands for a term
    whose lower case is not a literal pattern, which this model does not
    cover. *)
Definition calculateRelevance `{CaseMapping} (text searchTerm : jsstring)
  : option num :=
  if negb (truthy text) || negb (truthy searchTerm) then Some (num_of_Z 0)
  else
    let lowerText := toLowerCase text in
    let lowerSearch := toLowerCase searchTerm in
    if isLiteralPattern lowerSearch then
      let matches := countMatches lowerSearch false None lowerText 0 in
      let score := matches * 100 in
      let score := if startsWith lowerText lowerSearch then score + 50
                   else score in
      let exactMatches := countMatches lowerSearch true None lowerText 0 in
      let score := score + exactMatches * 25 in
      let score :=
        div (num_of_Z score)
            (sqrt (div (num_of_nat (length text)) (num_of_Z 100))) in
      Some (round score)
    else None.

(** ** Vocabulary of the properties *)

Definition sumZ (l : list Z) : Z := fold_right Z.add 0 l.

(** The listed files that exist and parse, with their manifest entries, in
    manifest order. *)
Definition present (dir : gmap jsstring (Read Collection))
    (entries : list FileInfo) : list (FileInfo * Collection) :=
  flat_map
    (fun e => match dir !! filename e with
              | Some (Parsed c) => [(e, c)]
              | _ => []
              end)
    entries.

(** A listed file exists and reading or parsing it throws. *)
Definition unreadable (dir : gmap jsstring (Read Collection)) (e : FileInfo)
  : bool :=
  match dir !! filename e with
  | Some Throws => true
  | _ => false
  end.

(** A listed file does not exist. *)
Definition missing (dir : gmap jsstring (Read Collection)) (e : FileInfo)
  : bool :=
  match dir !! filename e with
  | None => true
  | _ => false
  end.

End Loader.

(* ===================================================================== *)
(** * Requests and responses of the search engine                       *)
(* ===================================================================== *)

(** The options bag of [searchHadiths]; an absent key is [None]. [limit] and
    [offset] are the integers that the schemas of the search routes admit
    (at least 1 and at least 0), and the advanced search passes 1000 and 0:
    they are natural numbers. *)
Module Options.
Record t := {
  collectionId : option jsstring;
  fileType : option jsstring;
  limit : option nat;
  offset : option nat;
  exactMatch : option bool
}.

Definition none : t :=
  {| collectionId := None; fileType := None; limit := None; offset := None;
     exactMatch := None |}.

(** The options with the given page. *)
Definition page (o : t) (l off : nat) : t :=
  {| collectionId := collectionId o; fileType := fileType o;
     limit := Some l; offset := Some off; exactMatch := exactMatch o |}.
End Options.

(** A search hit: [{ ...hadith, collectionId, collectionName, fileType,
    relevanceScore }]. *)
Module Result.
Record t := {
  hadith : Hadith;
  collectionId : jsstring;
  collectionName : jsstring;
  fileType : jsstring;
  relevanceScore : num
}.
End Result.

Module Response.
Record Pagination := {
  total : nat;
  limit : nat;
  offset : nat;
  hasMore : bool
}.

(** [{ hadiths, pagination, query: { term, options } }]; the answer to an
    empty query has no [query] key. *)
Record t := {
  hadiths : list Result.t;
  pagination : Pagination;
  query : option (jsstring * Options.t)
}.
End Response.

(* ===================================================================== *)
(** * Data manager: collection index and search engine (dataLoader.js)  *)
(* ===================================================================== *)

Module Manager.

(** A reference to a collection object. [JSON.parse] builds one fresh object
    for each element of [data.collections], so that an object of the corpus
    is identified by the slot of that array which holds it. *)
Definition ref := nat.

(** The fields of a [HadithDataManager]; [collections] is the [Map] from
    collection identifiers to collection objects. *)
Record State := {
  dataLoader : Loader.State;
  data : option Data;
  loaded : bool;
  collections : gmap jsstring ref
}.

(** [new HadithDataManager()]. *)
Definition init : State :=
  {| dataLoader := Loader.init; data := None; loaded := false;
     collections := ∅ |}.

(** The loop of [buildCollectionIndex]: [this.collections.set(id, collection)]
    for the collections from slot [i] on. *)
Fixpoint setAll (i : ref) (cs : list Collection) (index : gmap jsstring ref)
  : gmap jsstring ref :=
  match cs with
  | [] => index
  | collection :: cs' =>
      setAll (S i) cs' (<[collectionId collection := i]> index)
  end.

(** [buildCollectionIndex]: clear the map, then one pass over the corpus.
    [None]: [this.data] is null and the call throws. *)
Definition buildCollectionIndex (m : State) : option State :=
  match data m with
  | None => None
  | Some d =>
      Some {| dataLoader := dataLoader m; data := data m; loaded := loaded m;
              collections := setAll 0%nat (corpus d) ∅ |}
  end.

(** [loadData]: load through the enhanced loader, then build the index. The
    search index built next is read by no function modelled here. *)
Definition loadData (fs : Loader.FileSystem) (m : State)
  : Loader.Outcome State :=
  match Loader.loadData fs (dataLoader m) with
  | Loader.Returned ld =>
      let m1 := {| dataLoader := ld; data := Loader.data ld;
                   loaded := loaded m; collections := collections m |} in
      match buildCollectionIndex m1 with
      | Some m2 =>
          Loader.Returned {| dataLoader := dataLoader m2; data := data m2;
                             loaded := true; collections := collections m2 |}
      | None => Loader.Thrown m1
      end
  | Loader.Thrown ld =>
      Loader.Thrown {| dataLoader := ld; data := data m; loaded := loaded m;
                       collections := collections m |}
  end.

(** [getCollection(collectionId)]: the object stored in the map, or null. *)
Definition getCollection (m : State) (id : jsstring) : option ref :=
  collections m !! id.

(** The object a reference points to. *)
Definition deref (m : State) (r : ref) : option Collection :=
  match data m with
  | Some d => corpus d !! r
  | None => None
  end.

(** ** Search engine *)

Section Search.
Context `{CaseMapping}.

(** [fuzzySearch(text, term)]. *)
Definition fuzzySearch (text term : jsstring) : bool :=
  existsb (fun word => includes text word) (splitWs term).

(** [calculateRelevance(text, term)]. *)
Definition calculateRelevance (text term : jsstring) : num :=
  let termLower := toLowerCase term in
  let textLower := toLowerCase text in
  if includes textLower termLower then
    let index := indexOf textLower termLower in
    sub (num_of_Z 100)
        (mul (div (num_of_Z index) (num_of_nat (length text))) (num_of_Z 50))
  else
    fold_left
      (fun score word =>
         if includes textLower word then add score (num_of_Z 10) else score)
      (splitWs termLower) (num_of_Z 0).

(** [filter && value !== filter]: an absent or empty filter skips nothing. *)
Definition skips (filter : option jsstring) (value : jsstring) : bool :=
  match filter with
  | Some f => truthy f && negb (bool_decide (value = f))
  | None => false
  end.

(** The test [matches] of the innermost loop. *)
Definition matches (exactMatch : bool) (searchTerm : jsstring)
    (hadith : Hadith) : bool :=
  let hadithText := toLowerCase (text hadith) in
  if exactMatch then includes hadithText searchTerm
  else fuzzySearch hadithText searchTerm.

(** The innermost loop: the hits among the records of one file. *)
Definition hitsOfFile (exactMatch : bool) (searchTerm : jsstring)
    (collection : Collection) (file : FileVariant) : list Result.t :=
  flat_map
    (fun hadith =>
       let hadithText := toLowerCase (text hadith) in
       if matches exactMatch searchTerm hadith
       then [ {| Result.hadith := hadith;
                 Result.collectionId := collectionId collection;
                 Result.collectionName := collectionName collection;
                 Result.fileType := fileType file;
                 Result.relevanceScore :=
                   calculateRelevance hadithText searchTerm |} ]
       else [])
    (hadiths file).

(** The three nested loops: the array [results] before it is sorted, in the
    order in which the corpus is walked. *)
Definition hits (cs : list Collection) (o : Options.t) (searchTerm : jsstring)
  : list Result.t :=
  flat_map
    (fun collection =>
       if skips (Options.collectionId o) (collectionId collection) then []
       else
         flat_map
           (fun file =>
              if skips (Options.fileType o) (fileType file) then []
              else hitsOfFile (default false (Options.exactMatch o))
                              searchTerm collection file)
           (files collection))
    cs.

(** The comparator [(a, b) => b.relevanceScore - a.relevanceScore] gives a
    positive number. *)
Definition byRelevance (a b : Result.t) : bool :=
  gt0 (sub (Result.relevanceScore b) (Result.relevanceScore a)).

(** [results] after [results.sort(...)]. *)
Definition ranked (cs : list Collection) (o : Options.t) (searchTerm : jsstring)
  : list Result.t :=
  sort byRelevance (hits cs o searchTerm).

(** [searchHadiths(query, options)]. [None]: the call throws, which it does
    when [this.data] is still null. *)
Definition searchHadiths (m : State) (query : jsstring) (o : Options.t)
  : option Response.t :=
  let limit := default 50%nat (Options.limit o) in
  let offset := default 0%nat (Options.offset o) in
  if negb (truthy query) || (length (trim query) =? 0)%nat then
    Some {| Response.hadiths := [];
            Response.pagination :=
              {| Response.total := 0; Response.limit := limit;
                 Response.offset := offset; Response.hasMore := false |};
            Response.query := None |}
  else
    let searchTerm := toLowerCase (trim query) in
    match data m with
    | None => None
    | Some d =>
        let results := ranked (corpus d) o searchTerm in
        let total := length results in
        Some {| Response.hadiths := slice offset (offset + limit) results;
                Response.pagination :=
                  {| Response.total := total; Response.limit := limit;
                     Response.offset := offset;
                     Response.hasMore := (offset + limit <? total)%nat |};
                Response.query := Some (query, o) |}
    end.

End Search.

End Manager.

(* ===================================================================== *)
(** * Vocabulary of the search properties                               *)
(* ===================================================================== *)

Module SearchSpec.
Import Manager.

(** The options [o] with the match mode set. *)
Definition withMode (o : Options.t) (exact : bool) : Options.t :=
  {| Options.collectionId := Options.collectionId o;
     Options.fileType := Options.fileType o;
     Options.limit := Options.limit o;
     Options.offset := Options.offset o;
     Options.exactMatch := Some exact |}.

(** The records with relevance score [s]. *)
Definition scored (s : num) (r : Result.t) : bool :=
  bool_decide (Result.relevanceScore r = s).

(** A query that the engine answers without walking the corpus. *)
Definition emptyQuery (query : jsstring) : bool :=
  negb (truthy query) || (length (trim query) =? 0)%nat.

(** [a] does not score below [b], on the exact values of the scores. *)
Definition scoresAtLeast (a b : Result.t) : Prop :=
  below (Result.relevanceScore a) (Result.relevanceScore b) = false.

Section Engine.
Context `{CaseMapping}.

(** The whole ranking of a query: what [searchHadiths] slices its page
    from. *)
Definition ranking (d : Data) (query : jsstring) (o : Options.t)
  : list Result.t :=
  if emptyQuery query then []
  else ranked (corpus d) o (toLowerCase (trim query)).


(** Every text of the corpus, in lower case, is shorter than 2^52 code
    units (a string holds fewer than 2^53). *)
Definition textsBounded (d : Data) : bool :=
  forallb
    (fun c =>
       forallb
         (fun f =>
            forallb
              (fun h => Z.of_nat (length (toLowerCase (text h))) <? 2 ^ 52)
              (hadiths f))
         (files c))
    (corpus d).

End Engine.
End SearchSpec.

(* ===================================================================== *)
(** * Search routes                                                     *)
(* ===================================================================== *)

Module SearchRoutes.

(** The body of [POST /advanced]; an absent [collections] or [fileTypes]
    takes the default [[]]. *)
Record AdvancedBody := {
  query : jsstring;
  collections : list jsstring;
  fileTypes : list jsstring;
  minLength : option Z;
  maxLength : option Z;
  hasFullDiacritics : option bool;
  limit : option nat;
  offset : option nat
}.

Record Applied := {
  applied_collections : nat;
  applied_fileTypes : nat;
  lengthFilter : bool;
  diacriticsFilter : bool
}.

Record Filters := {
  applied : Applied;
  resultsBeforeFiltering : nat;
  resultsAfterFiltering : nat
}.

Record AdvancedResponse := {
  hadiths : list Result.t;
  pagination : Response.Pagination;
  filters : Filters
}.

(** [array.includes(s)] on an array of strings. *)
Definition includesString (a : list jsstring) (s : jsstring) : bool :=
  existsb (fun x => bool_decide (x = s)) a.

(** The callback of [results.hadiths.filter(...)]. *)
Definition keeps (b : AdvancedBody) (hadith : Result.t) : bool :=
  if (0 <? length (collections b))%nat
     && negb (includesString (collections b) (Result.collectionId hadith))
  then false
  else if (0 <? length (fileTypes b))%nat
          && negb (includesString (fileTypes b) (Result.fileType hadith))
  then false
  else if match minLength b with
          | Some min => textLength (Result.hadith hadith) <? min
          | None => false
          end
  then false
  else if match maxLength b with
          | Some max => max <? textLength (Result.hadith hadith)
          | None => false
          end
  then false
  else if match hasFullDiacritics b with
          | Some flag =>
              negb (Bool.eqb (Model.hasFullDiacritics (Result.hadith hadith)) flag)
          | None => false
          end
  then false
  else true.

Section Handlers.
Context `{CaseMapping}.

(** The options of the basic search the advanced search starts from. *)
Definition baseOptions : Options.t := Options.page Options.none 1000 0.

(** The handler of [POST /advanced]. *)
Definition advancedSearch (m : Manager.State) (b : AdvancedBody)
  : option AdvancedResponse :=
  let limit := default 20%nat (limit b) in
  let offset := default 0%nat (offset b) in
  match Manager.searchHadiths m (query b) baseOptions with
  | None => None
  | Some results =>
      let filteredHadiths := List.filter (keeps b) (Response.hadiths results) in
      let total := length filteredHadiths in
      Some {| hadiths := slice offset (offset + limit) filteredHadiths;
              pagination :=
                {| Response.total := total; Response.limit := limit;
                   Response.offset := offset;
                   Response.hasMore := (offset + limit <? total)%nat |};
              filters :=
                {| applied :=
                     {| applied_collections := length (collections b);
                        applied_fileTypes := length (fileTypes b);
                        lengthFilter :=
                          bool_decide (is_Some (minLength b))
                          || bool_decide (is_Some (maxLength b));
                        diacriticsFilter :=
                          bool_decide (is_Some (hasFullDiacritics b)) |};
                   resultsBeforeFiltering := length (Response.hadiths results);
                   resultsAfterFiltering := total |} |}
  end.

End Handlers.

End SearchRoutes.

(* ===================================================================== *)
(** * Vocabulary of the filter properties                               *)
(* ===================================================================== *)

Module FilterSpec.
Import SearchRoutes.

(** The five filters, one for each dimension. An empty set and an absent
    bound or flag let every record pass. *)
Definition passCollections (b : AdvancedBody) (r : Result.t) : bool :=
  match collections b with
  | [] => true
  | _ => includesString (collections b) (Result.collectionId r)
  end.

Definition passFileTypes (b : AdvancedBody) (r : Result.t) : bool :=
  match fileTypes b with
  | [] => true
  | _ => includesString (fileTypes b) (Result.fileType r)
  end.

Definition passMinLength (b : AdvancedBody) (r : Result.t) : bool :=
  match minLength b with
  | Some min => min <=? textLength (Result.hadith r)
  | None => true
  end.

Definition passMaxLength (b : AdvancedBody) (r : Result.t) : bool :=
  match maxLength b with
  | Some max => textLength (Result.hadith r) <=? max
  | None => true
  end.

Definition passDiacritics (b : AdvancedBody) (r : Result.t) : bool :=
  match hasFullDiacritics b with
  | Some flag => Bool.eqb (Model.hasFullDiacritics (Result.hadith r)) flag
  | None => true
  end.

(** An advanced search without any filter. *)
Definition unfiltered (q : jsstring) (limit offset : option nat)
  : AdvancedBody :=
  {| query := q; collections := [];
     fileTypes := []; minLength := None;
     maxLength := None; hasFullDiacritics := None;
     limit := limit; offset := offset |}.

End FilterSpec.

(* ===================================================================== *)
(** * Statistics routes (stats.js)                                      *)
(* ===================================================================== *)

Module StatsRoutes.

(** The text lengths of the records in scope, in corpus order: the array
    [allLengths] before it is sorted. [None]: [this.data] is null. *)
Definition lengthsInScope (m : Manager.State)
    (collectionId fileType : option jsstring) : option (list Z) :=
  match Manager.data m with
  | None => None
  | Some d =>
      let collections :=
        match collectionId with
        | Some id =>
            if truthy id
            then [ match Manager.getCollection m id with
                   | Some r => Manager.deref m r
                   | None => None
                   end ]
            else List.map Some (corpus d)
        | None => List.map Some (corpus d)
        end in
      Some
        (flat_map
           (fun collection =>
              match collection with
              | None => []
              | Some collection =>
                  flat_map
                    (fun file =>
                       if Manager.skips fileType (Model.fileType file) then []
                       else List.map textLength (hadiths file))
                    (files collection)
              end)
           collections)
  end.

(** The comparator [(a, b) => a - b] gives a positive number. *)
Definition ascending (a b : Z) : bool := 0 <? a - b.

(** The ladder of percentiles. *)
Definition ladder : list Z := [10; 25; 50; 75; 90; 95; 99].

(** [Math.floor((p / 100) * total)]. *)
Definition percentileIndex (p : Z) (total : nat) : Z :=
  floorZ (mul (div (num_of_Z p) (num_of_Z 100)) (num_of_nat total)).

(** [allLengths[index]], undefined outside the array. *)
Definition at_index (a : list Z) (index : Z) : option Z :=
  if index <? 0 then None else a !! Z.to_nat index.

Record Ranges := {
  range_0_99 : nat;
  range_100_299 : nat;
  range_300_599 : nat;
  range_600_999 : nat;
  range_1000 : nat
}.

(** The statistics and the percentiles of the answer; the percentages of
    the ranges and the standard deviation are left out. *)
Record Distribution := {
  ranges : Ranges;
  total : nat;
  mean : num;
  median : option Z;
  min : option Z;
  max : option Z;
  percentiles : list (Z * option Z)
}.

Definition countIf (f : Z -> bool) (a : list Z) : nat :=
  length (List.filter f a).

(** The handler of [GET /distribution]. [None]: the call throws;
    [Some None]: the answer of the empty scope, 'No data found'. *)
Definition distribution (m : Manager.State)
    (collectionId fileType : option jsstring)
  : option (option Distribution) :=
  match lengthsInScope m collectionId fileType with
  | None => None
  | Some lengths =>
      if (length lengths =? 0)%nat then Some None
      else
        let allLengths := sort ascending lengths in
        let total := length allLengths in
        let sum := fold_left Z.add allLengths 0 in
        Some (Some
          {| ranges :=
               {| range_0_99 := countIf (fun l => l <? 100) allLengths;
                  range_100_299 :=
                    countIf (fun l => (100 <=? l) && (l <? 300)) allLengths;
                  range_300_599 :=
                    countIf (fun l => (300 <=? l) && (l <? 600)) allLengths;
                  range_600_999 :=
                    countIf (fun l => (600 <=? l) && (l <? 1000)) allLengths;
                  range_1000 := countIf (fun l => 1000 <=? l) allLengths |};
             total := total;
             mean := round (div (num_of_Z sum) (num_of_nat total));
             median := at_index allLengths (Z.of_nat (total / 2));
             min := allLengths !! 0%nat;
             max := allLengths !! (total - 1)%nat;
             percentiles :=
               List.map
                 (fun p => (p, at_index allLengths (percentileIndex p total)))
                 ladder |})
  end.

End StatsRoutes.

(* ===================================================================== *)
(** * The canonical relevance score of the specification                *)
(* ===================================================================== *)

Module Canonical.





End Canonical.

(* ===================================================================== *)
(** * Sample documents                                                  *)
(* ===================================================================== *)

Module Sample.
Import Loader.

Definition regular : jsstring := lit "regular".

Definition hadith (i t : string) : Hadith :=
  {| hadith_id := lit i; text := lit t;
     textLength := Z.of_nat (length (lit t)); hasFullDiacritics := false |}.

Definition collection (i : string) (hs : list Hadith) : Collection :=
  {| collectionId := lit i; collectionName := lit i;
     collectionNameArabic := lit i;
     files := [ {| fileType := regular; hadiths := hs;
                   count := Z.of_nat (length hs) |} ];
     totalHadiths := Z.of_nat (length hs) |}.

Definition colA : Collection := collection "a" [hadith "1" "ab"].
Definition colB : Collection := collection "b" [hadith "1" "cd"; hadith "2" "ab cd"].

Definition entry (c : Collection) (n : Z) : FileInfo :=
  {| filename := splitFilename c; fi_collectionId := collectionId c;
     hadithCount := n |}.

(** A manifest that lists two files, of which only the first exists. *)
Definition fsMissing : FileSystem :=
  {| collectionsDir := true;
     manifestFile :=
       Some (Parsed {| totalCollections := 2;
                       manifest_files := [entry colA 1; entry colB 2] |});
     collectionFiles := {[ splitFilename colA := Parsed colA ]};
     unifiedFile := Some (Parsed {| collections := [colA; colB] |}) |}.


(** A manifest whose second file cannot be parsed. *)
Definition fsUnreadable : FileSystem :=
  {| collectionsDir := true;
     manifestFile :=
       Some (Parsed {| totalCollections := 2;
                       manifest_files := [entry colA 1; entry colB 2] |});
     collectionFiles :=
       <[ splitFilename colB := Throws ]>
         {[ splitFilename colA := Parsed colA ]};
     unifiedFile := Some (Parsed {| collections := [colA; colB] |}) |}.

(** The unified document alone. *)
Definition fsUnified : FileSystem :=
  {| collectionsDir := false; manifestFile := None; collectionFiles := ∅;
     unifiedFile := Some (Parsed {| collections := [colA; colB] |}) |}.

(** The unified document of the two sample collections. *)
Definition unified : Data := {| collections := [colA; colB] |}.

End Sample.

Module SampleSearch.

(** The manager after [loadData] on a file system. *)
Definition managerOf (fs : Loader.FileSystem) : Manager.State :=
  match Manager.loadData fs Manager.init with
  | Loader.Returned m => m
  | Loader.Thrown m => m
  end.

(** A manager that has loaded the two sample collections. *)
Definition manager : Manager.State := managerOf Sample.fsUnified.

(** A corpus of 1001 records, and a manager that has loaded it. *)
Definition big : Data :=
  {| collections :=
       [Sample.collection "a" (repeat (Sample.hadith "1" "a") 1001)] |}.

Definition fsBig : Loader.FileSystem :=
  {| Loader.collectionsDir := false; Loader.manifestFile := None;
     Loader.collectionFiles := ∅;
     Loader.unifiedFile := Some (Loader.Parsed big) |}.

Definition managerBig : Manager.State := managerOf fsBig.

End SampleSearch.

(* ===================================================================== *)
(** * CSV converter (csv-to-json-converter.js)                          *)
(* ===================================================================== *)

Module Converter.

(** The class of the diacritical marks: U+064B to U+065F, U+0670, and
    U+06D6 to U+06ED. *)
Definition isDiacritic (c : N) : bool :=
  ((1611 <=? c) && (c <=? 1631) || (c =? 1648)
   || (1750 <=? c) && (c <=? 1773))%N.

(** [hasArabicDiacritics(text)]: the regular expression finds a mark. *)
Definition hasArabicDiacritics (text : jsstring) : bool :=
  existsb isDiacritic text.

(** [s.endsWith(p)]. *)
Definition endsWith (s p : jsstring) : bool := startsWith (rev s) (rev p).

(** [s.slice(1, -1)]: the string without its first and its last code
    unit. *)
Definition sliceInner (s : jsstring) : jsstring := removelast (tl s).

(** [s.replace(/\s+/g, ' ')]: every maximal run of white space becomes one
    space. [inRun] tells that the scan is inside a run. *)
Fixpoint replaceWsFrom (inRun : bool) (s : jsstring) : jsstring :=
  match s with
  | [] => []
  | c :: s' =>
      if isWhiteSpace c
      then if inRun then replaceWsFrom true s'
           else 32%N :: replaceWsFrom true s'
      else c :: replaceWsFrom false s'
  end.

Definition replaceWs (s : jsstring) : jsstring := replaceWsFrom false s.

(** The double quote. *)
Definition quote : jsstring := [34%N].

(** [cleanArabicText(text)]; [None] is a column that the row does not
    have. *)
Definition cleanArabicText (text : option jsstring) : jsstring :=
  match text with
  | None => []
  | Some text =>
      if negb (truthy text) then []
      else
        let cleaned := trim text in
        let cleaned :=
          if startsWith cleaned quote && endsWith cleaned quote
          then sliceInner cleaned else cleaned in
        trim (replaceWs cleaned)
  end.

(** [getFileType(fileName)]. *)
Definition getFileType (fileName : jsstring) : jsstring :=
  if includes fileName (lit "mushakkala") || includes fileName (lit "mufassala")
  then lit "mushakkala_mufassala"
  else lit "regular".

(** A row as the CSV parser hands it over, with the headers [id] and
    [text]; a column that the line does not have is undefined. *)
Record Row := {
  row_id : option jsstring;
  row_text : option jsstring
}.

(** The handler of the data event: the record pushed for a row, if any. *)
Definition convertRow (row : Row) : option Hadith :=
  let cleanText := cleanArabicText (row_text row) in
  match row_id row with
  | Some id =>
      if truthy cleanText && truthy id
      then Some {| hadith_id := trim id;
                   text := cleanText;
                   textLength := Z.of_nat (length cleanText);
                   hasFullDiacritics := hasArabicDiacritics cleanText |}
      else None
  | None => None
  end.

(** [parseCSVFile(filePath)] for a file that is read to its end: what the
    promise resolves to, from the base name of the path and the rows of the
    file. The [fileName] of the result is that base name. *)
Definition parseCSVFile (fileName : jsstring) (rows : list Row) : FileVariant :=
  let hadiths :=
    flat_map (fun row => match convertRow row with
                         | Some hadith => [hadith]
                         | None => []
                         end) rows in
  {| fileType := getFileType fileName;
     hadiths := hadiths;
     count := Z.of_nat (length hadiths) |}.

(** An entry of [this.collectionMap]: [{ id, name, nameArabic }]. *)
Record CollectionInfo := {
  info_id : jsstring;
  info_name : jsstring;
  info_nameArabic : jsstring
}.

(** [this.collectionMap], by directory name. *)
Definition collectionMap : list (jsstring * CollectionInfo) :=
  [
    (lit "Sahih_Al-Bukhari",
     {| info_id := lit "sahih_al_bukhari";
        info_name := lit "Sahih Al-Bukhari";
        info_nameArabic :=
          [1589; 1581; 1610; 1581; 32; 1575; 1604; 1576; 1582; 1575;
          1585; 1610]%N |});
    (lit "Sahih_Muslim",
     {| info_id := lit "sahih_muslim";
        info_name := lit "Sahih Muslim";
        info_nameArabic :=
          [1589; 1581; 1610; 1581; 32; 1605; 1587; 1604; 1605]%N |});
    (lit "Sunan_Abu-Dawud",
     {| info_id := lit "sunan_abu_dawud";
        info_name := lit "Sunan Abu-Dawud";
        info_nameArabic :=
          [1587; 1606; 1606; 32; 1571; 1576; 1610; 32; 1583; 1575;
          1608; 1583]%N |});
    (lit "Sunan_Al-Tirmidhi",
     {| info_id := lit "sunan_al_tirmidhi";
        info_name := lit "Sunan Al-Tirmidhi";
        info_nameArabic :=
          [1587; 1606; 1606; 32; 1575; 1604; 1578; 1585; 1605; 1584;
          1610]%N |});
    (lit "Sunan_Al-Nasai",
     {| info_id := lit "sunan_al_nasai";
        info_name := lit "Sunan Al-Nasai";
        info_nameArabic :=
          [1587; 1606; 1606; 32; 1575; 1604; 1606; 1587; 1575; 1574;
          1610]%N |});
    (lit "Sunan_Ibn-Maja",
     {| info_id := lit "sunan_ibn_maja";
        info_name := lit "Sunan Ibn-Maja";
        info_nameArabic :=
          [1587; 1606; 1606; 32; 1575; 1576; 1606; 32; 1605; 1575;
          1580; 1607]%N |});
    (lit "Maliks_Muwataa",
     {| info_id := lit "maliks_muwataa";
        info_name := lit "Maliks Muwataa";
        info_nameArabic :=
          [1605; 1608; 1591; 1571; 32; 1605; 1575; 1604; 1603]%N |});
    (lit "Sunan_Al-Darimi",
     {| info_id := lit "sunan_al_darimi";
        info_name := lit "Sunan Al-Darimi";
        info_nameArabic :=
          [1587; 1606; 1606; 32; 1575; 1604; 1583; 1575; 1585; 1605;
          1610]%N |});
    (lit "Musnad_Ahmad_Ibn-Hanbal",
     {| info_id := lit "musnad_ahmad_ibn_hanbal";
        info_name := lit "Musnad Ahmad Ibn-Hanbal";
        info_nameArabic :=
          [1605; 1587; 1606; 1583; 32; 1571; 1581; 1605; 1583; 32;
          1576; 1606; 32; 1581; 1606; 1576; 1604]%N |})
  ].

(** The property names that every object answers to through
    [Object.prototype]. *)
Definition inheritedKeys : list jsstring :=
  List.map lit
    [ "constructor"; "__proto__"; "hasOwnProperty"; "isPrototypeOf";
      "propertyIsEnumerable"; "toLocaleString"; "toString"; "valueOf";
      "__defineGetter__"; "__defineSetter__"; "__lookupGetter__";
      "__lookupSetter__" ]%string.

(** [this.collectionMap[name]]: an entry of the map, a value inherited
    from [Object.prototype] (which is truthy and is no entry), or
    undefined. *)
Inductive Lookup : Type :=
  | Own : CollectionInfo -> Lookup
  | Inherited : Lookup
  | Absent : Lookup.

Definition lookupInfo (name : jsstring) : Lookup :=
  match List.find (fun e => bool_decide (fst e = name)) collectionMap with
  | Some e => Own (snd e)
  | None =>
      if existsb (fun k => bool_decide (k = name)) inheritedKeys
      then Inherited else Absent
  end.

(** A directory: its name, and the names of the files in it, in the order
    in which [readdirSync] lists them, each with the rows that the parser
    reads from it. *)
Record Directory := {
  dirName : jsstring;
  dirFiles : list (jsstring * list Row)
}.

(** How [processCollection] ends: it throws for a name that is not in the
    map, it returns null for a directory without CSV files, or it returns
    the collection. [Uncovered]: the name is a property of
    [Object.prototype], a case that this model does not cover. *)
Inductive Processed : Type :=
  | UnknownCollection : Processed
  | NoCsvFiles : Processed
  | Made : Collection -> Processed
  | Uncovered : Processed.

(** [processCollection(collectionPath)], where every CSV file is read to
    its end. *)
Definition processCollection (dir : Directory) : Processed :=
  match lookupInfo (dirName dir) with
  | Absent => UnknownCollection
  | Inherited => Uncovered
  | Own collectionInfo =>
      let files :=
        List.filter (fun file => endsWith (fst file) (lit ".csv"))
                    (dirFiles dir) in
      if (length files =? 0)%nat then NoCsvFiles
      else
        let filesData :=
          List.map (fun file => parseCSVFile (fst file) (snd file)) files in
        let totalHadiths :=
          fold_left (fun sum file => sum + count file) filesData 0 in
        Made {| collectionId := info_id collectionInfo;
                collectionName := info_name collectionInfo;
                collectionNameArabic := info_nameArabic collectionInfo;
                files := filesData;
                totalHadiths := totalHadiths |}
  end.

(** An entry of the data directory. *)
Record DirEntry := {
  entry : Directory;
  isDirectory : bool
}.

(** The totals of [this.metadata]; the list [metadata.collections] is
    filled in the order in which the collections are read to their end,
    and is left out. *)
Record Metadata := {
  totalCollections : nat;
  totalFiles : nat;
  metadata_totalHadiths : Z
}.

(** How [convertAll] ends: it throws, which it does when no directory has
    a name of the map, or it returns [{ collections, metadata }]. *)
Inductive Conversion : Type :=
  | ConversionThrows : Conversion
  | Converted : Data -> Metadata -> Conversion
  | ConversionUncovered : Conversion.

(** [convertAll(dataDir)] on the entries of the data directory. *)
Definition convertAll (entries : list DirEntry) : Conversion :=
  let collectionDirs :=
    List.map entry
      (List.filter
         (fun e => isDirectory e
                   && match lookupInfo (dirName (entry e)) with
                      | Absent => false
                      | _ => true
                      end)
         entries) in
  if (length collectionDirs =? 0)%nat then ConversionThrows
  else
    let results := List.map processCollection collectionDirs in
    if existsb (fun r => match r with
                         | Uncovered => true
                         | _ => false
                         end) results
    then ConversionUncovered
    else if existsb (fun r => match r with
                              | UnknownCollection => true
                              | _ => false
                              end) results
    then ConversionThrows
    else
      let collections :=
        flat_map (fun r => match r with
                           | Made collection => [collection]
                           | _ => []
                           end) results in
      Converted
        {| Model.collections := collections |}
        {| totalCollections := length collections;
           totalFiles :=
             fold_left (fun sum col => (sum + length (files col))%nat)
                       collections 0%nat;
           metadata_totalHadiths :=
             fold_left (fun sum col => sum + totalHadiths col)
                       collections 0 |}.

(** ** Vocabulary of the properties *)

(** The white space of [s] is made of single spaces, none of them at the
    end, and none at the start when [prevSpace] is set. *)
Fixpoint singleSpaced (prevSpace : bool) (s : jsstring) : bool :=
  match s with
  | [] => negb prevSpace
  | c :: s' =>
      if isWhiteSpace c
      then (c =? 32)%N && negb prevSpace && singleSpaced true s'
      else singleSpaced false s'
  end.

(** A cleaned text: empty, or single spaced with no space at either end. *)
Definition normalized (s : jsstring) : bool :=
  match s with
  | [] => true
  | _ => singleSpaced true s
  end.

(** White space made of single spaces, with no condition on the end of the
    string. *)
Fixpoint spaced (prevSpace : bool) (s : jsstring) : bool :=
  match s with
  | [] => true
  | c :: s' =>
      if isWhiteSpace c then (c =? 32)%N && negb prevSpace && spaced true s'
      else spaced false s'
  end.

(** A string of white space. *)
Definition allWs (s : jsstring) : bool := forallb isWhiteSpace s.

(** The code units of a string that are not white space. *)
Definition ink (s : jsstring) : jsstring :=
  List.filter (fun c => negb (isWhiteSpace c)) s.

End Converter.

(* ===================================================================== *)
(** * Listings of the data manager and of the loader                    *)
(* ===================================================================== *)

(** A listed record: [{ ...hadith, collectionId, collectionName,
    fileType }]. *)
Module Item.
Record t := {
  hadith : Hadith;
  collectionId : jsstring;
  collectionName : jsstring;
  fileType : jsstring
}.

Definition make (collection : Collection) (file : FileVariant)
    (hadith : Hadith) : t :=
  {| hadith := hadith;
     collectionId := Model.collectionId collection;
     collectionName := Model.collectionName collection;
     fileType := Model.fileType file |}.
End Item.

Module ManagerQueries.
Import Manager.

(** An element of [getCollections()]. *)
Record Summary := {
  collectionId : jsstring;
  collectionName : jsstring;
  collectionNameArabic : jsstring;
  totalHadiths : Z;
  fileTypes : list jsstring
}.

(** [getCollections()]. [None]: [this.data] is null and the call throws. *)
Definition getCollections (m : State) : option (list Summary) :=
  match data m with
  | None => None
  | Some d =>
      Some (List.map
              (fun col =>
                 {| collectionId := Model.collectionId col;
                    collectionName := Model.collectionName col;
                    collectionNameArabic := Model.collectionNameArabic col;
                    totalHadiths :=
                      fold_left
                        (fun totalHadiths file =>
                           totalHadiths + Z.of_nat (length (hadiths file)))
                        (files col) 0;
                    fileTypes := List.map fileType (files col) |})
              (corpus d))
  end.

(** The object that [getCollection(collectionId)] returns, or null. *)
Definition collectionOf (m : State) (id : jsstring) : option Collection :=
  match getCollection m id with
  | Some r => deref m r
  | None => None
  end.

(** [{ hadiths, pagination }]. *)
Record Listing := {
  hadiths : list Item.t;
  pagination : Response.Pagination
}.

(** The array [allHadiths] of [getCollectionHadiths]. *)
Definition allHadiths (collection : Collection) (fileType : option jsstring)
  : list Item.t :=
  flat_map
    (fun file =>
       if skips fileType (Model.fileType file) then []
       else List.map (Item.make collection file) (Model.hadiths file))
    (files collection).

(** [getCollectionHadiths(collectionId, options)]; [None] is null. *)
Definition getCollectionHadiths (m : State) (collectionId : jsstring)
    (o : Options.t) : option Listing :=
  match collectionOf m collectionId with
  | None => None
  | Some collection =>
      let limit := default 50%nat (Options.limit o) in
      let offset := default 0%nat (Options.offset o) in
      let allHadiths := allHadiths collection (Options.fileType o) in
      let total := length allHadiths in
      Some {| hadiths := slice offset (offset + limit) allHadiths;
              pagination :=
                {| Response.total := total; Response.limit := limit;
                   Response.offset := offset;
                   Response.hasMore := (offset + limit <? total)%nat |} |}
  end.

(** The loop over the files of [getHadith]. *)
Fixpoint findHadith (collection : Collection) (hadithId fileType : jsstring)
    (fs : list FileVariant) : option Item.t :=
  match fs with
  | [] => None
  | file :: rest =>
      if bool_decide (Model.fileType file = fileType) then
        match List.find (fun h => bool_decide (hadith_id h = hadithId))
                        (Model.hadiths file) with
        | Some hadith => Some (Item.make collection file hadith)
        | None => findHadith collection hadithId fileType rest
        end
      else findHadith collection hadithId fileType rest
  end.

(** [getHadith(collectionId, hadithId, fileType = 'regular')]; [None] is
    null. *)
Definition getHadith (m : State) (collectionId hadithId : jsstring)
    (fileType : option jsstring) : option Item.t :=
  let fileType := default (lit "regular") fileType in
  match collectionOf m collectionId with
  | None => None
  | Some collection =>
      findHadith collection hadithId fileType (files collection)
  end.

(** An entry of the search index. *)
Record IndexEntry := {
  entry_collectionId : jsstring;
  entry_collectionName : jsstring;
  entry_fileType : jsstring;
  entry_hadith : Hadith
}.

(** The key of a record: the collection identifier, the file type and the
    record identifier, joined by hyphens. *)
Definition searchKey (collection : Collection) (file : FileVariant)
    (hadith : Hadith) : jsstring :=
  Model.collectionId collection ++ lit "-" ++ Model.fileType file ++ lit "-"
  ++ hadith_id hadith.

(** [buildSearchIndex()]: the map [this.searchIndex] that the three loops
    leave, from the cleared map. *)
Definition buildSearchIndex (d : Data) : gmap jsstring IndexEntry :=
  fold_left
    (fun index collection =>
       fold_left
         (fun index file =>
            fold_left
              (fun index hadith =>
                 <[searchKey collection file hadith :=
                     {| entry_collectionId := Model.collectionId collection;
                        entry_collectionName := Model.collectionName collection;
                        entry_fileType := Model.fileType file;
                        entry_hadith := hadith |}]> index)
              (Model.hadiths file) index)
         (files collection) index)
    (corpus d) ∅.

(** ** Vocabulary of the properties *)

(** The keys and the entries that the three loops set, one pair for each
    record, in corpus order. *)
Definition searchEntries (d : Data) : list (jsstring * IndexEntry) :=
  flat_map
    (fun collection =>
       flat_map
         (fun file =>
            List.map
              (fun hadith =>
                 (searchKey collection file hadith,
                  {| entry_collectionId := Model.collectionId collection;
                     entry_collectionName := Model.collectionName collection;
                     entry_fileType := Model.fileType file;
                     entry_hadith := hadith |}))
              (Model.hadiths file))
         (files collection))
    (corpus d).

Definition searchKeys (d : Data) : list jsstring :=
  List.map fst (searchEntries d).

(** The map that setting the pairs of a list, one after the other,
    leaves. *)
Definition setEach (l : list (jsstring * IndexEntry))
    (index : gmap jsstring IndexEntry) : gmap jsstring IndexEntry :=
  fold_left (fun index kv => <[fst kv := snd kv]> index) l index.


End ManagerQueries.

Module LoaderQueries.

(** [getCollections()]. [None]: the call throws, which it does before the
    data is loaded. *)
Definition getCollections (st : Loader.State) : option (list Collection) :=
  if Loader.isLoaded st
  then match Loader.data st with
       | Some d => Some (corpus d)
       | None => None
       end
  else None.

(** [getCollection(collectionId)]: the first collection with the
    identifier; [Some None] is undefined. *)
Definition getCollection (st : Loader.State) (id : jsstring)
  : option (option Collection) :=
  match getCollections st with
  | None => None
  | Some collections =>
      Some (List.find (fun c => bool_decide (collectionId c = id)) collections)
  end.

(** A number is truthy when it is there and not zero. *)
Definition truthyNumber (n : option nat) : bool :=
  match n with
  | Some (S _) => true
  | _ => false
  end.

(** [parseInt(n) || d]. *)
Definition orElse (n : option nat) (d : nat) : nat :=
  match n with
  | Some (S k) => S k
  | _ => d
  end.

(** [getCollectionHadiths(collectionId, options)] with the numbers
    [options.limit] and [options.offset]. *)
Definition getCollectionHadiths (st : Loader.State) (id : jsstring)
    (limit offset : option nat) : option (list Item.t) :=
  match getCollection st id with
  | None => None
  | Some None => Some []
  | Some (Some collection) =>
      let allHadiths :=
        flat_map
          (fun file => List.map (Item.make collection file) (hadiths file))
          (files collection) in
      if truthyNumber limit || truthyNumber offset then
        let offset := orElse offset 0 in
        let limit := orElse limit 50 in
        Some (slice offset (offset + limit) allHadiths)
      else Some allHadiths
  end.

End LoaderQueries.

(* ===================================================================== *)
(** * Collection routes and the basic search route                      *)
(* ===================================================================== *)

Module Routes.

(** What a handler sends: the answer, or the status 404 or 400. *)
Inductive Reply (A : Type) : Type :=
  | Sent : A -> Reply A
  | NotFound : Reply A
  | BadRequest : Reply A.
Arguments Sent {A} _.
Arguments NotFound {A}.
Arguments BadRequest {A}.

(** The handler of [GET /:collectionId/hadiths]. *)
Definition collectionHadiths (m : Manager.State) (collectionId : jsstring)
    (fileType : option jsstring) (limit offset : option nat)
  : Reply ManagerQueries.Listing :=
  let limit := default 20%nat limit in
  let offset := default 0%nat offset in
  match ManagerQueries.getCollectionHadiths m collectionId
          {| Options.collectionId := None; Options.fileType := fileType;
             Options.limit := Some (Nat.min limit 100);
             Options.offset := Some offset;
             Options.exactMatch := None |} with
  | None => NotFound
  | Some result => Sent result
  end.

(** The handler of [GET /:collectionId/hadiths/:hadithId]. *)
Definition collectionHadith (m : Manager.State)
    (collectionId hadithId : jsstring) (fileType : option jsstring)
  : Reply Item.t :=
  let fileType := default (lit "regular") fileType in
  match ManagerQueries.getHadith m collectionId hadithId (Some fileType) with
  | None => NotFound
  | Some hadith => Sent hadith
  end.

Section Search.
Context `{CaseMapping}.

(** The handler of [GET /search]. [None]: the call throws. *)
Definition search (m : Manager.State) (q : jsstring)
    (collection fileType : option jsstring) (exact : option bool)
    (limit offset : option nat) : option (Reply Response.t) :=
  let exactMatch := default false exact in
  let limit := default 20%nat limit in
  let offset := default 0%nat offset in
  if negb (truthy q) || (length (trim q) =? 0)%nat then Some BadRequest
  else if match collection with
          | Some collectionId =>
              truthy collectionId
              && negb (bool_decide
                         (is_Some (ManagerQueries.collectionOf m collectionId)))
          | None => false
          end
  then Some BadRequest
  else
    match Manager.searchHadiths m q
            {| Options.collectionId := collection;
               Options.fileType := fileType;
               Options.limit := Some (Nat.min limit 100);
               Options.offset := Some offset;
               Options.exactMatch := Some exactMatch |} with
    | None => None
    | Some result => Some (Sent result)
    end.

(** The terms that [GET /search/suggestions] offers. *)
Definition commonTerms : list jsstring :=
  [ [1585; 1587; 1608; 1604; 32; 1575; 1604; 1604; 1607];
    [1589; 1604; 1609; 32; 1575; 1604; 1604; 1607; 32; 1593; 1604; 1610;
     1607; 32; 1608; 1587; 1604; 1605];
    [1581; 1583; 1579; 1606; 1575];
    [1571; 1582; 1576; 1585; 1606; 1575];
    [1602; 1575; 1604];
    [1575; 1604; 1606; 1576; 1610];
    [1575; 1604; 1589; 1604; 1575; 1577];
    [1575; 1604; 1586; 1603; 1575; 1577];
    [1575; 1604; 1581; 1580];
    [1575; 1604; 1589; 1608; 1605] ]%N.

(** The loop of the suggestions over the common terms. *)
Definition suggest (queryLower : jsstring) (limit : nat)
    (terms : list jsstring) (suggestions : list jsstring) : list jsstring :=
  fold_left
    (fun suggestions term =>
       if includes (toLowerCase term) queryLower
          && (length suggestions <? limit)%nat
       then suggestions ++ [term]
       else suggestions)
    terms suggestions.

(** The handler of [GET /search/suggestions]: [{ suggestions, query }]. *)
Definition suggestions (query : jsstring) (limit : option nat)
  : list jsstring * jsstring :=
  let limit := default 10%nat limit in
  let suggestions := suggest (toLowerCase query) limit commonTerms [query] in
  (slice 0 limit suggestions, query).

End Search.

End Routes.

(* ===================================================================== *)
(** * Vocabulary of the loader and statistics properties                *)
(* ===================================================================== *)

Module LoadSpec.
Import Loader.

(** The sharded source can be loaded: the directory and a manifest that
    parses are there, and no listed file throws when it is read. *)
Definition splitUsable (fs : FileSystem) : bool :=
  collectionsDir fs
  && match manifestFile fs with
     | Some (Parsed manifest) =>
         negb (existsb (unreadable (collectionFiles fs))
                       (manifest_files manifest))
     | _ => false
     end.

(** The unified source can be loaded: the file is there and parses. *)
Definition unifiedUsable (fs : FileSystem) : bool :=
  match unifiedFile fs with
  | Some (Parsed _) => true
  | _ => false
  end.

End LoadSpec.

(* ===================================================================== *)
(** * Statistics routes: one collection, and the frequent terms         *)
(* ===================================================================== *)

Module CollectionStats.

(** An element of [files] in the answer. [None] as [minLength] or
    [maxLength] is the infinity that [Math.min] and [Math.max] give
    without arguments. *)
Record FileStats := {
  fileType : jsstring;
  count : Z;
  averageLength : num;
  minLength : option Z;
  maxLength : option Z;
  withDiacritics : nat;
  withoutDiacritics : Z
}.

Record LengthRanges := {
  very_short : nat;
  short : nat;
  medium : nat;
  long : nat;
  very_long : nat
}.

Record Diacritics := {
  totalWithDiacritics : nat;
  totalWithoutDiacritics : Z;
  percentageWithDiacritics : num
}.

(** The [collection] of the answer. *)
Record Info := {
  collectionId : jsstring;
  collectionName : jsstring;
  collectionNameArabic : jsstring;
  totalHadiths : Z
}.

(** [{ collection, files, analysis }]. *)
Record Answer := {
  collection : Info;
  files : list FileStats;
  totalCharacters : Z;
  lengthDistribution : LengthRanges;
  diacriticsAnalysis : Diacritics
}.




(** [Math.round(x * 100 * 100) / 100]. *)
Definition percent (x : num) : num :=
  div (round (mul (mul x (num_of_Z 100)) (num_of_Z 100))) (num_of_Z 100).


End CollectionStats.

Module FrequentTerms.

(** The class of the Arabic code units: U+0600 to U+06FF and U+0750 to
    U+077F. *)
Definition isArabic (c : N) : bool :=
  ((1536 <=? c) && (c <=? 1791) || (1872 <=? c) && (c <=? 1919))%N.

(** The word without the code units that are not Arabic. *)
Definition cleanWord (word : jsstring) : jsstring :=
  List.filter isArabic word.

(** The words of a text that the handler looks at: the pieces between
    white space that are longer than 2, the first 50 of them. *)
Definition words (text : jsstring) : list jsstring :=
  slice 0 50
    (List.filter (fun word => (2 <? length word)%nat) (splitWs text)).

(** The map [termFrequency], in the order in which its keys were first
    set, and the two counters. *)
Record Tally := {
  termFrequency : list (jsstring * nat);
  totalTerms : nat;
  analyzedHadiths : nat
}.

(** [termFrequency.set(term, (termFrequency.get(term) || 0) + 1)]. *)
Fixpoint increment (term : jsstring) (entries : list (jsstring * nat))
  : list (jsstring * nat) :=
  match entries with
  | [] => [(term, 1%nat)]
  | (t, n) :: rest =>
      if bool_decide (t = term) then (t, (n + 1)%nat) :: rest
      else (t, n) :: increment term rest
  end.

(** The body of the loop over the words. *)
Definition countWord (tally : Tally) (word : jsstring) : Tally :=
  let cleanWord := cleanWord word in
  if (2 <? length cleanWord)%nat
  then {| termFrequency := increment cleanWord (termFrequency tally);
          totalTerms := S (totalTerms tally);
          analyzedHadiths := analyzedHadiths tally |}
  else tally.

(** The body of the loop over the records of a file. *)
Definition countHadith (tally : Tally) (hadith : Hadith) : Tally :=
  fold_left countWord (words (text hadith))
    {| termFrequency := termFrequency tally;
       totalTerms := totalTerms tally;
       analyzedHadiths := S (analyzedHadiths tally) |}.

(** The body of the loop over the files: only the regular ones count. *)
Definition countFile (tally : Tally) (file : FileVariant) : Tally :=
  if bool_decide (fileType file = lit "regular")
  then fold_left countHadith (hadiths file) tally
  else tally.

Definition countCollection (tally : Tally) (collection : option Collection)
  : Tally :=
  match collection with
  | Some collection => fold_left countFile (files collection) tally
  | None => tally
  end.

(** An element of [frequentTerms]. *)
Record Term := {
  term : jsstring;
  frequency : nat;
  percentage : num
}.

(** [{ frequentTerms, analysis }]. *)
Record Answer := {
  frequent : list Term;
  analysis_totalTerms : nat;
  uniqueTerms : nat;
  analysis_analyzedHadiths : nat
}.

(** The comparator [(a, b) => b[1] - a[1]] gives a positive number. *)
Definition byFrequency (a b : jsstring * nat) : bool :=
  (snd a <? snd b)%nat.

(** The collections that the handler walks; [None]: it reads
    [this.data.collections] while [this.data] is null, and throws. *)
Definition scope (m : Manager.State) (collectionId : option jsstring)
  : option (list (option Collection)) :=
  let whole :=
    match Manager.data m with
    | Some d => Some (List.map Some (corpus d))
    | None => None
    end in
  match collectionId with
  | Some id =>
      if truthy id then Some [ManagerQueries.collectionOf m id] else whole
  | None => whole
  end.

(** The handler of [GET /stats/frequent-terms]. *)
Definition frequentTerms (m : Manager.State)
    (collectionId : option jsstring) (limit : option nat) : option Answer :=
  let limit := default 20%nat limit in
  match scope m collectionId with
  | None => None
  | Some collections =>
      let tally :=
        fold_left countCollection collections
          {| termFrequency := []; totalTerms := 0; analyzedHadiths := 0 |} in
      let sortedTerms :=
        List.map
          (fun entry =>
             {| term := fst entry;
                frequency := snd entry;
                percentage :=
                  CollectionStats.percent
                    (div (num_of_nat (snd entry))
                         (num_of_nat (totalTerms tally))) |})
          (slice 0 limit (sort byFrequency (termFrequency tally))) in
      Some {| frequent := sortedTerms;
              analysis_totalTerms := totalTerms tally;
              uniqueTerms := length (termFrequency tally);
              analysis_analyzedHadiths := analyzedHadiths tally |}
  end.

(** ** Vocabulary of the properties *)

(** The regular records in scope. *)
Definition regularRecords (collections : list (option Collection))
  : list Hadith :=
  flat_map
    (fun collection =>
       match collection with
       | Some collection =>
           flat_map
             (fun file =>
                if bool_decide (fileType file = lit "regular")
                then hadiths file else [])
             (files collection)
       | None => []
       end)
    collections.

(** What the tally keeps: the terms are pairwise different, cleaned and
    longer than 2, each was counted at least once, and the counts add up
    to [totalTerms]. *)
Definition wellFormed (entries : list (jsstring * nat)) : Prop :=
  NoDup (List.map fst entries)
  /\ Forall (fun e => forallb isArabic (fst e) = true
                      /\ (2 < length (fst e))%nat /\ (1 <= snd e)%nat)
            entries.

Definition kept (t : Tally) : Prop :=
  wellFormed (termFrequency t)
  /\ list_sum (List.map snd (termFrequency t)) = totalTerms t.

End FrequentTerms.

(** A corpus with Arabic text, and a manager that has loaded it. *)
Module SampleTerms.

Definition qala : jsstring := [1602; 1575; 1604]%N.
Definition alnabi : jsstring := [1575; 1604; 1606; 1576; 1610]%N.

Definition narration : Hadith :=
  let t := qala ++ [32%N] ++ qala ++ [32%N] ++ alnabi in
  {| hadith_id := lit "1"; text := t; textLength := Z.of_nat (length t);
     hasFullDiacritics := false |}.

Definition data : Data :=
  {| collections := [Sample.collection "a" [narration]] |}.

Definition fs : Loader.FileSystem :=
  {| Loader.collectionsDir := false; Loader.manifestFile := None;
     Loader.collectionFiles := ∅;
     Loader.unifiedFile := Some (Loader.Parsed data) |}.

Definition manager : Manager.State := SampleSearch.managerOf fs.

End SampleTerms.

Module StatsSpec.
Import StatsRoutes.

(** The five counts of the ranges, added up. *)
Definition rangesTotal (r : Ranges) : nat :=
  (range_0_99 r + range_100_299 r + range_300_599 r + range_600_999 r
   + range_1000 r)%nat.

(** The values of the percentiles, in the order of the ladder. *)
Definition percentileValues (d : Distribution) : list (option Z) :=
  List.map snd (percentiles d).

End StatsSpec.

(* ===================================================================== *)
(** * Facts about the JavaScript primitives                             *)
(* ===================================================================== *)

Module JSFacts.

(** ** Strings *)

Lemma startsWith_true (s p : jsstring) :
  startsWith s p = true <-> exists b, s = p ++ b.
Proof.
  revert s. induction p as [|a p IH]; intros s; simpl.
  - split; [eauto | reflexivity].
  - destruct s as [|b s].
    + split; [discriminate | intros [x Hx]; discriminate].
    + rewrite andb_true_iff, N.eqb_eq, IH. split.
      * intros [-> [x ->]]. eauto.
      * intros [x Hx]. injection Hx as -> ->. eauto.
Qed.

Lemma includes_true (s p : jsstring) :
  includes s p = true <-> occursIn p s.
Proof.
  unfold occursIn. induction s as [|c s IH]; simpl.
  - rewrite orb_false_r, startsWith_true. split.
    + intros [b Hb]. exists [], b. exact Hb.
    + intros [a [b Hab]]. destruct a; [eauto | discriminate].
  - rewrite orb_true_iff, startsWith_true, IH. split.
    + intros [[b Hb] | [a [b Hab]]].
      * exists [], b. exact Hb.
      * exists (c :: a), b. simpl. congruence.
    + intros [[|a0 a] [b Hab]].
      * left. eauto.
      * right. injection Hab as -> ->. eauto.
Qed.

Lemma occursIn_trans (p q s : jsstring) :
  occursIn p q -> occursIn q s -> occursIn p s.
Proof.
  intros [a [b ->]] [a' [b' ->]].
  exists (a' ++ a), (b ++ b'). now rewrite <- !app_assoc.
Qed.

Lemma includes_empty (s : jsstring) : includes s [] = true.
Proof. destruct s; reflexivity. Qed.

Lemma indexOf_range (s p : jsstring) :
  -1 <= indexOf s p <= Z.of_nat (length s).
Proof.
  induction s as [|c s IH]; simpl.
  - destruct (startsWith [] p); lia.
  - destruct (startsWith (c :: s) p); [lia|].
    destruct (Z.ltb_spec (indexOf s p) 0); lia.
Qed.

(** Where the pattern is not empty, its first position lies inside the
    string. *)
Lemma indexOf_includes (s p : jsstring) :
  includes s p = true -> p <> [] ->
  0 <= indexOf s p < Z.of_nat (length s).
Proof.
  intros Hinc Hp. induction s as [|c s IH].
  - simpl in Hinc. rewrite orb_false_r in Hinc.
    destruct p; [congruence | discriminate].
  - simpl in *. destruct (startsWith (c :: s) p) eqn:E; [lia|].
    simpl in Hinc. specialize (IH Hinc).
    destruct (Z.ltb_spec (indexOf s p) 0); lia.
Qed.

Lemma splitWsFrom_pieces (cur : jsstring) (inSep : bool) (s w : jsstring) :
  In w (splitWsFrom cur inSep s) -> occursIn w (rev cur ++ s).
Proof.
  revert cur inSep. induction s as [|c s IH]; intros cur inSep Hw; simpl in Hw.
  - destruct Hw as [<- | []]. exists [], []. now rewrite app_nil_r.
  - destruct (isWhiteSpace c).
    + assert (Hrest : In w (splitWsFrom [] true s) ->
                      occursIn w (rev cur ++ c :: s)).
      { intros Hin. destruct (IH _ _ Hin) as [a [b Hab]]. simpl in Hab.
        exists (rev cur ++ c :: a), b. rewrite Hab.
        now rewrite <- app_assoc. }
      destruct inSep; [auto|].
      destruct Hw as [<- | Hin]; [|auto].
      exists [], (c :: s). reflexivity.
    + destruct (IH _ _ Hw) as [a [b Hab]]. exists a, b.
      rewrite <- Hab. simpl. now rewrite <- app_assoc.
Qed.

Lemma splitWs_pieces (s w : jsstring) : In w (splitWs s) -> occursIn w s.
Proof. apply (splitWsFrom_pieces [] false). Qed.

Lemma splitWsFrom_nonempty (cur : jsstring) (inSep : bool) (s : jsstring) :
  splitWsFrom cur inSep s <> [].
Proof.
  revert cur inSep. induction s as [|c s IH]; intros cur inSep; simpl.
  - discriminate.
  - destruct (isWhiteSpace c); [destruct inSep|]; auto; discriminate.
Qed.

(** ** Arrays: [slice] and pages *)

Lemma slice_all {A} (n : nat) (a : list A) :
  (length a <= n)%nat -> slice 0 n a = a.
Proof.
  intros Hn. unfold slice. rewrite Nat.sub_0_r. simpl.
  now apply firstn_all2.
Qed.

Lemma slice_nil {A} (i j : nat) : @slice A i j [] = [].
Proof. unfold slice. now rewrite skipn_nil, firstn_nil. Qed.

Lemma slice_sublist {A} (i j : nat) (a : list A) : sublist (slice i j a) a.
Proof.
  unfold slice. etransitivity; [apply sublist_take | apply sublist_drop].
Qed.

Lemma sublist_In {A} (l k : list A) (x : A) : sublist l k -> In x l -> In x k.
Proof.
  intros Hs Hx. apply list_elem_of_In. apply list_elem_of_In in Hx.
  eapply elem_of_sublist; eauto.
Qed.

Lemma slice_In {A} (i j : nat) (a : list A) (x : A) :
  In x (slice i j a) -> In x a.
Proof. apply sublist_In, slice_sublist. Qed.

Lemma take_plus {A} (i j : nat) (a : list A) :
  take (i + j) a = take i a ++ take j (drop i a).
Proof.
  revert a. induction i as [|i IH]; intros a; simpl.
  - reflexivity.
  - destruct a as [|x a]; simpl.
    + now rewrite firstn_nil.
    + now rewrite IH.
Qed.

Lemma concat_pages {A} (L n : nat) (a : list A) :
  concat (pages L n a) = take (n * L) a.
Proof.
  unfold pages. induction n as [|n IH].
  - reflexivity.
  - rewrite seq_S, List.map_app, concat_app, IH. simpl.
    rewrite app_nil_r. unfold slice.
    replace (n * L + L - n * L)%nat with L by lia.
    replace (L + n * L)%nat with (n * L + L)%nat by lia.
    now rewrite take_plus.
Qed.

Lemma pageCount_covers (total L : nat) :
  (1 <= L)%nat -> (total <= pageCount total L * L)%nat.
Proof.
  intros HL. unfold pageCount.
  pose proof (Nat.div_mod (total + L - 1) L ltac:(lia)) as Hdm.
  pose proof (Nat.mod_upper_bound (total + L - 1) L ltac:(lia)).
  nia.
Qed.

(** ** Arrays: the stable sort *)

Section SortFacts.
Context {A : Type} (after : A -> A -> bool).

Lemma insert_Permutation (x : A) (l : list A) :
  Permutation (insert after x l) (x :: l).
Proof.
  induction l as [|y l IH]; simpl.
  - reflexivity.
  - destruct (after x y); [|reflexivity].
    rewrite IH. apply perm_swap.
Qed.

Lemma sort_Permutation (l : list A) : Permutation (sort after l) l.
Proof.
  induction l as [|x l IH]; simpl.
  - reflexivity.
  - rewrite insert_Permutation. now constructor.
Qed.

Lemma sort_length (l : list A) : length (sort after l) = length l.
Proof. apply Permutation_length, sort_Permutation. Qed.

Lemma sort_In (l : list A) (x : A) : In x (sort after l) <-> In x l.
Proof.
  split; apply Permutation_in;
    [apply sort_Permutation | symmetry; apply sort_Permutation].
Qed.

(** Stability: elements that the comparator never orders one after the
    other keep their relative order. *)
Lemma insert_filter (P : A -> bool) (x : A) (l : list A) :
  (forall a b, P a = true -> P b = true -> after a b = false) ->
  List.filter P (insert after x l) = List.filter P (x :: l).
Proof.
  intros Htie. induction l as [|y l IH]; [reflexivity|].
  simpl. destruct (after x y) eqn:Hxy; [|reflexivity].
  simpl. rewrite IH. simpl.
  destruct (P x) eqn:Px, (P y) eqn:Py; try reflexivity.
  rewrite (Htie x y Px Py) in Hxy. discriminate.
Qed.

Lemma sort_filter (P : A -> bool) (l : list A) :
  (forall a b, P a = true -> P b = true -> after a b = false) ->
  List.filter P (sort after l) = List.filter P l.
Proof.
  intros Htie. induction l as [|x l IH]; [reflexivity|].
  simpl sort. rewrite insert_filter by exact Htie.
  simpl. now rewrite IH.
Qed.

Lemma insert_Sorted (x : A) (l : list A) :
  (forall a b, after a b = true -> after b a = false) ->
  Sorted (inOrder after) l -> Sorted (inOrder after) (insert after x l).
Proof.
  intros Hasym Hl. induction l as [|y l IH]; simpl.
  - repeat constructor.
  - destruct (after x y) eqn:Hxy.
    + inversion Hl as [|? ? Hl' Hhd]; subst. constructor; [auto|].
      destruct l as [|z l]; simpl.
      * constructor. now apply Hasym.
      * destruct (after x z); constructor.
        -- now inversion Hhd.
        -- now apply Hasym.
    + constructor; [exact Hl|]. now constructor.
Qed.

Lemma sort_Sorted (l : list A) :
  (forall a b, after a b = true -> after b a = false) ->
  Sorted (inOrder after) (sort after l).
Proof.
  intros Hasym. induction l as [|x l IH]; simpl.
  - constructor.
  - now apply insert_Sorted.
Qed.

End SortFacts.

Lemma Sorted_StronglySorted_on {A} (R : A -> A -> Prop) (Q : A -> Prop)
    (l : list A) :
  (forall x y z, Q x -> Q y -> Q z -> R x y -> R y z -> R x z) ->
  Forall Q l -> Sorted R l -> StronglySorted R l.
Proof.
  intros Htrans HQ Hs. induction Hs as [|a l Hl IH Hhd]; [constructor|].
  inversion HQ as [|? ? Qa Ql]; subst.
  specialize (IH Ql). constructor; [exact IH|].
  destruct Hhd as [|b k Hab]; [constructor|].
  inversion IH as [|? ? _ Hbk]; subst.
  inversion Ql as [|? ? Qb Qk]; subst.
  constructor; [exact Hab|].
  rewrite Forall_forall in *. intros z Hz.
  apply (Htrans a b z); auto.
Qed.

(** ** Numbers *)

Lemma gt0_round_aux_negative (m e : Z) (l : location) :
  gt0 (binary_round_aux prec emax true m e l) = false.
Proof.
  unfold binary_round_aux.
  destruct (shr_fexp prec emax m e l) as [mrs' e'].
  destruct (shr_fexp prec emax _ e' loc_Exact) as [mrs'' e''].
  destruct (shr_m mrs''); [reflexivity | | reflexivity].
  now destruct (e'' <=? emax - prec).
Qed.

Lemma gt0_normalize_positive (d e : Z) :
  gt0 (binary_normalize prec emax d e false) = true -> 0 < d.
Proof.
  destruct d as [|p|p]; simpl.
  - discriminate.
  - lia.
  - unfold binary_round.
    destruct (shl_align p e _) as [mz ez].
    now rewrite gt0_round_aux_negative.
Qed.

Lemma gt0_normalize_nonpositive (d e : Z) :
  d <= 0 -> gt0 (binary_normalize prec emax d e false) = false.
Proof.
  intros Hd. destruct (gt0 _) eqn:E; [|reflexivity].
  apply gt0_normalize_positive in E. lia.
Qed.

(** The comparator of a descending sort never asks for both orders. *)
Lemma gt0_sub_asym (x y : num) :
  gt0 (sub y x) = true -> gt0 (sub x y) = false.
Proof.
  unfold sub.
  destruct x as [sx|sx| |sx mx ex], y as [sy|sy| |sy my ey];
    try (destruct sx, sy; simpl; now try discriminate);
    try (destruct sx; simpl; now try discriminate);
    try (destruct sy; simpl; now try discriminate);
    try discriminate.
  unfold SFsub. rewrite (Z.min_comm ex ey). intros Hgt.
  apply gt0_normalize_positive in Hgt.
  apply gt0_normalize_nonpositive. lia.
Qed.

(** Equal scores are a tie. *)
Lemma gt0_sub_diag (x : num) : gt0 (sub x x) = false.
Proof.
  destruct (gt0 (sub x x)) eqn:E; [|reflexivity].
  pose proof (gt0_sub_asym x x E). congruence.
Qed.

End JSFacts.

(* ===================================================================== *)
(** * Facts about binary64 arithmetic                                   *)
(* ===================================================================== *)

Module FloatFacts.
Import JSFacts.

Lemma digits_bounds (p : positive) :
  2 ^ (Z.pos (digits2_pos p) - 1) <= Z.pos p < 2 ^ Z.pos (digits2_pos p).
Proof.
  induction p as [p IH|p IH|]; simpl digits2_pos.
  - rewrite Pos2Z.inj_succ.
    replace (Z.succ (Z.pos (digits2_pos p)) - 1) with (Z.succ (Z.pos (digits2_pos p) - 1)) by lia.
    rewrite !Z.pow_succ_r by lia. lia.
  - rewrite Pos2Z.inj_succ.
    replace (Z.succ (Z.pos (digits2_pos p)) - 1) with (Z.succ (Z.pos (digits2_pos p) - 1)) by lia.
    rewrite !Z.pow_succ_r by lia. lia.
  - simpl. lia.
Qed.

Lemma digits_unique (p : positive) (d : Z) :
  2 ^ (d - 1) <= Z.pos p < 2 ^ d -> Z.pos (digits2_pos p) = d.
Proof.
  intros [Hlo Hhi]. pose proof (digits_bounds p) as [Blo Bhi].
  assert (0 < d). { destruct (Z.ltb_spec 0 d); [assumption|]. 
    assert (2 ^ d <= 2 ^ 0) by (apply Z.pow_le_mono_r; lia). simpl in *. lia. }
  destruct (Z.lt_trichotomy (Z.pos (digits2_pos p)) d) as [Hlt | [Heq | Hgt]]; [|assumption|].
  - assert (2 ^ Z.pos (digits2_pos p) <= 2 ^ (d - 1)) by (apply Z.pow_le_mono_r; lia). lia.
  - assert (2 ^ d <= 2 ^ (Z.pos (digits2_pos p) - 1)) by (apply Z.pow_le_mono_r; lia). lia.
Qed.

Lemma iter_pos_nat {A} (f : A -> A) (n : positive) (x : A) :
  SpecFloat.iter_pos f n x = Nat.iter (Pos.to_nat n) f x.
Proof.
  revert x. induction n as [n IH|n IH|]; intros x; cbn [SpecFloat.iter_pos].
  - rewrite !IH, Pos2Nat.inj_xI.
    replace (S (2 * Pos.to_nat n))%nat
      with (Pos.to_nat n + (Pos.to_nat n + 1))%nat by lia.
    rewrite !Nat.iter_add. reflexivity.
  - rewrite !IH, Pos2Nat.inj_xO.
    replace (2 * Pos.to_nat n)%nat
      with (Pos.to_nat n + Pos.to_nat n)%nat by lia.
    now rewrite Nat.iter_add.
  - reflexivity.
Qed.

Lemma shr_1_div2 (m : Z) (r s : bool) :
  0 <= m ->
  shr_1 {| shr_m := m; shr_r := r; shr_s := s |}
  = {| shr_m := m / 2; shr_r := Z.odd m; shr_s := r || s |}.
Proof.
  intros Hm. destruct m as [|p|p]; [reflexivity | | lia].
  destruct p as [p|p|]; cbn [shr_1]; f_equal; try reflexivity.
  - apply (Z.div_unique (Z.pos p~1) 2 (Z.pos p) 1); lia.
  - apply (Z.div_unique (Z.pos p~0) 2 (Z.pos p) 0); lia.
Qed.

Lemma shifted_step (M : Z) (k : nat) :
  0 <= M -> shr_1 (shifted M k) = shifted M (S k).
Proof.
  intros HM. destruct k as [|k].
  - unfold shifted. rewrite shr_1_div2 by assumption.
    change (Z.of_nat 1) with 1. change (Z.of_nat 0) with 0.
    rewrite Z.pow_1_r, Z.pow_0_r, Z.mod_1_r. simpl negb. simpl orb.
    f_equal. rewrite Zodd_mod. 
    pose proof (Z.mod_pos_bound M 2 ltac:(lia)).
    destruct (Z.eqb_spec (M mod 2) 1), (Z.leb_spec 1 (M mod 2)); try reflexivity; lia.
  - unfold shifted.
    set (a := Z.of_nat k). 
    assert (Ha : 0 <= a) by (unfold a; lia).
    replace (Z.of_nat (S k)) with (a + 1) by (unfold a; lia).
    replace (Z.of_nat (S (S k))) with (a + 1 + 1) by (unfold a; lia).
    assert (Hp : 0 < 2 ^ a) by (apply Z.pow_pos_nonneg; lia).
    rewrite (Z.pow_add_r 2 (a + 1) 1) by lia.
    rewrite (Z.pow_add_r 2 a 1) by lia. rewrite Z.pow_1_r.
    rewrite shr_1_div2 by (apply Z.div_pos; lia).
    f_equal.
    + rewrite Z.div_div by lia. reflexivity.
    + rewrite (Z.rem_mul_r M (2 ^ a * 2) 2) by lia.
      rewrite Zodd_mod.
      pose proof (Z.mod_pos_bound M (2 ^ a * 2) ltac:(lia)) as Hx.
      pose proof (Z.mod_pos_bound (M / (2 ^ a * 2)) 2 ltac:(lia)) as Hy.
      set (x := M mod (2 ^ a * 2)) in *.
      set (y := (M / (2 ^ a * 2)) mod 2) in *.
      assert (Hy' : y = 0 \/ y = 1) by lia.
      destruct Hy' as [-> | ->].
      * rewrite Z.mul_0_r, Z.add_0_r. simpl.
        symmetry. apply Z.leb_gt. lia.
      * rewrite Z.mul_1_r. simpl. symmetry. apply Z.leb_le. lia.
    + rewrite (Z.rem_mul_r M (2 ^ a) 2) by lia.
      pose proof (Z.mod_pos_bound M (2 ^ a) ltac:(lia)) as Hx.
      pose proof (Z.mod_pos_bound (M / (2 ^ a)) 2 ltac:(lia)) as Hy.
      set (x := M mod 2 ^ a) in *.
      set (y := (M / 2 ^ a) mod 2) in *.
      assert (Hy' : y = 0 \/ y = 1) by lia.
      destruct Hy' as [-> | ->].
      * rewrite Z.mul_0_r, Z.add_0_r.
        replace (2 ^ a <=? x) with false by (symmetry; apply Z.leb_gt; lia).
        reflexivity.
      * rewrite Z.mul_1_r.
        replace (2 ^ a <=? x + 2 ^ a) with true by (symmetry; apply Z.leb_le; lia).
        replace (x + 2 ^ a =? 0) with false by (symmetry; apply Z.eqb_neq; lia).
        reflexivity.
Qed.

Lemma iter_shr_1 (M : Z) (k : nat) :
  0 <= M ->
  Nat.iter k shr_1 {| shr_m := M; shr_r := false; shr_s := false |} = shifted M k.
Proof.
  intros HM. induction k as [|k IH].
  - reflexivity.
  - simpl Nat.iter. rewrite IH. now apply shifted_step.
Qed.

Lemma iter_xO (p : positive) (k : positive) :
  Z.pos (Pos.iter xO p k) = Z.pos p * 2 ^ Z.pos k.
Proof.
  induction k as [|k IH] using Pos.peano_ind.
  - simpl. lia.
  - rewrite Pos.iter_succ, Pos2Z.inj_xO, IH, Pos2Z.inj_succ, Z.pow_succ_r by lia.
    lia.
Qed.

Lemma pow2_pos (a : Z) : 0 <= a -> 0 < 2 ^ a.
Proof. intros. apply Z.pow_pos_nonneg; lia. Qed.

(** An integer below 2^53 converts exactly: the mantissa is the integer
    shifted to 53 digits. *)
Lemma num_of_pos_exact (tp : positive) :
  Z.pos tp < 2 ^ 52 ->
  exists (mn : positive) (j : Z),
    binary_normalize prec emax (Z.pos tp) 0 false = S754_finite false mn (- j)
    /\ Z.pos mn = Z.pos tp * 2 ^ j
    /\ 1 <= j <= 52
    /\ 2 ^ 52 <= Z.pos mn < 2 ^ 53.
Proof.
  intros Hlt. pose proof (digits_bounds tp) as [Blo Bhi].
  set (d := Z.pos (digits2_pos tp)) in *.
  assert (Hd : 1 <= d <= 52).
  { split; [unfold d; lia|].
    destruct (Z.ltb_spec 52 d); [|lia].
    assert (2 ^ 52 <= 2 ^ (d - 1)) by (apply Z.pow_le_mono_r; lia). lia. }
  set (j := 53 - d).
  assert (Hj : 53 - d = Z.pos (Z.to_pos j)) by (unfold j; rewrite Z2Pos.id; lia).
  exists (Pos.iter xO tp (Z.to_pos j)), j.
  assert (Hval : Z.pos (Pos.iter xO tp (Z.to_pos j)) = Z.pos tp * 2 ^ j).
  { rewrite iter_xO, Z2Pos.id by (unfold j; lia). reflexivity. }
  assert (Hrange : 2 ^ 52 <= Z.pos tp * 2 ^ j < 2 ^ 53).
  { replace 52 with (d - 1 + j) by (unfold j; lia).
    replace 53 with (d + j) by (unfold j; lia).
    rewrite !Z.pow_add_r by (unfold j; lia).
    pose proof (pow2_pos j ltac:(unfold j; lia)). nia. }
  assert (Hdig : Z.pos (digits2_pos (Pos.iter xO tp (Z.to_pos j))) = 53).
  { apply digits_unique. rewrite Hval. exact Hrange. }
  split; [|split; [exact Hval | split; [unfold j; lia | rewrite Hval; exact Hrange]]].
  unfold binary_normalize, binary_round.
  fold d. unfold fexp, SpecFloat.emin, prec, emax.
  replace (Z.max (d + 0 - 53) (3 - 1024 - 53)) with (d - 53) by lia.
  unfold shl_align.
  replace (d - 53 - 0) with (Z.neg (Z.to_pos j)) by (unfold j; rewrite <- Pos2Z.opp_pos, Z2Pos.id; lia).
  unfold binary_round_aux, shr_fexp. cbn [Zdigits2].
  rewrite Hdig. unfold fexp, SpecFloat.emin.
  replace (Z.max (53 + (d - 53) - 53) (3 - 1024 - 53) - (d - 53)) with 0 by lia.
  cbn [shr shr_record_of_loc loc_of_shr_record round_nearest_even shr_m shr_r shr_s Zdigits2].
  rewrite Hdig.
  replace (Z.max (53 + (d - 53) - 53) (3 - 1024 - 53) - (d - 53)) with 0 by lia.
  cbn [shr shr_record_of_loc shr_m].
  replace (d - 53 <=? 1024 - 53) with true by (symmetry; apply Z.leb_le; lia).
  f_equal. unfold j. lia.
Qed.

Lemma rounded_bounds (M : Z) (n : nat) :
  M / 2 ^ Z.of_nat n <= rounded M n <= M / 2 ^ Z.of_nat n + 1.
Proof.
  unfold rounded. destruct n as [|n]; cbn [shifted shr_m shr_r shr_s].
  - simpl. rewrite Z.div_1_r. lia.
  - unfold loc_of_shr_record, round_nearest_even.
    destruct (_ <=? _), (negb _); try lia.
    destruct (Z.even _); lia.
Qed.

(** Rounding a positive mantissa of more than 53 digits, in the range of
    the normal numbers: the floor of the result is the floor of the rounded
    mantissa at its exponent. *)
Lemma floor_round_aux (M : positive) (E t : Z) (n : positive) :
  Z.pos (digits2_pos M) = 53 + Z.pos n ->
  E + Z.pos n = - t ->
  2 <= t <= 1000 ->
  floorZ (binary_round_aux prec emax false (Z.pos M) E loc_Exact)
  = rounded (Z.pos M) (Pos.to_nat n) / 2 ^ t.
Proof.
  intros HD Ht Hrange.
  pose proof (digits_bounds M) as [Blo Bhi]. rewrite HD in Blo, Bhi.
  pose proof (rounded_bounds (Z.pos M) (Pos.to_nat n)) as Hm2.
  rewrite positive_nat_Z in Hm2.
  assert (Hp : 0 < 2 ^ Z.pos n) by (apply pow2_pos; lia).
  assert (Hm1 : 2 ^ 52 <= Z.pos M / 2 ^ Z.pos n < 2 ^ 53).
  { replace (53 + Z.pos n - 1) with (52 + Z.pos n) in Blo by lia.
    rewrite Z.pow_add_r in Blo, Bhi by lia. split.
    - apply Z.div_le_lower_bound; lia.
    - apply Z.div_lt_upper_bound; lia. }
  unfold binary_round_aux, shr_fexp. cbn [Zdigits2]. rewrite HD.
  unfold fexp at 1, SpecFloat.emin, prec, emax.
  replace (Z.max (53 + Z.pos n + E - 53) (3 - 1024 - 53) - E) with (Z.pos n) by lia.
  cbn [shr shr_record_of_loc]. rewrite iter_pos_nat, iter_shr_1 by lia.
  fold (rounded (Z.pos M) (Pos.to_nat n)).
  set (m2 := rounded (Z.pos M) (Pos.to_nat n)) in *.
  destruct m2 as [|q|q] eqn:Hq; [lia | | lia].
  destruct (Z.ltb_spec (Z.pos q) (2 ^ 53)) as [Hlt | Hge].
  - assert (Hdq : Z.pos (digits2_pos q) = 53) by (apply digits_unique; lia).
    cbn [Zdigits2]. rewrite Hdq. unfold fexp, SpecFloat.emin.
    replace (Z.max (53 + (E + Z.pos n) - 53) (3 - 1024 - 53) - (E + Z.pos n))
      with 0 by lia.
    cbn [shr shr_record_of_loc shr_m].
    replace (E + Z.pos n <=? 1024 - 53) with true
      by (symmetry; apply Z.leb_le; lia).
    cbn [floorZ]. replace (0 <=? E + Z.pos n) with false
      by (symmetry; apply Z.leb_gt; lia).
    f_equal. f_equal. lia.
  - assert (Hq53 : Z.pos q = 2 ^ 53) by lia.
    assert (Hdq : Z.pos (digits2_pos q) = 54).
    { apply digits_unique. rewrite Hq53. simpl. lia. }
    cbn [Zdigits2]. rewrite Hdq. unfold fexp, SpecFloat.emin.
    replace (Z.max (54 + (E + Z.pos n) - 53) (3 - 1024 - 53) - (E + Z.pos n))
      with 1 by lia.
    cbn [shr shr_record_of_loc SpecFloat.iter_pos].
    rewrite shr_1_div2 by lia. cbn [shr_m]. rewrite Hq53.
    change (2 ^ 53 / 2) with (2 ^ 52). change (2 ^ 52) with (Z.pos (2 ^ 52)%positive).
    replace (E + Z.pos n + 1 <=? 1024 - 53) with true
      by (symmetry; apply Z.leb_le; lia).
    cbn [floorZ]. replace (0 <=? E + Z.pos n + 1) with false
      by (symmetry; apply Z.leb_gt; lia).
    replace (- (E + Z.pos n + 1)) with (t - 1) by lia.
    change (Z.pos (2 ^ 52)%positive) with (2 ^ 53 / 2 ^ 1).
    rewrite Z.div_div by (try apply pow2_pos; lia).
    rewrite <- Z.pow_add_r by lia. f_equal. f_equal. lia.
Qed.

Lemma rounded_up (M : Z) (n : positive) :
  2 ^ (Z.pos n - 1) <= M mod 2 ^ Z.pos n ->
  M mod 2 ^ (Z.pos n - 1) <> 0 ->
  rounded M (Pos.to_nat n) = M / 2 ^ Z.pos n + 1.
Proof.
  intros Hr Hs. unfold rounded.
  destruct (Pos.to_nat n) as [|k] eqn:Hk; [lia|].
  assert (Hn : Z.of_nat (S k) = Z.pos n) by (rewrite <- Hk; apply positive_nat_Z).
  assert (Hk' : Z.of_nat k = Z.pos n - 1) by lia.
  cbn [shifted shr_m shr_r shr_s]. rewrite Hn, Hk'.
  replace (2 ^ (Z.pos n - 1) <=? M mod 2 ^ Z.pos n) with true
    by (symmetry; apply Z.leb_le; lia).
  replace (M mod 2 ^ (Z.pos n - 1) =? 0) with false
    by (symmetry; apply Z.eqb_neq; lia).
  reflexivity.
Qed.

(** The arithmetic of the index: [mc / 2^a] is the double nearest to
    [p / 100], with [100 * mc = p * 2^a + r]; [M = mc * total * 2^j] is the
    product of the mantissas, of [53 + n] digits. *)
Lemma index_core (p mc a r total j : Z) (n : positive) :
  1 <= p <= 99 ->
  2 ^ 52 <= mc < 2 ^ 53 ->
  53 <= a <= 56 ->
  100 * mc = p * 2 ^ a + r ->
  -40 <= r <= 40 ->
  2 * (- r) * 2 ^ 53 <= 100 * mc ->
  1 <= total < 2 ^ 32 ->
  1 <= j <= 52 ->
  2 ^ (52 + Z.pos n) <= mc * total * 2 ^ j < 2 ^ (53 + Z.pos n) ->
  2 <= a + j - Z.pos n <= 1000
  /\ rounded (mc * total * 2 ^ j) (Pos.to_nat n) / 2 ^ (a + j - Z.pos n)
     = p * total / 100.
Proof.
  intros Hp Hmc Ha Hc Hr Hdef Htotal Hj [Hlo Hhi].
  set (X := mc * total) in *.
  set (nn := Z.pos n - j).
  assert (HJ : 0 < 2 ^ j) by (apply pow2_pos; lia).
  assert (HX : 2 ^ 52 <= X < 2 ^ 85).
  { unfold X. change (2 ^ 85) with (2 ^ 53 * 2 ^ 32). nia. }
  assert (Hnn : 0 <= nn <= 32).
  { unfold nn. split.
    - assert (2 ^ (52 + j) < 2 ^ (53 + Z.pos n)) as H.
      { rewrite Z.pow_add_r by lia. nia. }
      apply Z.pow_lt_mono_r_iff in H; lia.
    - assert (2 ^ (52 + Z.pos n) < 2 ^ (85 + j)) as H.
      { rewrite (Z.pow_add_r 2 85 j) by lia. nia. }
      apply Z.pow_lt_mono_r_iff in H; lia. }
  assert (HP : 0 < 2 ^ nn) by (apply pow2_pos; lia).
  assert (Hn : 2 ^ Z.pos n = 2 ^ nn * 2 ^ j).
  { rewrite <- Z.pow_add_r by lia. f_equal. unfold nn. lia. }
  assert (HXn : 2 ^ 52 * 2 ^ nn <= X < 2 ^ 53 * 2 ^ nn).
  { rewrite !Z.pow_add_r, Hn in Hlo, Hhi by lia. nia. }
  set (t := a + j - Z.pos n).
  assert (Ht : t = a - nn) by (unfold t, nn; lia).
  assert (HT : 0 < 2 ^ t) by (apply pow2_pos; lia).
  assert (HS : 2 ^ a = 2 ^ t * 2 ^ nn).
  { rewrite <- Z.pow_add_r by lia. f_equal. lia. }
  assert (HS53 : 2 ^ 53 <= 2 ^ a) by (apply Z.pow_le_mono_r; lia).
  assert (HP32 : 2 ^ nn <= 2 ^ 32) by (apply Z.pow_le_mono_r; lia).
  split; [lia|].
  set (P := 2 ^ nn) in *. set (T := 2 ^ t) in *. set (J := 2 ^ j) in *.
  set (k0 := p * total / 100).
  set (rho := (p * total) mod 100).
  assert (Hk0 : p * total = 100 * k0 + rho) by (apply Z.div_mod; lia).
  assert (Hrho : 0 <= rho < 100) by (apply Z.mod_pos_bound; lia).
  assert (Hk0pos : 0 <= k0) by (apply Z.div_pos; nia).
  assert (H100X : 100 * X = (100 * k0 + rho) * (T * P) + r * total).
  { unfold X. rewrite <- HS, <- Hk0. nia. }
  assert (Hm1 : X * J / 2 ^ Z.pos n = X / P).
  { rewrite Hn. apply Z.div_mul_cancel_r; lia. }
  pose proof (rounded_bounds (X * J) (Pos.to_nat n)) as Hm2.
  rewrite positive_nat_Z, Hm1 in Hm2.
  pose proof (Z.mul_div_le X P HP) as HfloorP.
  pose proof (Z.mod_pos_bound X P HP) as HmodP.
  pose proof (Z.div_mod X P ltac:(lia)) as HdmP.
  change (2 ^ 32) with 4294967296 in *.
  change (2 ^ 53) with 9007199254740992 in *.
  assert (Hrt : -40 * 4294967296 <= r * total <= 40 * 4294967296)
    by (clear - Hr Htotal; nia).
  assert (HrhoS : 0 <= rho * (T * P) <= 99 * (T * P))
    by (clear - Hrho HT HP; nia).
  assert (Hupper : rounded (X * J) (Pos.to_nat n) < (k0 + 1) * T).
  { assert (H1 : (X / P + 1) * P < (k0 + 1) * T * P)
      by (clear - HfloorP H100X HrhoS Hrt HS HS53 HP32; lia).
    assert (H2 : X / P + 1 < (k0 + 1) * T)
      by (clear - H1 HP; nia).
    lia. }
  assert (Hlower : k0 * T <= rounded (X * J) (Pos.to_nat n)).
  { destruct (Z.le_gt_cases 0 (rho * (T * P) + r * total)) as [HA | HB].
    - assert (k0 * T <= X / P); [|lia].
      apply Z.div_le_lower_bound; [lia|].
      clear - H100X HA. lia.
    - assert (Hrho0 : rho = 0).
      { destruct (Z.eq_dec rho 0) as [|Hne]; [assumption|]. exfalso.
        assert (1 * (T * P) <= rho * (T * P)) by (clear - Hrho Hne HT HP; nia).
        clear - H HB Hrt HS HS53. lia. }
      assert (Hrneg : r < 0).
      { rewrite Hrho0 in HB. clear - HB Htotal. nia. }
      rewrite Hrho0 in H100X.
      set (def := k0 * (T * P) - X).
      assert (H100def : 100 * def = - r * total)
        by (unfold def; clear - H100X; lia).
      assert (Hdef1 : 1 <= def) by (clear - H100def Hrneg Htotal; nia).
      assert (Hdef2 : 2 * def < P).
      { assert (H1 : 2 * - r * 9007199254740992 * total <= 100 * mc * total)
          by (clear - Hdef Htotal; nia).
        assert (H2 : 100 * (mc * total) < 100 * (9007199254740992 * P))
          by (fold X; clear - HXn; lia).
        clear - H1 H2 H100def. nia. }
      assert (Hnn2 : 2 <= nn).
      { destruct (Z.eq_dec nn 0) as [E0|].
        { assert (P = 1) by (unfold P; rewrite E0; reflexivity). lia. }
        destruct (Z.eq_dec nn 1) as [E1|].
        { assert (P = 2) by (unfold P; rewrite E1; reflexivity). lia. }
        lia. }
      set (P' := 2 ^ (nn - 1)).
      assert (HP' : P = 2 * P').
      { unfold P, P'. replace nn with (nn - 1 + 1) at 1 by lia.
        rewrite Z.pow_add_r by lia. lia. }
      assert (HP'pos : 0 < P') by (unfold P'; apply pow2_pos; lia).
      assert (HXdef : X = P * (k0 * T - 1) + (P - def))
        by (unfold def; clear; lia).
      assert (HXdef' : X = P' * (2 * (k0 * T - 1) + 1) + (P' - def))
        by (rewrite HXdef at 1; rewrite HP'; clear; lia).
      assert (HdivP : X / P = k0 * T - 1).
      { symmetry. apply (Z.div_unique X P (k0 * T - 1) (P - def)); [lia|].
        exact HXdef. }
      assert (HmodP' : X mod P = P - def).
      { symmetry. apply (Z.mod_unique X P (k0 * T - 1) (P - def)); [lia|].
        exact HXdef. }
      assert (HmodP'' : X mod P' = P' - def).
      { symmetry.
        apply (Z.mod_unique X P' (2 * (k0 * T - 1) + 1) (P' - def)); [lia|].
        exact HXdef'. }
      assert (HJ' : 2 ^ (Z.pos n - 1) = P' * J).
      { unfold P', J. rewrite <- Z.pow_add_r by lia. f_equal. unfold nn. lia. }
      rewrite rounded_up.
      + rewrite Hm1, HdivP. lia.
      + rewrite Hn, HJ'. fold P J.
        rewrite Z.mul_mod_distr_r by lia. rewrite HmodP'.
        apply Z.mul_le_mono_nonneg_r; lia.
      + rewrite HJ'. rewrite Z.mul_mod_distr_r by lia. rewrite HmodP''.
        clear - Hdef1 Hdef2 HP' HJ. nia. }
  symmetry.
  apply (Z.div_unique _ T k0 (rounded (X * J) (Pos.to_nat n) - k0 * T)); lia.
Qed.

(** The floor of the product of the double [mc * 2^-a], nearest to
    [p / 100], with an integer below 2^32 is the floor of the exact
    product. *)
Lemma floor_mul_exact (p : Z) (mc : positive) (a r : Z) (tp : positive) :
  1 <= p <= 99 ->
  2 ^ 52 <= Z.pos mc < 2 ^ 53 ->
  53 <= a <= 56 ->
  100 * Z.pos mc = p * 2 ^ a + r ->
  -40 <= r <= 40 ->
  2 * (- r) * 2 ^ 53 <= 100 * Z.pos mc ->
  Z.pos tp < 2 ^ 32 ->
  floorZ (mul (S754_finite false mc (- a)) (num_of_Z (Z.pos tp)))
  = p * Z.pos tp / 100.
Proof.
  intros Hp Hmc Ha Hc Hr Hdef Htp.
  destruct (num_of_pos_exact tp) as [mn [j [Hnum [Hval [Hj Hmn]]]]].
  { change (2 ^ 32) with 4294967296 in Htp.
    change (2 ^ 52) with 4503599627370496. lia. }
  unfold num_of_Z. rewrite Hnum. unfold mul, SFmul. cbn [xorb].
  assert (HM : Z.pos (mc * mn) = Z.pos mc * Z.pos tp * 2 ^ j)
    by (rewrite Pos2Z.inj_mul, Hval; ring).
  pose proof (digits_bounds (mc * mn)) as [Dlo Dhi].
  set (D := Z.pos (digits2_pos (mc * mn))) in *.
  assert (HD : 105 <= D).
  { destruct (Z.ltb_spec D 105) as [Hlt|]; [|assumption]. exfalso.
    assert (2 ^ D <= 2 ^ 104) by (apply Z.pow_le_mono_r; lia).
    change (2 ^ 104) with (2 ^ 52 * 2 ^ 52) in *.
    rewrite Pos2Z.inj_mul in Dhi. nia. }
  set (n := Z.to_pos (D - 53)).
  assert (Hn : Z.pos n = D - 53) by (unfold n; rewrite Z2Pos.id; lia).
  destruct (index_core p (Z.pos mc) a r (Z.pos tp) j n) as [Ht Hidx];
    try assumption; try lia.
  { rewrite <- HM.
    replace (52 + Z.pos n) with (D - 1) by lia.
    replace (53 + Z.pos n) with D by lia. split; assumption. }
  rewrite (floor_round_aux (mc * mn) (- a + - j) (a + j - Z.pos n) n);
    [| fold D; lia | lia | exact Ht].
  rewrite HM. exact Hidx.
Qed.

Lemma shr_1_nonneg (mrs : shr_record) :
  0 <= shr_m mrs -> 0 <= shr_m (shr_1 mrs).
Proof.
  destruct mrs as [m r s]. cbn [shr_m]. intros Hm.
  rewrite shr_1_div2 by assumption. cbn [shr_m]. apply Z.div_pos; lia.
Qed.

Lemma iter_shr_1_nonneg (n : positive) (mrs : shr_record) :
  0 <= shr_m mrs -> 0 <= shr_m (SpecFloat.iter_pos shr_1 n mrs).
Proof.
  rewrite iter_pos_nat. induction (Pos.to_nat n) as [|k IH]; intros Hm.
  - exact Hm.
  - simpl. apply shr_1_nonneg. auto.
Qed.

(** One shift to the precision: the mantissa stays non-negative and the
    exponent ends up not below the least one. *)
Lemma shr_fexp_regular (m e : Z) (l : location) :
  0 <= m ->
  0 <= shr_m (fst (shr_fexp prec emax m e l))
  /\ emin <= snd (shr_fexp prec emax m e l).
Proof.
  intros Hm. unfold shr_fexp, shr.
  set (f := fexp prec emax (Zdigits2 m + e)).
  assert (Hf : emin <= f) by (unfold f, fexp, SpecFloat.emin, emin; lia).
  destruct (f - e) as [|p|p] eqn:E; cbn [fst snd].
  - split; [destruct l as [|[]]; exact Hm | lia].
  - split; [|lia]. apply iter_shr_1_nonneg. destruct l as [|[]]; exact Hm.
  - split; [destruct l as [|[]]; exact Hm | lia].
Qed.

Lemma round_nearest_even_nonneg (m : Z) (l : location) :
  0 <= m -> 0 <= round_nearest_even m l.
Proof.
  intros Hm. destruct l as [|[]]; simpl; try lia.
  destruct (Z.even m); lia.
Qed.

(** Rounding a non-negative mantissa gives a regular number. *)
Lemma round_aux_regular (s : bool) (m e : Z) (l : location) :
  0 <= m -> regular (binary_round_aux prec emax s m e l) = true.
Proof.
  intros Hm. unfold binary_round_aux.
  pose proof (shr_fexp_regular m e l Hm) as [H1 _].
  destruct (shr_fexp prec emax m e l) as [mrs' e']. cbn [fst] in H1.
  pose proof (shr_fexp_regular _ e' loc_Exact
                (round_nearest_even_nonneg _ (loc_of_shr_record mrs') H1))
    as [H2 H3].
  destruct (shr_fexp prec emax _ e' loc_Exact) as [mrs'' e''].
  cbn [fst snd] in H2, H3.
  destruct (shr_m mrs'') as [|q|q]; [reflexivity | | lia].
  destruct (e'' <=? emax - prec); [|reflexivity].
  simpl. apply Z.leb_le. exact H3.
Qed.

Lemma normalize_regular (d e : Z) :
  regular (binary_normalize prec emax d e false) = true.
Proof.
  destruct d as [|p|p]; [reflexivity | |]; unfold binary_normalize, binary_round;
    destruct (shl_align _ _ _) as [mz ez]; apply round_aux_regular; lia.
Qed.

Lemma gt0_finite (m : positive) (e : Z) : gt0 (S754_finite false m e) = true.
Proof. reflexivity. Qed.

(** Rounding a positive mantissa whose exponent is not below the least one
    gives a positive number: it does not wear down to zero. *)
Lemma round_aux_positive (M : positive) (e : Z) :
  emin <= e ->
  gt0 (binary_round_aux prec emax false (Z.pos M) e loc_Exact) = true.
Proof.
  intros He. unfold emin, emax, prec in He.
  pose proof (digits_bounds M) as [Blo Bhi].
  set (D := Z.pos (digits2_pos M)) in *.
  assert (HD : 1 <= D) by (unfold D; lia).
  unfold binary_round_aux, shr_fexp at 1. cbn [Zdigits2]. fold D.
  unfold fexp at 1, SpecFloat.emin, prec, emax.
  destruct (Z.max (D + e - 53) (3 - 1024 - 53) - e) as [|pn|pn] eqn:En.
  - cbn [shr shr_record_of_loc loc_of_shr_record round_nearest_even shr_m shr_r shr_s].
    unfold shr_fexp. cbn [Zdigits2]. fold D.
    unfold fexp, SpecFloat.emin, prec, emax. rewrite En.
    cbn [shr shr_record_of_loc shr_m].
    now destruct (e <=? 1024 - 53).
  - assert (Hpn : Z.pos pn = D - 53) by lia.
    cbn [shr shr_record_of_loc]. rewrite iter_pos_nat, iter_shr_1 by lia.
    fold (rounded (Z.pos M) (Pos.to_nat pn)).
    pose proof (rounded_bounds (Z.pos M) (Pos.to_nat pn)) as Hm2.
    rewrite positive_nat_Z in Hm2.
    assert (Hp : 0 < 2 ^ Z.pos pn) by (apply pow2_pos; lia).
    assert (Hm1 : 2 ^ 52 <= Z.pos M / 2 ^ Z.pos pn < 2 ^ 53).
    { replace (D - 1) with (52 + Z.pos pn) in Blo by lia.
      replace D with (53 + Z.pos pn) in Bhi by lia.
      rewrite Z.pow_add_r in Blo, Bhi by lia. split.
      - apply Z.div_le_lower_bound; lia.
      - apply Z.div_lt_upper_bound; lia. }
    set (m2 := rounded (Z.pos M) (Pos.to_nat pn)) in *.
    destruct m2 as [|q|q] eqn:Hq; [lia | | lia].
    unfold shr_fexp. cbn [Zdigits2]. unfold fexp, SpecFloat.emin, prec, emax.
    destruct (Z.ltb_spec (Z.pos q) (2 ^ 53)) as [Hlt | Hge].
    + assert (Hdq : Z.pos (digits2_pos q) = 53) by (apply digits_unique; lia).
      rewrite Hdq.
      replace (Z.max (53 + (e + Z.pos pn) - 53) (3 - 1024 - 53) - (e + Z.pos pn))
        with 0 by lia.
      cbn [shr shr_record_of_loc shr_m].
      now destruct (e + Z.pos pn <=? 1024 - 53).
    + assert (Hq53 : Z.pos q = 2 ^ 53) by lia.
      assert (Hdq : Z.pos (digits2_pos q) = 54).
      { apply digits_unique. rewrite Hq53. simpl. lia. }
      rewrite Hdq.
      replace (Z.max (54 + (e + Z.pos pn) - 53) (3 - 1024 - 53) - (e + Z.pos pn))
        with 1 by lia.
      cbn [shr shr_record_of_loc SpecFloat.iter_pos].
      rewrite shr_1_div2 by lia. cbn [shr_m]. rewrite Hq53.
      change (2 ^ 53 / 2) with (Z.pos (2 ^ 52)%positive).
      now destruct (e + Z.pos pn + 1 <=? 1024 - 53).
  - cbn [shr shr_record_of_loc loc_of_shr_record round_nearest_even shr_m shr_r shr_s].
    unfold shr_fexp. cbn [Zdigits2]. fold D.
    unfold fexp, SpecFloat.emin, prec, emax. rewrite En.
    cbn [shr shr_record_of_loc shr_m].
    now destruct (e <=? 1024 - 53).
Qed.

Lemma shl_align_value (m : positive) (e ez : Z) :
  ez <= e ->
  Z.pos (fst (shl_align m e ez)) = Z.pos m * 2 ^ (e - ez)
  /\ snd (shl_align m e ez) = ez.
Proof.
  intros Hle. unfold shl_align. destruct (ez - e) as [|d|d] eqn:Ed.
  - cbn [fst snd]. replace (e - ez) with 0 by lia. simpl. lia.
  - lia.
  - cbn [fst snd]. rewrite iter_xO. replace (e - ez) with (Z.pos d) by lia.
    split; reflexivity.
Qed.

Lemma normalize_positive (p : positive) (e : Z) :
  emin <= e -> gt0 (binary_normalize prec emax (Z.pos p) e false) = true.
Proof.
  intros He. unfold binary_normalize, binary_round.
  set (f := fexp prec emax (Z.pos (digits2_pos p) + e)).
  assert (Hf : emin <= f) by (unfold f, fexp, SpecFloat.emin, emin; lia).
  unfold shl_align. destruct (f - e) as [|d|d] eqn:Ed;
    apply round_aux_positive; lia.
Qed.

(** The comparator of the descending sort tells the order of the exact
    values. *)
Lemma gt0_sub_below (x y : num) :
  regular x = true -> regular y = true -> gt0 (sub y x) = below x y.
Proof.
  unfold sub, below.
  destruct x as [sx|sx| |sx mx ex], y as [sy|sy| |sy my ey];
    intros Hx Hy; try discriminate Hx; try discriminate Hy;
    try (destruct sx, sy; reflexivity).
  - (* x zero, y finite *)
    simpl in Hy. apply Z.leb_le in Hy.
    pose proof (pow2_pos (ey - emin) ltac:(lia)).
    destruct sx, sy; simpl SFsub; unfold gt0; simpl SFltb; simpl cls;
      unfold scaled; symmetry; simpl orb; simpl andb;
      first [apply Z.ltb_lt; nia | apply Z.ltb_ge; nia].
  - (* x finite, y zero *)
    simpl in Hx. apply Z.leb_le in Hx.
    pose proof (pow2_pos (ex - emin) ltac:(lia)).
    destruct sx, sy; simpl SFsub; unfold gt0; simpl SFltb; simpl cls;
      unfold scaled; symmetry; simpl orb; simpl andb;
      first [apply Z.ltb_lt; nia | apply Z.ltb_ge; nia].
  - (* both finite *)
    simpl in Hx, Hy. apply Z.leb_le in Hx, Hy.
    cbn [cls]. change (0 <? 0) with false. change (0 =? 0) with true.
    cbn [orb andb]. unfold SFsub.
    set (ez := Z.min ey ex).
    destruct (shl_align_value my ey ez ltac:(unfold ez; lia)) as [HY _].
    destruct (shl_align_value mx ex ez ltac:(unfold ez; lia)) as [HX _].
    set (Y := fst (shl_align my ey ez)) in *.
    set (X := fst (shl_align mx ex ez)) in *.
    assert (Hez : emin <= ez) by (unfold ez; lia).
    pose proof (pow2_pos (ez - emin) ltac:(lia)) as Hu.
    assert (HsY : scaled (S754_finite sy my ey)
                  = cond_Zopp sy (Z.pos Y) * 2 ^ (ez - emin)).
    { unfold scaled. rewrite HY.
      replace (ey - emin) with (ey - ez + (ez - emin)) by lia.
      rewrite Z.pow_add_r by lia. destruct sy; simpl cond_Zopp; lia. }
    assert (HsX : scaled (S754_finite sx mx ex)
                  = cond_Zopp sx (Z.pos X) * 2 ^ (ez - emin)).
    { unfold scaled. rewrite HX.
      replace (ex - emin) with (ex - ez + (ez - emin)) by lia.
      rewrite Z.pow_add_r by lia. destruct sx; simpl cond_Zopp; lia. }
    rewrite HsY, HsX.
    set (d := cond_Zopp sy (Z.pos Y) - cond_Zopp sx (Z.pos X)).
    assert (Hd : cond_Zopp sy (Z.pos Y) = d + cond_Zopp sx (Z.pos X))
      by (unfold d; lia).
    rewrite Hd. clearbody d.
    destruct d as [|p|p].
    + simpl. symmetry. apply Z.ltb_ge. nia.
    + rewrite normalize_positive by exact Hez. symmetry. apply Z.ltb_lt. nia.
    + rewrite gt0_normalize_nonpositive by lia. symmetry. apply Z.ltb_ge. nia.
Qed.

(** [x >= y] on the exact values is transitive. *)
Lemma not_below_trans (x y z : num) :
  below x y = false -> below y z = false -> below x z = false.
Proof.
  unfold below.
  rewrite !orb_false_iff, !andb_false_iff, !Z.ltb_ge, !Z.eqb_neq. lia.
Qed.

Lemma div_regular (a : num) (m : positive) (e : Z) :
  regular a = true -> regular (div a (S754_finite false m e)) = true.
Proof.
  unfold div. destruct a as [s|s| |s ma ea]; intros Ha; try discriminate Ha;
    try reflexivity.
  unfold SFdiv, SFdiv_core_binary.
  set (m' := match _ - _ with Z.pos _ => _ | 0 => Z.pos ma | Z.neg _ => 0 end).
  assert (Hm' : 0 <= m').
  { unfold m'. destruct (_ - _) as [|p|p]; try lia.
    apply Z.shiftl_nonneg. lia. }
  pose proof (Z_div_mod m' (Z.pos m) ltac:(lia)) as Hdm.
  destruct (Z.div_eucl m' (Z.pos m)) as [q r].
  apply round_aux_regular. destruct Hdm as [Heq Hr]. nia.
Qed.

Lemma mul_regular (a : num) (m : positive) (e : Z) :
  regular a = true -> regular (mul a (S754_finite false m e)) = true.
Proof.
  unfold mul. destruct a as [s|s| |s ma ea]; intros Ha; try discriminate Ha;
    try reflexivity.
  unfold SFmul. apply round_aux_regular. lia.
Qed.

Lemma sub_regular (m : positive) (e : Z) (x : num) :
  emin <= e -> regular x = true ->
  regular (sub (S754_finite false m e) x) = true.
Proof.
  intros He. unfold sub.
  destruct x as [s|s| |s mx ex]; intros Hx; try discriminate Hx.
  - simpl. now apply Z.leb_le.
  - reflexivity.
  - unfold SFsub. apply normalize_regular.
Qed.

Lemma round_aux_nonnegative (m e : Z) (l : location) :
  0 <= m -> nonnegative (binary_round_aux prec emax false m e l) = true.
Proof.
  intros Hm. unfold nonnegative.
  rewrite round_aux_regular by exact Hm. simpl.
  unfold binary_round_aux.
  destruct (shr_fexp prec emax m e l) as [mrs' e'].
  destruct (shr_fexp prec emax _ e' loc_Exact) as [mrs'' e''].
  destruct (shr_m mrs''); try reflexivity.
  now destruct (e'' <=? emax - prec).
Qed.

Lemma add_nonnegative (x : num) (m : positive) (e : Z) :
  emin <= e -> nonnegative x = true ->
  nonnegative (add x (S754_finite false m e)) = true.
Proof.
  intros He. unfold add, nonnegative.
  destruct x as [s|s| |s mx ex]; intros Hx; try discriminate Hx.
  - simpl. rewrite andb_true_r. now apply Z.leb_le.
  - destruct s; [discriminate Hx | reflexivity].
  - destruct s; [apply andb_true_iff in Hx as [_ Hx]; discriminate Hx|].
    unfold SFadd. cbn [cond_Zopp]. 
    set (ez := Z.min ex e).
    unfold binary_normalize.
    destruct (Z.pos _ + Z.pos _) as [|p|p] eqn:Ep; [reflexivity | | lia].
    unfold binary_round. destruct (shl_align p ez _) as [mz ez'].
    apply (round_aux_nonnegative (Z.pos mz) ez' loc_Exact). lia.
Qed.

End FloatFacts.

(* ===================================================================== *)
(** * Facts about the loader                                            *)
(* ===================================================================== *)

Module LoaderFacts.
Import Loader.

Lemma fold_left_sum {A} (f : A -> Z) (l : list A) (a : Z) :
  fold_left (fun s x => s + f x) l a = a + sumZ (List.map f l).
Proof.
  revert a. induction l as [|x l IH]; intros a; simpl.
  - lia.
  - rewrite IH. lia.
Qed.

Lemma recordCount_sum (c : Collection) :
  recordCount c
  = sumZ (List.map (fun file => Z.of_nat (length (hadiths file))) (files c)).
Proof. unfold recordCount. rewrite fold_left_sum. lia. Qed.

Lemma totalRecords_sum (cs : list Collection) :
  totalRecords cs = sumZ (List.map recordCount cs).
Proof. unfold totalRecords. rewrite fold_left_sum. lia. Qed.


(** The statistics pass of [loadFromUnifiedFile] counts the records. *)
Lemma unified_count (cs : list Collection) (a : Z) :
  fold_left (fun total collection =>
    fold_left (fun total file => total + Z.of_nat (length (hadiths file)))
              (files collection) total) cs a
  = a + totalRecords cs.
Proof.
  rewrite totalRecords_sum. revert a.
  induction cs as [|c cs IH]; intros a; simpl.
  - lia.
  - rewrite IH, fold_left_sum, recordCount_sum. lia.
Qed.

(** The loop over the manifest: it gives up at the first listed file whose
    read throws, skips the missing ones, and otherwise collects the payloads
    and adds up the declared counts. *)
Lemma loadListed_spec (dir : gmap jsstring (Read Collection))
    (entries : list FileInfo) (acc : list Collection) (tot : Z) :
  loadListed dir entries acc tot
  = if existsb (unreadable dir) entries then None
    else Some (acc ++ List.map snd (present dir entries),
               tot + sumZ (List.map (fun p => hadithCount (fst p))
                                    (present dir entries))).
Proof.
  revert acc tot. induction entries as [|e es IH]; intros acc tot; simpl.
  - rewrite app_nil_r. f_equal. f_equal. lia.
  - unfold unreadable at 1.
    destruct (dir !! filename e) as [[|c]|] eqn:E; simpl.
    + reflexivity.
    + rewrite IH. destruct (existsb _ es); [reflexivity|].
      rewrite <- app_assoc. simpl. f_equal. f_equal. lia.
    + apply IH.
Qed.

Lemma loadFromSplitFiles_failed (fs : FileSystem) (st : State) :
  fst (loadFromSplitFiles fs st) = false -> loadFromSplitFiles fs st = (false, st).
Proof.
  unfold loadFromSplitFiles.
  destruct (negb (collectionsDir fs) || _); [reflexivity|].
  destruct (manifestFile fs) as [[|manifest]|]; try reflexivity.
  destruct (loadListed _ _ _ _) as [[cs t]|]; [discriminate | reflexivity].
Qed.

End LoaderFacts.

(* ===================================================================== *)
(** * Facts about the search engine                                     *)
(* ===================================================================== *)

Module SearchFacts.
Export SearchSpec.
Import JSFacts FloatFacts Manager.

Section Engine.
Context `{CaseMapping}.

Lemma flat_map_sublist {A B} (f g : A -> list B) (l : list A) :
  (forall x, sublist (f x) (g x)) -> sublist (flat_map f l) (flat_map g l).
Proof.
  intros Hfg. induction l as [|x l IH]; simpl.
  - constructor.
  - now apply sublist_app.
Qed.

Lemma fuzzySearch_of_includes (text term : jsstring) :
  includes text term = true -> fuzzySearch text term = true.
Proof.
  intros Hinc. unfold fuzzySearch. apply existsb_exists.
  destruct (splitWs term) as [|w ws] eqn:E.
  - now apply splitWsFrom_nonempty in E.
  - exists w. split; [now left|].
    apply includes_true. apply occursIn_trans with term.
    + apply splitWs_pieces. rewrite E. now left.
    + now apply includes_true.
Qed.

Lemma hitsOfFile_mode (term : jsstring) (c : Collection) (f : FileVariant) :
  sublist (hitsOfFile true term c f) (hitsOfFile false term c f).
Proof.
  unfold hitsOfFile, matches. apply flat_map_sublist. intros h.
  destruct (includes _ term) eqn:E.
  - now rewrite (fuzzySearch_of_includes _ _ E).
  - apply sublist_nil_l.
Qed.

Lemma hits_mode (cs : list Collection) (o : Options.t) (term : jsstring) :
  sublist (hits cs (withMode o true) term) (hits cs (withMode o false) term).
Proof.
  unfold hits. apply flat_map_sublist. intros c. simpl.
  destruct (skips _ (collectionId c)); [constructor|].
  apply flat_map_sublist. intros f.
  destruct (skips _ (fileType f)); [constructor|].
  apply hitsOfFile_mode.
Qed.

(** Every hit carries the score of its own text. *)
Lemma hits_score (cs : list Collection) (o : Options.t) (term : jsstring)
    (r : Result.t) :
  In r (hits cs o term) ->
  Result.relevanceScore r
  = calculateRelevance (toLowerCase (text (Result.hadith r))) term.
Proof.
  unfold hits, hitsOfFile. intros Hr.
  apply in_flat_map in Hr as [c [_ Hr]].
  destruct (skips _ (collectionId c)); [destruct Hr|].
  apply in_flat_map in Hr as [f [_ Hr]].
  destruct (skips _ (fileType f)); [destruct Hr|].
  apply in_flat_map in Hr as [h [_ Hr]].
  destruct (matches _ term h); [|destruct Hr].
  destruct Hr as [<- | []]. reflexivity.
Qed.

Lemma byRelevance_asym (a b : Result.t) :
  byRelevance a b = true -> byRelevance b a = false.
Proof. apply gt0_sub_asym. Qed.

Lemma ranked_Sorted (cs : list Collection) (o : Options.t) (term : jsstring) :
  Sorted (inOrder byRelevance) (ranked cs o term).
Proof. apply sort_Sorted, byRelevance_asym. Qed.

Lemma ranked_stable (cs : list Collection) (o : Options.t) (term : jsstring)
    (s : num) :
  List.filter (scored s) (ranked cs o term)
  = List.filter (scored s) (hits cs o term).
Proof.
  apply sort_filter. intros a b Ha Hb.
  apply bool_decide_eq_true in Ha, Hb.
  unfold byRelevance. rewrite Ha, Hb. apply gt0_sub_diag.
Qed.

Lemma ranked_In (cs : list Collection) (o : Options.t) (term : jsstring)
    (r : Result.t) :
  In r (ranked cs o term) <-> In r (hits cs o term).
Proof. apply sort_In. Qed.

(** A term that no record matches has no hit. *)
Lemma hits_none (cs : list Collection) (o : Options.t) (term : jsstring) :
  (forall c f h, In c cs -> In f (files c) -> In h (hadiths f) ->
     matches (default false (Options.exactMatch o)) term h = false) ->
  hits cs o term = [].
Proof.
  intros Hnone. destruct (hits cs o term) as [|r rs] eqn:E; [reflexivity|].
  assert (Hr : In r (hits cs o term)) by (rewrite E; now left).
  unfold hits, hitsOfFile in Hr.
  apply in_flat_map in Hr as [c [Hc Hr]].
  destruct (skips _ (collectionId c)); [destruct Hr|].
  apply in_flat_map in Hr as [f [Hf Hr]].
  destruct (skips _ (fileType f)); [destruct Hr|].
  apply in_flat_map in Hr as [h [Hh Hr]].
  rewrite (Hnone c f h Hc Hf Hh) in Hr. destruct Hr.
Qed.

(** What [searchHadiths] answers once the corpus is there. *)
Lemma searchHadiths_loaded (m : State) (d : Data) (query : jsstring)
    (o : Options.t) :
  data m = Some d ->
  searchHadiths m query o
  = Some {| Response.hadiths :=
              slice (default 0%nat (Options.offset o))
                    (default 0%nat (Options.offset o)
                     + default 50%nat (Options.limit o))
                    (ranking d query o);
            Response.pagination :=
              {| Response.total := length (ranking d query o);
                 Response.limit := default 50%nat (Options.limit o);
                 Response.offset := default 0%nat (Options.offset o);
                 Response.hasMore :=
                   (default 0%nat (Options.offset o)
                    + default 50%nat (Options.limit o)
                    <? length (ranking d query o))%nat |};
            Response.query :=
              if emptyQuery query then None else Some (query, o) |}.
Proof.
  intros Hd. unfold searchHadiths, ranking, emptyQuery.
  destruct (negb (truthy query) || _).
  - rewrite slice_nil. simpl. reflexivity.
  - rewrite Hd. reflexivity.
Qed.

Lemma ranking_page (d : Data) (query : jsstring) (o : Options.t) (l off : nat) :
  ranking d query (Options.page o l off) = ranking d query o.
Proof. reflexivity. Qed.

Lemma fold_score_nonnegative (textLower : jsstring) (words : list jsstring)
    (score : num) :
  nonnegative score = true ->
  nonnegative
    (fold_left
       (fun score word =>
          if includes textLower word then add score (num_of_Z 10) else score)
       words score) = true.
Proof.
  revert score. induction words as [|w ws IH]; intros score Hs; simpl.
  - exact Hs.
  - apply IH. destruct (includes textLower w); [|exact Hs].
    change (num_of_Z 10) with (S754_finite false 5629499534213120 (-49)).
    apply (add_nonnegative score 5629499534213120 (-49));
      [unfold emin, emax, prec; lia | exact Hs].
Qed.

Lemma calculateRelevance_regular (text term : jsstring) :
  toLowerCase term <> [] ->
  Z.of_nat (length text) < 2 ^ 52 ->
  regular (calculateRelevance text term) = true.
Proof.
  intros Hterm Hlen. unfold calculateRelevance.
  destruct (includes (toLowerCase text) (toLowerCase term)) eqn:Einc.
  - assert (Htext : text <> []).
    { intros ->. rewrite (proj2 (toLowerCase_empty []) eq_refl) in Einc.
      destruct (toLowerCase term); [congruence | discriminate Einc]. }
    unfold num_of_nat.
    destruct (Z.of_nat (length text)) as [|p|p] eqn:Ep;
      [destruct text; [congruence | discriminate Ep] | | lia].
    destruct (num_of_pos_exact p Hlen) as [mn [j [Hnum _]]].
    unfold num_of_Z at 3. rewrite Hnum.
    change (num_of_Z 100) with (S754_finite false 7036874417766400 (-46)).
    change (num_of_Z 50) with (S754_finite false 7036874417766400 (-47)).
    apply (sub_regular 7036874417766400 (-46));
      [unfold emin, emax, prec; lia|].
    apply (mul_regular _ 7036874417766400 (-47)).
    apply div_regular, normalize_regular.
  - pose proof (fold_score_nonnegative (toLowerCase text)
                  (splitWs (toLowerCase term)) (num_of_Z 0) eq_refl) as Hn.
    unfold nonnegative in Hn. now apply andb_true_iff in Hn.
Qed.

(** Every hit comes from a record of the corpus. *)
Lemma hits_origin (cs : list Collection) (o : Options.t) (term : jsstring)
    (r : Result.t) :
  In r (hits cs o term) ->
  exists c f, In c cs /\ In f (files c) /\ In (Result.hadith r) (hadiths f).
Proof.
  unfold hits, hitsOfFile. intros Hr.
  apply in_flat_map in Hr as [c [Hc Hr]].
  destruct (skips _ (collectionId c)); [destruct Hr|].
  apply in_flat_map in Hr as [f [Hf Hr]].
  destruct (skips _ (fileType f)); [destruct Hr|].
  apply in_flat_map in Hr as [h [Hh Hr]].
  destruct (matches _ term h); [|destruct Hr].
  destruct Hr as [<- | []]. exists c, f. auto.
Qed.

Lemma ranking_regular (d : Data) (query : jsstring) (o : Options.t) :
  textsBounded d = true ->
  Forall (fun r => regular (Result.relevanceScore r) = true)
         (ranking d query o).
Proof.
  intros Hb. apply List.Forall_forall. intros r Hr. unfold ranking in Hr.
  destruct (emptyQuery query) eqn:Eq; [destruct Hr|].
  apply ranked_In in Hr.
  rewrite (hits_score _ _ _ _ Hr).
  destruct (hits_origin _ _ _ _ Hr) as [c [f [Hc [Hf Hh]]]].
  apply calculateRelevance_regular.
  - intros E. apply (proj1 (toLowerCase_empty _)) in E.
    apply (proj1 (toLowerCase_empty _)) in E.
    unfold emptyQuery in Eq. apply orb_false_iff in Eq as [_ Eq].
    rewrite E in Eq. discriminate Eq.
  - unfold textsBounded in Hb. rewrite !forallb_forall in Hb.
    specialize (Hb c Hc). rewrite forallb_forall in Hb.
    specialize (Hb f Hf). rewrite forallb_forall in Hb.
    apply Z.ltb_lt. exact (Hb _ Hh).
Qed.

Lemma ranking_descending (d : Data) (query : jsstring) (o : Options.t) :
  textsBounded d = true ->
  StronglySorted scoresAtLeast (ranking d query o).
Proof.
  intros Hb. pose proof (ranking_regular d query o Hb) as Hreg.
  apply (Sorted_StronglySorted_on scoresAtLeast
           (fun r => regular (Result.relevanceScore r) = true)).
  - intros x y z _ _ _. apply not_below_trans.
  - exact Hreg.
  - assert (Hs : Sorted (inOrder byRelevance) (ranking d query o)).
    { unfold ranking. destruct (emptyQuery query);
        [constructor | apply ranked_Sorted]. }
    revert Hreg. induction Hs as [|a l Hl IH Hhd]; intros Hreg; [constructor|].
    inversion Hreg as [|? ? Ra Rl]; subst.
    constructor; [auto|].
    destruct Hhd as [|b k Hab]; constructor.
    inversion Rl as [|? ? Rb _]; subst.
    unfold scoresAtLeast. rewrite <- (gt0_sub_below _ _ Ra Rb). exact Hab.
Qed.

End Engine.
End SearchFacts.

(* ===================================================================== *)
(** * Facts about the filters and the statistics                        *)
(* ===================================================================== *)

Module FilterFacts.
Export FilterSpec.
Import SearchRoutes.

(** The callback of the filter is the conjunction of the five. *)
Lemma keeps_conjunction (b : AdvancedBody) (r : Result.t) :
  keeps b r
  = passCollections b r && passFileTypes b r && passMinLength b r
    && passMaxLength b r && passDiacritics b r.
Proof.
  unfold keeps, passCollections, passFileTypes, passMinLength, passMaxLength,
    passDiacritics.
  generalize (includesString (collections b) (Result.collectionId r)).
  generalize (includesString (fileTypes b) (Result.fileType r)).
  intros inTypes inCollections.
  destruct (collections b) as [|c cs], (fileTypes b) as [|f ft],
    (minLength b) as [mn|], (maxLength b) as [mx|],
    (hasFullDiacritics b) as [fl|], inTypes, inCollections; simpl;
    rewrite ?Z.leb_antisym;
    repeat match goal with
           | |- context [Z.ltb ?a ?b] => destruct (Z.ltb a b); simpl
           | |- context [Bool.eqb ?a ?b] => destruct (Bool.eqb a b); simpl
           end;
    reflexivity.
Qed.

Lemma filter_all {A} (f : A -> bool) (l : list A) :
  (forall x, f x = true) -> List.filter f l = l.
Proof.
  intros Hf. induction l as [|x l IH]; simpl; [reflexivity|].
  now rewrite Hf, IH.
Qed.

Lemma filter_sublist {A} (f : A -> bool) (l : list A) :
  sublist (List.filter f l) l.
Proof.
  induction l as [|x l IH]; simpl; [constructor|].
  destruct (f x); now constructor.
Qed.

End FilterFacts.

Module StatsFacts.
Import JSFacts StatsRoutes.

Lemma ascending_asym (a b : Z) : ascending a b = true -> ascending b a = false.
Proof. unfold ascending. intros Hab. apply Z.ltb_lt in Hab. apply Z.ltb_ge. lia. Qed.

(** The sorted array is the ascending arrangement of the lengths. *)
Lemma sort_ascending (l : list Z) :
  Permutation (sort ascending l) l /\ StronglySorted Z.le (sort ascending l).
Proof.
  split; [apply sort_Permutation|].
  apply Sorted_StronglySorted; [intros x y z; apply Z.le_trans|].
  pose proof (sort_Sorted ascending l ascending_asym) as Hs.
  induction Hs as [|a k Hk IH Hhd]; constructor; [exact IH|].
  destruct Hhd as [|b k' Hab]; constructor.
  unfold inOrder, ascending in Hab. apply Z.ltb_ge in Hab. lia.
Qed.

(** [Math.floor((p / 100) * total)] is the floor of [p * total / 100] for
    the percentiles of the ladder and every array length below 2^32. *)
Lemma percentileIndex_exact (p : Z) (total : nat) :
  In p ladder -> (1 <= total)%nat -> Z.of_nat total < 2 ^ 32 ->
  percentileIndex p total = p * Z.of_nat total / 100.
Proof.
  intros Hp Htotal Hlt. unfold percentileIndex, num_of_nat.
  destruct (Z.of_nat total) as [|tp|tp] eqn:Etp; [lia | | lia].
  unfold ladder in Hp. simpl in Hp.
  destruct Hp as [<- | [<- | [<- | [<- | [<- | [<- | [<- | []]]]]]]].
  - change (div (num_of_Z 10) (num_of_Z 100))
      with (S754_finite false 7205759403792794 (- 56)).
    apply (FloatFacts.floor_mul_exact 10 _ 56 40); try lia; try reflexivity.
  - change (div (num_of_Z 25) (num_of_Z 100))
      with (S754_finite false 4503599627370496 (- 54)).
    apply (FloatFacts.floor_mul_exact 25 _ 54 0); try lia; try reflexivity.
  - change (div (num_of_Z 50) (num_of_Z 100))
      with (S754_finite false 4503599627370496 (- 53)).
    apply (FloatFacts.floor_mul_exact 50 _ 53 0); try lia; try reflexivity.
  - change (div (num_of_Z 75) (num_of_Z 100))
      with (S754_finite false 6755399441055744 (- 53)).
    apply (FloatFacts.floor_mul_exact 75 _ 53 0); try lia; try reflexivity.
  - change (div (num_of_Z 90) (num_of_Z 100))
      with (S754_finite false 8106479329266893 (- 53)).
    apply (FloatFacts.floor_mul_exact 90 _ 53 20); try lia; try reflexivity.
  - change (div (num_of_Z 95) (num_of_Z 100))
      with (S754_finite false 8556839292003942 (- 53)).
    apply (FloatFacts.floor_mul_exact 95 _ 53 (-40)); try lia; try reflexivity.
  - change (div (num_of_Z 99) (num_of_Z 100))
      with (S754_finite false 8917127262193582 (- 53)).
    apply (FloatFacts.floor_mul_exact 99 _ 53 (-8)); try lia; try reflexivity.
Qed.

End StatsFacts.

(* ===================================================================== *)
(** * The loader: properties of the specification                       *)
(* ===================================================================== *)

Section LoaderProperties.
Import Loader LoaderFacts.

(** C1, as stated, fails: a manifest lists two files of which the second
    is missing; [loadFromSplitFiles] returns true all the same, and
    [loadData] serves, as loaded from split files, a corpus that holds the
    first collection only. *)
Lemma split_load_serves_partial_corpus :
  let entries := [Sample.entry Sample.colA 1; Sample.entry Sample.colB 2] in
  manifestFile Sample.fsMissing
  = Some (Parsed {| totalCollections := 2; manifest_files := entries |})
  /\ missing (collectionFiles Sample.fsMissing) (Sample.entry Sample.colB 2)
     = true
  /\ fst (loadFromSplitFiles Sample.fsMissing init) = true
  /\ exists st,
       loadData Sample.fsMissing init = Returned st
       /\ loadingMethod st = Some SplitFiles
       /\ Loader.data st = Some {| collections := [Sample.colA] |}.
Proof.
  split; [reflexivity|]. split; [vm_compute; reflexivity|].
  split; [vm_compute; reflexivity|].
  eexists. split; [vm_compute; reflexivity|]. split; reflexivity.
Qed.

(** C1, amended. With the collections directory and a parsed manifest at
    hand: if a listed file exists and reading or parsing it throws,
    [loadFromSplitFiles] fails as a whole (it returns false and leaves the
    loader as it was) and [loadData] falls back to the unified source;
    otherwise it succeeds with the collections of the listed files that
    exist, in manifest order, skipping the missing ones and comparing no
    record count with the manifest. *)
Theorem split_load_all_or_fallback
    (fs : FileSystem) (st : State) (manifest : Manifest) :
  collectionsDir fs = true ->
  manifestFile fs = Some (Parsed manifest) ->
  let dir := collectionFiles fs in
  let entries := manifest_files manifest in
  (existsb (unreadable dir) entries = true ->
     loadFromSplitFiles fs st = (false, st)
     /\ loadData fs st
        = (let '(ok, st2) := loadFromUnifiedFile fs st in
           if ok then Returned (loaded_with UnifiedFile st2) else Thrown st2))
  /\ (existsb (unreadable dir) entries = false ->
      exists st',
        loadFromSplitFiles fs st = (true, st')
        /\ Loader.data st'
           = Some {| collections := List.map snd (present dir entries) |}
        /\ loadData fs st = Returned (loaded_with SplitFiles st')).
Proof.
  intros Hdir Hman dir entries.
  assert (Hsplit : loadFromSplitFiles fs st
                   = match loadListed dir entries [] 0 with
                     | Some (collections, totalHadiths) =>
                         (true,
                          {| data := Some {| collections := collections |};
                             isLoaded := isLoaded st;
                             loadingMethod := loadingMethod st;
                             stats :=
                               {| collectionsCount :=
                                    Z.of_nat (length collections);
                                  hadithsCount := totalHadiths |} |})
                     | None => (false, st)
                     end).
  { unfold loadFromSplitFiles. rewrite Hdir, Hman. reflexivity. }
  rewrite loadListed_spec in Hsplit. split; intros Hex; rewrite Hex in Hsplit.
  - split; [exact Hsplit|]. unfold loadData. rewrite Hsplit. reflexivity.
  - eexists. split; [exact Hsplit|]. split; [reflexivity|].
    unfold loadData. rewrite Hsplit. reflexivity.
Qed.

Lemma split_load_all_or_fallback_witness :
  (loadFromSplitFiles Sample.fsUnreadable init = (false, init)
   /\ exists st, loadData Sample.fsUnreadable init = Returned st
                 /\ loadingMethod st = Some UnifiedFile)
  /\ exists st', loadFromSplitFiles Sample.fsMissing init = (true, st').
Proof.
  split.
  - destruct (split_load_all_or_fallback Sample.fsUnreadable init
                {| totalCollections := 2;
                   manifest_files := [Sample.entry Sample.colA 1;
                                      Sample.entry Sample.colB 2] |}
                eq_refl eq_refl) as [Hfail _].
    destruct (Hfail ltac:(vm_compute; reflexivity)) as [Hf Hl].
    split; [exact Hf|]. eexists. split; [exact Hl | reflexivity].
  - destruct (split_load_all_or_fallback Sample.fsMissing init
                {| totalCollections := 2;
                   manifest_files := [Sample.entry Sample.colA 1;
                                      Sample.entry Sample.colB 2] |}
                eq_refl eq_refl) as [_ Hok].
    destruct (Hok ltac:(vm_compute; reflexivity)) as [st' [Hs _]].
    exists st'. exact Hs.
Defined.







End LoaderProperties.

(* ===================================================================== *)
(** * The collection index: properties of the specification             *)
(* ===================================================================== *)

Section IndexProperties.
Import Manager.

Lemma setAll_other (i : ref) (cs : list Collection)
    (index : gmap jsstring ref) (id : jsstring) :
  ~ In id (List.map collectionId cs) ->
  setAll i cs index !! id = index !! id.
Proof.
  revert i index. induction cs as [|c cs IH]; intros i index Hid; simpl.
  - reflexivity.
  - simpl in Hid. rewrite IH by tauto. apply lookup_insert_ne. tauto.
Qed.

(** A lookup finds the last slot that holds the identifier. *)
Lemma setAll_last (i : ref) (cs : list Collection)
    (index : gmap jsstring ref) (r : nat) (c : Collection) :
  cs !! r = Some c ->
  exists r' c',
    setAll i cs index !! collectionId c = Some (i + r')%nat
    /\ cs !! r' = Some c'
    /\ collectionId c' = collectionId c
    /\ (r <= r')%nat.
Proof.
  revert i index r c. induction cs as [|c0 cs IH]; intros i index r c Hr.
  - discriminate.
  - simpl.
    destruct (decide (collectionId c ∈ List.map collectionId cs))
      as [Hin | Hout]; rewrite list_elem_of_In in *.
    + apply in_map_iff in Hin as [c1 [Hid Hc1]].
      apply list_elem_of_In, list_elem_of_lookup in Hc1 as [r1 Hr1].
      destruct r as [|r]; simpl in Hr.
      * destruct (IH (S i) (<[collectionId c0 := i]> index) r1 c1 Hr1)
          as [r' [c' [Hl [Hc' [Hid' _]]]]].
        exists (S r'), c'. rewrite <- Hid, Hl. simpl.
        repeat split; [f_equal; lia | exact Hc' | congruence | lia].
      * destruct (IH (S i) (<[collectionId c0 := i]> index) r c Hr)
          as [r' [c' [Hl [Hc' [Hid' Hle]]]]].
        exists (S r'), c'. rewrite Hl. simpl.
        repeat split; [f_equal; lia | exact Hc' | exact Hid' | lia].
    + rewrite setAll_other by exact Hout.
      destruct r as [|r]; simpl in Hr.
      * injection Hr as ->. exists 0%nat, c.
        rewrite lookup_insert_eq, Nat.add_0_r. repeat split; lia.
      * exfalso. apply Hout. apply in_map.
        apply list_elem_of_In, list_elem_of_lookup. eauto.
Qed.



(** What a successful [loadData] leaves in the manager. *)
Lemma loadData_returned (fs : Loader.FileSystem) (m0 m : State) :
  loadData fs m0 = Loader.Returned m ->
  exists d,
    data m = Some d /\ loaded m = true
    /\ collections m = setAll 0%nat (corpus d) ∅.
Proof.
  unfold loadData. destruct (Loader.loadData fs (dataLoader m0)) as [ld|ld];
    [|discriminate].
  unfold buildCollectionIndex. simpl.
  destruct (Loader.data ld) as [d|]; [|discriminate].
  intros Hm. injection Hm as <-. exists d. repeat split.
Qed.


End IndexProperties.

(* ===================================================================== *)
(** * The search engine: properties of the specification                *)
(* ===================================================================== *)

Section SearchProperties.
Import JSFacts SearchFacts Manager.
Context `{CaseMapping}.

(** C6. For every corpus, every search term and every fixed collection
    and file type filter, the records matched in exact mode are among the
    records matched in fuzzy mode: the array of exact hits is a
    subsequence of the array of fuzzy hits, so that every exact hit is a
    fuzzy hit, and the exact search of a loaded manager never reports a
    larger total than the fuzzy search. *)
Theorem exact_matches_subset_of_fuzzy
    (d : Data) (o : Options.t) (term : jsstring) :
  sublist (hits (corpus d) (withMode o true) term)
          (hits (corpus d) (withMode o false) term)
  /\ (forall r, In r (ranked (corpus d) (withMode o true) term) ->
                In r (ranked (corpus d) (withMode o false) term))
  /\ (forall m query rE rF,
        data m = Some d ->
        searchHadiths m query (withMode o true) = Some rE ->
        searchHadiths m query (withMode o false) = Some rF ->
        (Response.total (Response.pagination rE)
         <= Response.total (Response.pagination rF))%nat
        /\ forall r, In r (Response.hadiths rE) ->
                     In r (ranking d query (withMode o false))).
Proof.
  pose proof (hits_mode (corpus d) o term) as Hsub.
  split; [exact Hsub|]. split.
  - intros r Hr. apply ranked_In. apply ranked_In in Hr.
    eapply sublist_In; eauto.
  - intros m query rE rF Hd HE HF.
    rewrite (searchHadiths_loaded m _ query _ Hd) in HE.
    rewrite (searchHadiths_loaded m _ query _ Hd) in HF.
    injection HE as <-. injection HF as <-. simpl.
    unfold ranking. destruct (emptyQuery query).
    + split; [lia|]. rewrite slice_nil. intros r [].
    + unfold ranked. rewrite !sort_length. split.
      * apply sublist_length, hits_mode.
      * intros r Hr. apply slice_In in Hr.
        apply sort_In. apply sort_In in Hr.
        eapply sublist_In; [apply hits_mode | exact Hr].
Qed.

(** C7. For every loaded corpus, every query with [total] matches and
    every page size [L >= 1], the pages
    [searchHadiths(q, {limit: L, offset: k * L})] for
    [k = 0 .. ceil(total / L) - 1] all return, and their [hadiths] lists,
    one after the other, are exactly the [hadiths] list of
    [searchHadiths(q, {limit: total, offset: 0})]. That list is in
    descending order of relevance score: no result stands before one that
    the comparator [b.relevanceScore - a.relevanceScore] puts first, and,
    the texts being strings of fewer than 2^52 code units, every result
    scores at least as much as every result after it. Results of equal
    score keep the order in which the corpus is walked. *)
Theorem pagination_complete
    (m : State) (d : Data) (query : jsstring) (o : Options.t) (L : nat)
    (r0 : Response.t) :
  data m = Some d ->
  (1 <= L)%nat ->
  searchHadiths m query o = Some r0 ->
  let total := Response.total (Response.pagination r0) in
  exists (full : Response.t) (pgs : list Response.t),
    searchHadiths m query (Options.page o total 0) = Some full
    /\ Forall2
         (fun k pg =>
            searchHadiths m query (Options.page o L (k * L)) = Some pg)
         (seq 0 (pageCount total L)) pgs
    /\ concat (List.map Response.hadiths pgs) = Response.hadiths full
    /\ Sorted (inOrder byRelevance) (Response.hadiths full)
    /\ (textsBounded d = true ->
        StronglySorted scoresAtLeast (Response.hadiths full))
    /\ (emptyQuery query = false ->
        forall s,
          List.filter (scored s) (Response.hadiths full)
          = List.filter (scored s)
              (hits (corpus d) o (toLowerCase (trim query)))).
Proof.
  intros Hd HL H0 total.
  rewrite (searchHadiths_loaded m d query o Hd) in H0.
  injection H0 as <-. simpl in total.
  assert (Hfull : slice 0 total (ranking d query o) = ranking d query o).
  { apply slice_all. unfold total. lia. }
  eexists.
  exists (List.map
            (fun k =>
               {| Response.hadiths :=
                    slice (k * L) (k * L + L) (ranking d query o);
                  Response.pagination :=
                    {| Response.total := total; Response.limit := L;
                       Response.offset := k * L;
                       Response.hasMore := (k * L + L <? total)%nat |};
                  Response.query :=
                    if emptyQuery query then None
                    else Some (query, Options.page o L (k * L)) |})
            (seq 0 (pageCount total L))).
  split; [|split; [|split; [|split; [|split]]]].
  - rewrite (searchHadiths_loaded m d query _ Hd). reflexivity.
  - apply Forall2_fmap_r. apply Forall_Forall2_diag. apply Forall_forall.
    intros k _. rewrite (searchHadiths_loaded m d query _ Hd). reflexivity.
  - simpl. rewrite ranking_page, Hfull.
    rewrite List.map_map. simpl.
    change (concat (pages L (pageCount total L) (ranking d query o))
            = ranking d query o).
    rewrite concat_pages. apply firstn_all2.
    apply (pageCount_covers total L HL).
  - simpl. rewrite ranking_page, Hfull. unfold ranking.
    destruct (emptyQuery query); [constructor | apply ranked_Sorted].
  - intros Hb. simpl. rewrite ranking_page, Hfull.
    now apply ranking_descending.
  - intros Hq s. simpl. rewrite ranking_page, Hfull. unfold ranking.
    rewrite Hq. apply ranked_stable.
Qed.

End SearchProperties.

(* ===================================================================== *)
(** * The relevance score: properties of the specification              *)
(* ===================================================================== *)

Section ScoreProperties.
Import JSFacts SearchFacts.


Section ScoreOfResults.
Context `{CaseMapping}.



End ScoreOfResults.

End ScoreProperties.

(* ===================================================================== *)
(** * The advanced filter pipeline: properties of the specification     *)
(* ===================================================================== *)

Section RouteProperties.
Import JSFacts SearchFacts FilterFacts.
Context `{CaseMapping}.

(** What the advanced search answers once the corpus is there. *)
Lemma advancedSearch_loaded (m : Manager.State) (d : Data)
    (b : SearchRoutes.AdvancedBody) :
  Manager.data m = Some d ->
  let candidates :=
    take 1000 (ranking d (SearchRoutes.query b) Options.none) in
  let limit := default 20%nat (SearchRoutes.limit b) in
  let offset := default 0%nat (SearchRoutes.offset b) in
  exists base resp,
    Manager.searchHadiths m (SearchRoutes.query b) SearchRoutes.baseOptions
    = Some base
    /\ Response.hadiths base = candidates
    /\ SearchRoutes.advancedSearch m b = Some resp
    /\ SearchRoutes.hadiths resp
       = slice offset (offset + limit)
               (List.filter (SearchRoutes.keeps b) candidates)
    /\ Response.total (SearchRoutes.pagination resp)
       = length (List.filter (SearchRoutes.keeps b) candidates)
    /\ SearchRoutes.resultsBeforeFiltering (SearchRoutes.filters resp)
       = length candidates.
Proof.
  intros Hd candidates limit offset.
  pose proof (searchHadiths_loaded m d (SearchRoutes.query b)
                SearchRoutes.baseOptions Hd) as Hbase.
  eexists. eexists. split; [exact Hbase|].
  unfold SearchRoutes.advancedSearch. rewrite Hbase. simpl.
  repeat split.
Qed.


(** C5, as stated, fails: on a corpus in which 1001 records match the
    query, the unfiltered search with limit 1 and offset 1000 returns the
    last record of the ranking, and the advanced search with empty filter
    sets and the same limit and offset returns nothing and counts 1000
    results where the unfiltered search counts 1001. *)
Lemma advanced_search_misses_results_beyond_1000 :
  exists plain resp,
    Manager.searchHadiths (H := latin1Case) SampleSearch.managerBig (lit "a")
      (Options.page Options.none 1 1000) = Some plain
    /\ SearchRoutes.advancedSearch (H := latin1Case) SampleSearch.managerBig
         (FilterSpec.unfiltered (lit "a") (Some 1%nat) (Some 1000%nat))
       = Some resp
    /\ length (Response.hadiths plain) = 1%nat
    /\ Response.total (Response.pagination plain) = 1001%nat
    /\ SearchRoutes.hadiths resp = []
    /\ Response.total (SearchRoutes.pagination resp) = 1000%nat.
Proof.
  eexists. eexists. split; [vm_compute; reflexivity|].
  split; [vm_compute; reflexivity|].
  repeat split.
Qed.

(** C5, amended. On a loaded corpus, the advanced search with empty
    [collections], empty [fileTypes] and no length or diacritics filter
    returns, in the same order, the page of the first 1000 results of the
    unfiltered search; where the query has at most 1000 matches its
    [hadiths] list and its total are those of the unfiltered search with
    the same limit and offset. For every filter combination the callback
    is the conjunction of the five dimension tests, in which an empty set
    lets every record pass, and the filtered list is a subsequence of the
    candidates: their relative order is kept. *)
Theorem advanced_search_without_filters
    (m : Manager.State) (d : Data) (q : jsstring) (limit offset : nat) :
  Manager.data m = Some d ->
  let b := FilterSpec.unfiltered q (Some limit) (Some offset) in
  let whole := ranking d q Options.none in
  exists resp plain,
    SearchRoutes.advancedSearch m b = Some resp
    /\ Manager.searchHadiths m q (Options.page Options.none limit offset)
       = Some plain
    /\ SearchRoutes.hadiths resp
       = slice offset (offset + limit) (take 1000 whole)
    /\ Response.hadiths plain = slice offset (offset + limit) whole
    /\ ((length whole <= 1000)%nat ->
        SearchRoutes.hadiths resp = Response.hadiths plain
        /\ SearchRoutes.pagination resp = Response.pagination plain)
    /\ (forall b' r,
          SearchRoutes.keeps b' r
          = passCollections b' r && passFileTypes b' r && passMinLength b' r
            && passMaxLength b' r && passDiacritics b' r)
    /\ (forall b' r, SearchRoutes.collections b' = [] ->
                     passCollections b' r = true)
    /\ (forall b' r, SearchRoutes.fileTypes b' = [] ->
                     passFileTypes b' r = true)
    /\ (forall b' resp',
          SearchRoutes.advancedSearch m b' = Some resp' ->
          sublist (SearchRoutes.hadiths resp')
                  (ranking d (SearchRoutes.query b') Options.none)).
Proof.
  intros Hd b whole.
  destruct (advancedSearch_loaded m d b Hd)
    as [base [resp [Hbase [Hcand [Hresp [Hh [Htot _]]]]]]].
  simpl in Hh, Htot. fold whole in Hh, Htot.
  rewrite filter_all in Hh, Htot by reflexivity.
  pose proof (searchHadiths_loaded m d q
                (Options.page Options.none limit offset) Hd) as Hplain.
  eexists. eexists. split; [exact Hresp|]. split; [exact Hplain|].
  split; [exact Hh|]. split; [reflexivity|]. split; [|split; [|split; [|split]]].
  - intros Hle.
    assert (Ht : take 1000 whole = whole) by now apply firstn_all2.
    rewrite Hh, Ht. split; [reflexivity|].
    unfold SearchRoutes.advancedSearch in Hresp. rewrite Hbase in Hresp.
    injection Hresp as <-. simpl. rewrite Hcand.
    change (ranking d (SearchRoutes.query b) Options.none) with whole.
    rewrite filter_all by reflexivity. rewrite Ht. reflexivity.
  - apply keeps_conjunction.
  - intros b' r Hb. unfold passCollections. now rewrite Hb.
  - intros b' r Hb. unfold passFileTypes. now rewrite Hb.
  - intros b' resp' Hresp'.
    destruct (advancedSearch_loaded m d b' Hd)
      as [_ [resp2 [_ [_ [Hresp2 [Hh2 _]]]]]].
    rewrite Hresp' in Hresp2. injection Hresp2 as <-. rewrite Hh2.
    etransitivity; [apply slice_sublist|].
    etransitivity; [apply filter_sublist | apply sublist_take].
Qed.

(** C8. For every loaded corpus and every query term that matches no
    record of it, [searchHadiths] returns (it does not throw) with an empty
    [hadiths] list, [pagination.total = 0] and [pagination.hasMore = false],
    for every limit and offset (natural numbers, as the routes pass them)
    and whatever the filters. *)
Theorem no_match_returns_empty
    (fs : Loader.FileSystem) (m0 m : Manager.State) :
  Manager.loadData fs m0 = Loader.Returned m ->
  exists d,
    Manager.data m = Some d
    /\ forall (query : jsstring) (o : Options.t),
         (forall c f h,
            In c (corpus d) -> In f (files c) -> In h (hadiths f) ->
            Manager.matches (default false (Options.exactMatch o))
                            (toLowerCase (trim query)) h = false) ->
         exists resp,
           Manager.searchHadiths m query o = Some resp
           /\ Response.hadiths resp = []
           /\ Response.total (Response.pagination resp) = 0%nat
           /\ Response.hasMore (Response.pagination resp) = false.
Proof.
  intros Hload.
  destruct (loadData_returned fs m0 m Hload) as [d [Hd _]].
  exists d. split; [exact Hd|]. intros query o Hnone.
  assert (Hrank : ranking d query o = []).
  { unfold ranking. destruct (emptyQuery query); [reflexivity|].
    unfold Manager.ranked. now rewrite (hits_none _ _ _ Hnone). }
  eexists. split; [apply (searchHadiths_loaded m d query o Hd)|].
  simpl. rewrite Hrank, slice_nil. simpl. repeat split.
Qed.

End RouteProperties.

(* ===================================================================== *)
(** * The statistics aggregator: properties of the specification        *)
(* ===================================================================== *)

Section StatsProperties.
Import JSFacts StatsRoutes StatsFacts.

(** C10. For every non-empty array of the text lengths in scope (an array
    holds fewer than 2^32 elements), the distribution handler answers with
    statistics whose percentiles are, for each [p] of the ladder 10, 25,
    50, 75, 90, 95, 99, the element at index floor(p / 100 * total) of the
    ascending arrangement of these lengths, [total] being their number; the
    index lies inside the array, so that each percentile is defined. *)
Theorem percentiles_at_floor_index
    (m : Manager.State) (collectionId fileType : option jsstring)
    (lengths : list Z) :
  lengthsInScope m collectionId fileType = Some lengths ->
  lengths <> [] ->
  Z.of_nat (length lengths) < 2 ^ 32 ->
  let total := Z.of_nat (length lengths) in
  exists dist sorted,
    distribution m collectionId fileType = Some (Some dist)
    /\ Permutation sorted lengths
    /\ StronglySorted Z.le sorted
    /\ StatsRoutes.total dist = length lengths
    /\ percentiles dist
       = List.map (fun p => (p, sorted !! Z.to_nat (p * total / 100))) ladder
    /\ forall p, In p ladder ->
         exists v, sorted !! Z.to_nat (p * total / 100) = Some v.
Proof.
  intros Hscope Hne Hlt total.
  assert (Hlen : (1 <= length lengths)%nat).
  { destruct lengths; [congruence | simpl; lia]. }
  destruct (sort_ascending lengths) as [Hperm Hsorted].
  pose proof (sort_length ascending lengths) as Hsl.
  eexists. exists (sort ascending lengths).
  split.
  { unfold distribution. rewrite Hscope.
    replace (length lengths =? 0)%nat with false
      by (symmetry; apply Nat.eqb_neq; lia).
    reflexivity. }
  cbn [StatsRoutes.total percentiles].
  split; [exact Hperm|]. split; [exact Hsorted|]. split; [exact Hsl|].
  assert (Hidx : forall p, In p ladder ->
            0 <= p * total / 100 < total).
  { intros p Hp.
    assert (1 <= p <= 99) by (unfold ladder in Hp; simpl in Hp; lia).
    split; [apply Z.div_pos; unfold total; lia|].
    apply Z.div_lt_upper_bound; unfold total; nia. }
  split.
  - apply map_ext_in. intros p Hp. f_equal.
    rewrite Hsl, (percentileIndex_exact p _ Hp Hlen Hlt). fold total.
    unfold at_index.
    replace (p * total / 100 <? 0) with false
      by (symmetry; apply Z.ltb_ge; apply Hidx; exact Hp).
    reflexivity.
  - intros p Hp. apply lookup_lt_is_Some_2. rewrite Hsl.
    destruct (Hidx p Hp). unfold total in *. lia.
Qed.

Lemma percentiles_at_floor_index_witness :
  exists dist sorted,
    distribution SampleSearch.manager None None = Some (Some dist)
    /\ Permutation sorted [2; 2; 5]
    /\ StronglySorted Z.le sorted
    /\ StatsRoutes.total dist = 3%nat
    /\ percentiles dist
       = List.map (fun p => (p, sorted !! Z.to_nat (p * 3 / 100))) ladder
    /\ forall p, In p ladder ->
         exists v, sorted !! Z.to_nat (p * 3 / 100) = Some v.
Proof.
  apply (percentiles_at_floor_index SampleSearch.manager None None [2; 2; 5]).
  - vm_compute. reflexivity.
  - discriminate.
  - simpl. lia.
Defined.

End StatsProperties.

(* ===================================================================== *)
(** * The properties at work on the sample documents                    *)
(* ===================================================================== *)

Section Witnesses.
Import JSFacts SearchFacts FilterFacts.

Lemma sample_loaded :
  Manager.loadData Sample.fsUnified Manager.init
  = Loader.Returned SampleSearch.manager.
Proof. vm_compute. reflexivity. Qed.

Lemma sample_data : Manager.data SampleSearch.manager = Some Sample.unified.
Proof. vm_compute. reflexivity. Qed.

Lemma pagination_complete_witness :
  exists (r0 full : Response.t) (pgs : list Response.t),
    Manager.searchHadiths (H := latin1Case) SampleSearch.manager (lit "ab")
                          Options.none = Some r0
    /\ Response.total (Response.pagination r0) = 2%nat
    /\ Manager.searchHadiths (H := latin1Case) SampleSearch.manager
         (lit "ab") (Options.page Options.none 2 0) = Some full
    /\ Forall2
         (fun k pg =>
            Manager.searchHadiths (H := latin1Case) SampleSearch.manager
              (lit "ab") (Options.page Options.none 1 (k * 1)) = Some pg)
         [0; 1]%nat pgs
    /\ concat (List.map Response.hadiths pgs) = Response.hadiths full
    /\ Sorted (inOrder (Manager.byRelevance)) (Response.hadiths full)
    /\ StronglySorted scoresAtLeast (Response.hadiths full)
    /\ forall s,
         List.filter (scored s) (Response.hadiths full)
         = List.filter (scored s)
             (Manager.hits (H := latin1Case) (corpus Sample.unified)
                Options.none (lit "ab")).
Proof.
  destruct (Manager.searchHadiths (H := latin1Case) SampleSearch.manager
              (lit "ab") Options.none) as [r0|] eqn:Hr0;
    [|vm_compute in Hr0; discriminate].
  assert (Htotal : Response.total (Response.pagination r0) = 2%nat).
  { vm_compute in Hr0. injection Hr0 as <-. reflexivity. }
  destruct (pagination_complete (H := latin1Case) SampleSearch.manager
              Sample.unified (lit "ab") Options.none 1 r0 sample_data
              ltac:(lia) Hr0)
    as [full [pgs [Hfull [Hpages [Hcat [Hsorted [Hdesc Hstable]]]]]]].
  rewrite Htotal in Hfull, Hpages.
  exists r0, full, pgs. split; [reflexivity|]. split; [exact Htotal|].
  split; [exact Hfull|]. split; [exact Hpages|]. split; [exact Hcat|].
  split; [exact Hsorted|]. split.
  - apply Hdesc. vm_compute. reflexivity.
  - apply Hstable. vm_compute. reflexivity.
Defined.

Lemma no_match_returns_empty_witness :
  exists resp,
    Manager.searchHadiths (H := latin1Case) SampleSearch.manager (lit "zz")
                          (Options.page Options.none 20 0) = Some resp
    /\ Response.hadiths resp = []
    /\ Response.total (Response.pagination resp) = 0%nat
    /\ Response.hasMore (Response.pagination resp) = false.
Proof.
  destruct (no_match_returns_empty (H := latin1Case) Sample.fsUnified
              Manager.init SampleSearch.manager sample_loaded)
    as [d [Hd Hnone]].
  assert (Hdd : d = Sample.unified).
  { rewrite sample_data in Hd. now injection Hd. }
  subst d. apply Hnone. intros c f h Hc Hf Hh.
  destruct Hc as [<- | [<- | []]]; destruct Hf as [<- | []];
    repeat (destruct Hh as [<- | Hh]); try destruct Hh;
    vm_compute; reflexivity.
Defined.



Lemma advanced_search_without_filters_witness :
  exists resp plain,
    SearchRoutes.advancedSearch (H := latin1Case) SampleSearch.manager
      (FilterSpec.unfiltered (lit "ab") (Some 1%nat) (Some 1%nat))
    = Some resp
    /\ Manager.searchHadiths (H := latin1Case) SampleSearch.manager (lit "ab")
         (Options.page Options.none 1 1) = Some plain
    /\ SearchRoutes.hadiths resp = Response.hadiths plain.
Proof.
  destruct (advanced_search_without_filters (H := latin1Case)
              SampleSearch.manager Sample.unified (lit "ab") 1 1 sample_data)
    as [resp [plain [Hr [Hp [_ [_ [Heq _]]]]]]].
  exists resp, plain. split; [exact Hr|]. split; [exact Hp|].
  apply Heq. vm_compute. lia.
Defined.

End Witnesses.

(* ===================================================================== *)
(** * Facts about trimming and white space                              *)
(* ===================================================================== *)

Module TrimFacts.
Import Converter.

Lemma trimStart_app (a b : jsstring) :
  trimStart (a ++ b) = if allWs a then trimStart b else trimStart a ++ b.
Proof.
  induction a as [|c a IH]; simpl; [reflexivity|].
  destruct (isWhiteSpace c); simpl; [exact IH | reflexivity].
Qed.

Lemma allWs_rev (s : jsstring) : allWs (rev s) = allWs s.
Proof.
  unfold allWs. induction s as [|c s IH]; simpl; [reflexivity|].
  rewrite forallb_app, IH. simpl. rewrite andb_true_r. apply andb_comm.
Qed.

Lemma trimStart_allWs (s : jsstring) : allWs s = true -> trimStart s = [].
Proof.
  induction s as [|c s IH]; simpl; [reflexivity|].
  destruct (isWhiteSpace c); simpl; [exact IH | discriminate].
Qed.

Lemma trimStart_nil (s : jsstring) : trimStart s = [] -> allWs s = true.
Proof.
  induction s as [|c s IH]; simpl; [reflexivity|].
  destruct (isWhiteSpace c); simpl; [exact IH | discriminate].
Qed.

(** [trimEnd] from the front of the string. *)
Lemma trimEnd_cons (c : N) (s : jsstring) :
  trimEnd (c :: s)
  = if isWhiteSpace c && allWs s then [] else c :: trimEnd s.
Proof.
  unfold trimEnd. simpl. rewrite trimStart_app, allWs_rev.
  destruct (allWs s) eqn:E.
  - rewrite andb_true_r. simpl.
    rewrite (trimStart_allWs (rev s)) by now rewrite allWs_rev.
    destruct (isWhiteSpace c); reflexivity.
  - rewrite andb_false_r. rewrite rev_app_distr. reflexivity.
Qed.

Lemma trimEnd_nil (s : jsstring) : trimEnd s = [] <-> allWs s = true.
Proof.
  induction s as [|c s IH]; [split; reflexivity|].
  rewrite trimEnd_cons. simpl.
  destruct (isWhiteSpace c), (allWs s); simpl; split; try reflexivity;
    discriminate.
Qed.

Lemma ink_app (a b : jsstring) : ink (a ++ b) = ink a ++ ink b.
Proof. unfold ink. induction a as [|c a IH]; simpl; [reflexivity|].
  destruct (isWhiteSpace c); simpl; now rewrite IH. Qed.

Lemma ink_allWs (s : jsstring) : allWs s = true -> ink s = [].
Proof.
  unfold ink. induction s as [|c s IH]; simpl; [reflexivity|].
  destruct (isWhiteSpace c); simpl; [exact IH | discriminate].
Qed.

Lemma ink_trimStart (s : jsstring) : ink (trimStart s) = ink s.
Proof.
  unfold ink. induction s as [|c s IH]; simpl; [reflexivity|].
  destruct (isWhiteSpace c) eqn:E; simpl; [exact IH | now rewrite E].
Qed.

Lemma ink_trimEnd (s : jsstring) : ink (trimEnd s) = ink s.
Proof.
  induction s as [|c s IH]; [reflexivity|].
  rewrite trimEnd_cons.
  destruct (isWhiteSpace c) eqn:Ec, (allWs s) eqn:Es; simpl;
    unfold ink in *; simpl; rewrite ?Ec; simpl; rewrite ?IH; try reflexivity.
  symmetry. now apply ink_allWs.
Qed.

Lemma ink_trim (s : jsstring) : ink (trim s) = ink s.
Proof. unfold trim. now rewrite ink_trimEnd, ink_trimStart. Qed.

Lemma ink_replaceWsFrom (inRun : bool) (s : jsstring) :
  ink (replaceWsFrom inRun s) = ink s.
Proof.
  unfold ink. revert inRun. induction s as [|c s IH]; intros inRun; simpl;
    [reflexivity|].
  destruct (isWhiteSpace c) eqn:E; simpl.
  - destruct inRun; simpl; apply IH.
  - rewrite E. simpl. now rewrite IH.
Qed.

Lemma spaced_replaceWsFrom (inRun : bool) (s : jsstring) :
  spaced inRun (replaceWsFrom inRun s) = true.
Proof.
  revert inRun. induction s as [|c s IH]; intros inRun; simpl; [reflexivity|].
  destruct (isWhiteSpace c) eqn:E.
  - destruct inRun; [apply IH|]. simpl. apply IH.
  - simpl. rewrite E. apply IH.
Qed.

Lemma spaced_trimStart (p : bool) (s : jsstring) :
  spaced p s = true -> spaced true (trimStart s) = true.
Proof.
  revert p. induction s as [|c s IH]; intros p; simpl; [reflexivity|].
  destruct (isWhiteSpace c) eqn:E.
  - intros Hs. apply andb_true_iff in Hs as [_ Hs]. now apply (IH true).
  - simpl. now rewrite E.
Qed.

Lemma spaced_trimEnd (p : bool) (s : jsstring) :
  spaced p s = true -> trimEnd s = [] \/ singleSpaced p (trimEnd s) = true.
Proof.
  revert p. induction s as [|c s IH]; intros p Hs; [now left|].
  rewrite trimEnd_cons. simpl in Hs.
  destruct (isWhiteSpace c) eqn:E; simpl.
  - apply andb_true_iff in Hs as [Hc Hs].
    destruct (allWs s) eqn:Ea; [now left|]. right. simpl. rewrite E, Hc.
    destruct (IH true Hs) as [Hn | Hn]; [|exact Hn].
    apply trimEnd_nil in Hn. congruence.
  - right. simpl. rewrite E.
    destruct (IH false Hs) as [-> | Hn]; [reflexivity | exact Hn].
Qed.

Lemma trim_normalized (s : jsstring) :
  spaced false s = true -> normalized (trim s) = true.
Proof.
  intros Hs. unfold trim.
  destruct (spaced_trimEnd true _ (spaced_trimStart _ _ Hs)) as [-> | Hn];
    [reflexivity|].
  unfold normalized. destruct (trimEnd _); [reflexivity | exact Hn].
Qed.

Lemma singleSpaced_trimEnd (p : bool) (s : jsstring) :
  singleSpaced p s = true -> trimEnd s = s.
Proof.
  revert p. induction s as [|c s IH]; intros p Hs; [reflexivity|].
  rewrite trimEnd_cons. simpl in Hs.
  destruct (isWhiteSpace c) eqn:E; simpl.
  - apply andb_true_iff in Hs as [_ Hs].
    destruct (allWs s) eqn:Ea.
    + destruct s as [|c' s]; [discriminate Hs|].
      simpl in Ea, Hs. apply andb_true_iff in Ea as [Ec' _].
      rewrite Ec' in Hs. rewrite andb_false_r in Hs. discriminate Hs.
    + now rewrite (IH true Hs).
  - now rewrite (IH false Hs).
Qed.

Lemma singleSpaced_replaceWsFrom (p : bool) (s : jsstring) :
  singleSpaced p s = true -> replaceWsFrom p s = s.
Proof.
  revert p. induction s as [|c s IH]; intros p Hs; [reflexivity|].
  simpl in *. destruct (isWhiteSpace c) eqn:E.
  - apply andb_true_iff in Hs as [Hc Hs].
    apply andb_true_iff in Hc as [Hc Hp].
    destruct p; [discriminate Hp|].
    apply N.eqb_eq in Hc. subst c. now rewrite (IH true Hs).
  - now rewrite (IH false Hs).
Qed.

(** A cleaned text is left as it is by [trim] and by the replacement of
    the white space. *)
Lemma normalized_fixed (s : jsstring) :
  normalized s = true -> trim s = s /\ replaceWs s = s.
Proof.
  destruct s as [|c s]; [split; reflexivity|]. unfold normalized.
  intros Hs. pose proof Hs as Hs'. simpl in Hs.
  destruct (isWhiteSpace c) eqn:E.
  { rewrite andb_false_r in Hs. discriminate Hs. }
  split.
  - unfold trim. simpl. rewrite E. now apply (singleSpaced_trimEnd true).
  - unfold replaceWs. simpl. rewrite E.
    now rewrite (singleSpaced_replaceWsFrom false s Hs).
Qed.

Lemma allWs_trimEnd (s : jsstring) : allWs (trimEnd s) = allWs s.
Proof.
  induction s as [|c s IH]; [reflexivity|].
  rewrite trimEnd_cons. unfold allWs in *. simpl.
  destruct (isWhiteSpace c) eqn:Ec, (forallb isWhiteSpace s) eqn:E; simpl;
    rewrite ?Ec, ?IH; reflexivity.
Qed.

Lemma trimEnd_idempotent (s : jsstring) : trimEnd (trimEnd s) = trimEnd s.
Proof.
  induction s as [|c s IH]; [reflexivity|].
  rewrite trimEnd_cons.
  destruct (isWhiteSpace c && allWs s) eqn:E; [reflexivity|].
  rewrite trimEnd_cons, allWs_trimEnd, E, IH. reflexivity.
Qed.

(** [trim] leaves a trimmed string as it is. *)
Lemma trim_idempotent (s : jsstring) : trim (trim s) = trim s.
Proof.
  unfold trim.
  assert (Hs : trimStart (trimEnd (trimStart s)) = trimEnd (trimStart s)).
  { induction s as [|c s IH]; [reflexivity|]. simpl.
    destruct (isWhiteSpace c) eqn:E; [exact IH|].
    rewrite trimEnd_cons, E. simpl. now rewrite E. }
  rewrite Hs. apply trimEnd_idempotent.
Qed.

Lemma cleanArabicText_normalized (column : option jsstring) :
  normalized (cleanArabicText column) = true.
Proof.
  destruct column as [text|]; [|reflexivity]. simpl.
  destruct (truthy text); [|reflexivity]. simpl.
  apply trim_normalized. apply (spaced_replaceWsFrom false).
Qed.

End TrimFacts.

(* ===================================================================== *)
(** * The converter: properties of the code                             *)
(* ===================================================================== *)

Section ConverterProperties.
Import Converter TrimFacts.

(** X1. Whatever the column holds, [cleanArabicText] returns a text whose
    only white space is the single space: no tab, line break or other
    space is left, no two spaces follow each other, and the text neither
    starts nor ends with one. Apart from the white space the text is kept:
    its other code units are those of the column, in their order, after
    the pair of quotes around it, if any, is taken off. *)
Theorem cleanArabicText_normalizes (column : option jsstring)
    (text : jsstring) :
  normalized (cleanArabicText column) = true
  /\ cleanArabicText None = []
  /\ ink (cleanArabicText (Some text))
     = ink (if startsWith (trim text) quote && endsWith (trim text) quote
            then sliceInner (trim text) else text).
Proof.
  split; [apply cleanArabicText_normalized|split; [reflexivity|]].
  unfold cleanArabicText. destruct text as [|c text]; [reflexivity|].
  cbn [truthy negb].
  rewrite ink_trim. unfold replaceWs. rewrite ink_replaceWsFrom.
  destruct (startsWith (trim (c :: text)) quote
            && endsWith (trim (c :: text)) quote); [reflexivity|].
  apply ink_trim.
Qed.

(** X2. A text that [cleanArabicText] has returned and that does not stand
    between two quotes is returned unchanged when it is cleaned again. *)
Theorem cleanArabicText_idempotent (column : option jsstring) :
  let cleaned := cleanArabicText column in
  startsWith cleaned quote && endsWith cleaned quote = false ->
  cleanArabicText (Some cleaned) = cleaned.
Proof.
  intros cleaned Hq.
  destruct (normalized_fixed cleaned (cleanArabicText_normalized column))
    as [Htrim Hrep].
  unfold cleanArabicText at 1. fold cleaned.
  destruct cleaned as [|c s] eqn:E; [reflexivity|].
  cbn [truthy negb]. rewrite Htrim, Hq, Hrep. exact Htrim.
Qed.

Lemma cleanArabicText_idempotent_witness :
  cleanArabicText (Some (cleanArabicText (Some (lit "  a   b  "))))
  = lit "a b".
Proof.
  apply (cleanArabicText_idempotent (Some (lit "  a   b  "))).
  vm_compute. reflexivity.
Defined.

(** X3. The file that [parseCSVFile] makes of the rows of a CSV file
    declares as [count] the number of records it holds, which is at most
    the number of rows; its file type is one of the two that the routes
    know. Every record has a text that is not empty and is cleaned, a
    [textLength] that is the number of UTF-16 code units of that text, a
    diacritics flag that is what [hasArabicDiacritics] finds in that text,
    and an identifier without white space at either end. *)
Theorem parseCSVFile_invariants (fileName : jsstring) (rows : list Row) :
  let file := parseCSVFile fileName rows in
  count file = Z.of_nat (length (hadiths file))
  /\ (length (hadiths file) <= length rows)%nat
  /\ (fileType file = lit "regular"
      \/ fileType file = lit "mushakkala_mufassala")
  /\ Forall
       (fun h =>
          text h <> []
          /\ normalized (text h) = true
          /\ textLength h = Z.of_nat (length (text h))
          /\ Model.hasFullDiacritics h = hasArabicDiacritics (text h)
          /\ trim (hadith_id h) = hadith_id h)
       (hadiths file).
Proof.
  intros file. split; [reflexivity|]. split; [|split].
  - unfold file, parseCSVFile. cbn [hadiths]. clear file.
    induction rows as [|row rows IH]; simpl; [lia|].
    rewrite length_app. destruct (convertRow row); simpl; lia.
  - unfold file, parseCSVFile, getFileType. cbn [fileType].
    destruct (_ || _); [now right | now left].
  - unfold file, parseCSVFile. cbn [hadiths].
    apply List.Forall_forall. intros h Hh.
    apply in_flat_map in Hh as [row [_ Hh]].
    unfold convertRow in Hh.
    destruct (row_id row) as [id|]; [|destruct Hh].
    destruct (truthy (cleanArabicText (row_text row))) eqn:Et;
      [|destruct Hh].
    destruct (truthy id); [|destruct Hh].
    destruct Hh as [<- | []]. cbn [text textLength Model.hasFullDiacritics hadith_id].
    split; [intros E; rewrite E in Et; discriminate Et|].
    split; [apply cleanArabicText_normalized|].
    split; [reflexivity|]. split; [reflexivity|]. apply trim_idempotent.
Qed.

End ConverterProperties.

(* ===================================================================== *)
(** * Facts about loading                                               *)
(* ===================================================================== *)

Module LoadFacts.
Import Loader LoaderFacts LoadSpec.

(** [loadData] by the sources that can be used. *)
Lemma loadData_cases (fs : FileSystem) (st : State) :
  loadData fs st
  = if splitUsable fs
    then Returned (loaded_with SplitFiles (snd (loadFromSplitFiles fs st)))
    else if unifiedUsable fs
         then Returned (loaded_with UnifiedFile
                          (snd (loadFromUnifiedFile fs st)))
         else Thrown st.
Proof.
  assert (Hsplit : loadFromSplitFiles fs st
                   = (splitUsable fs, snd (loadFromSplitFiles fs st))
                     /\ (splitUsable fs = false ->
                         snd (loadFromSplitFiles fs st) = st)).
  { unfold loadFromSplitFiles, splitUsable.
    destruct (collectionsDir fs); [|now split].
    destruct (manifestFile fs) as [[|manifest]|]; [now split | | now split].
    simpl. rewrite loadListed_spec.
    destruct (existsb _ _); now split. }
  destruct Hsplit as [Hsplit Hst]. unfold loadData. rewrite Hsplit.
  destruct (splitUsable fs); [reflexivity|]. rewrite (Hst eq_refl).
  unfold loadFromUnifiedFile, unifiedUsable.
  destruct (unifiedFile fs) as [[|d]|]; reflexivity.
Qed.

Lemma loaded_data (fs : FileSystem) (st st' : State) :
  loadData fs st = Returned st' ->
  isLoaded st' = true /\ is_Some (data st')
  /\ loadingMethod st'
     = Some (if splitUsable fs then SplitFiles else UnifiedFile).
Proof.
  rewrite loadData_cases. destruct (splitUsable fs) eqn:Es.
  - intros E. injection E as <-. split; [reflexivity|].
    split; [|reflexivity]. simpl.
    unfold splitUsable in Es. unfold loadFromSplitFiles.
    destruct (collectionsDir fs); [|discriminate Es].
    destruct (manifestFile fs) as [[|manifest]|]; try discriminate Es.
    simpl in *. rewrite loadListed_spec.
    destruct (existsb _ _); [discriminate Es|]. simpl. eauto.
  - destruct (unifiedUsable fs) eqn:Eu; [|discriminate].
    intros E. injection E as <-. split; [reflexivity|].
    split; [|reflexivity]. simpl.
    unfold unifiedUsable in Eu. unfold loadFromUnifiedFile.
    destruct (unifiedFile fs) as [[|d]|]; try discriminate Eu. simpl. eauto.
Qed.

(** [loadData] of the manager by the outcome of the loader. *)
Lemma manager_loadData_cases (fs : FileSystem) (m : Manager.State) :
  Manager.loadData fs m
  = match loadData fs (Manager.dataLoader m) with
    | Returned ld =>
        match data ld with
        | Some d =>
            Returned {| Manager.dataLoader := ld; Manager.data := Some d;
                        Manager.loaded := true;
                        Manager.collections :=
                          Manager.setAll 0%nat (corpus d) ∅ |}
        | None =>
            Thrown {| Manager.dataLoader := ld; Manager.data := None;
                      Manager.loaded := Manager.loaded m;
                      Manager.collections := Manager.collections m |}
        end
    | Thrown ld =>
        Thrown {| Manager.dataLoader := ld; Manager.data := Manager.data m;
                  Manager.loaded := Manager.loaded m;
                  Manager.collections := Manager.collections m |}
    end.
Proof.
  unfold Manager.loadData, Manager.buildCollectionIndex.
  destruct (loadData fs (Manager.dataLoader m)) as [ld|ld]; [|reflexivity].
  cbn [Manager.data]. destruct (data ld) as [d|]; reflexivity.
Qed.





End LoadFacts.

(* ===================================================================== *)
(** * Loading: properties of the code                                   *)
(* ===================================================================== *)

Section LoadProperties.
Import Loader LoaderFacts LoadSpec LoadFacts.




End LoadProperties.

(* ===================================================================== *)
(** * Facts about the queries                                           *)
(* ===================================================================== *)

Module QueryFacts.
Import JSFacts LoaderFacts LoadFacts Manager.

(** What a successful [loadData] leaves in the manager and in its
    loader. *)
Lemma loadData_state (fs : Loader.FileSystem) (m0 m : State) :
  loadData fs m0 = Loader.Returned m ->
  exists d,
    data m = Some d
    /\ Loader.data (dataLoader m) = Some d
    /\ Loader.isLoaded (dataLoader m) = true
    /\ collections m = setAll 0%nat (corpus d) ∅
    /\ Loader.loadData fs (dataLoader m0) = Loader.Returned (dataLoader m).
Proof.
  rewrite manager_loadData_cases.
  destruct (Loader.loadData fs (dataLoader m0)) as [ld|ld] eqn:El;
    [|discriminate].
  destruct (loaded_data _ _ _ El) as [Hl [[d Hd] _]]. rewrite Hd.
  intros E. injection E as <-. exists d. cbn. repeat split; assumption.
Qed.

Lemma setAll_app (i : ref) (a b : list Collection)
    (index : gmap jsstring ref) :
  setAll i (a ++ b) index = setAll (i + length a)%nat b (setAll i a index).
Proof.
  revert i index. induction a as [|c a IH]; intros i index; simpl.
  - now rewrite Nat.add_0_r.
  - rewrite IH. f_equal. lia.
Qed.

(** The index gives the last collection with the identifier. *)
Lemma setAll_split (a b : list Collection) (c : Collection) :
  ~ In (collectionId c) (List.map collectionId b) ->
  setAll 0%nat (a ++ c :: b) ∅ !! collectionId c = Some (length a).
Proof.
  intros Hb. rewrite setAll_app. simpl.
  rewrite setAll_other by exact Hb. apply lookup_insert_eq.
Qed.

(** [find] gives the first collection with the identifier. *)
Lemma find_split (a b : list Collection) (c : Collection) :
  ~ In (collectionId c) (List.map collectionId a) ->
  List.find (fun x => bool_decide (collectionId x = collectionId c))
            (a ++ c :: b) = Some c.
Proof.
  induction a as [|x a IH]; intros Ha; simpl.
  - now rewrite bool_decide_eq_true_2.
  - simpl in Ha. rewrite bool_decide_eq_false_2 by tauto. apply IH. tauto.
Qed.

Lemma find_absent (cs : list Collection) (id : jsstring) :
  ~ In id (List.map collectionId cs) ->
  List.find (fun x => bool_decide (collectionId x = id)) cs = None.
Proof.
  induction cs as [|x cs IH]; intros Hid; simpl; [reflexivity|].
  simpl in Hid. rewrite bool_decide_eq_false_2 by tauto. apply IH. tauto.
Qed.

Lemma ids_split (cs : list Collection) (id : jsstring) :
  In id (List.map collectionId cs) ->
  exists a c b, cs = a ++ c :: b /\ collectionId c = id.
Proof.
  intros Hid. apply in_map_iff in Hid as [c [Hc Hin]].
  apply in_split in Hin as [a [b ->]]. eauto.
Qed.

Lemma NoDup_split (a b : list Collection) (c : Collection) :
  NoDup (List.map collectionId (a ++ c :: b)) ->
  ~ In (collectionId c) (List.map collectionId a)
  /\ ~ In (collectionId c) (List.map collectionId b).
Proof.
  rewrite List.map_app. simpl. intros Hnd.
  apply NoDup_app in Hnd as [_ [Hab Hcb]].
  apply NoDup_cons in Hcb as [Hc _]. split.
  - intros Ha. apply (Hab (collectionId c)); [now apply list_elem_of_In|].
    now left.
  - intros Hb. apply Hc. now apply list_elem_of_In.
Qed.

(** The collection that the manager finds for an identifier of the
    corpus. *)
Lemma collectionOf_loaded (m : State) (d : Data) (id : jsstring) :
  data m = Some d -> collections m = setAll 0%nat (corpus d) ∅ ->
  (~ In id (List.map collectionId (corpus d)) -> ManagerQueries.collectionOf m id = None)
  /\ (forall a c b, corpus d = a ++ c :: b -> collectionId c = id ->
        ~ In id (List.map collectionId b) -> ManagerQueries.collectionOf m id = Some c)
  /\ (forall c, ManagerQueries.collectionOf m id = Some c ->
        collectionId c = id /\ In c (corpus d)).
Proof.
  intros Hd Hix. unfold ManagerQueries.collectionOf, getCollection, deref.
  rewrite Hd, Hix. split; [|split].
  - intros Hid. now rewrite setAll_other.
  - intros a c b E <- Hb. rewrite E, setAll_split by exact Hb.
    rewrite lookup_app_r by lia. now rewrite Nat.sub_diag.
  - intros c Hc.
    destruct (decide (id ∈ List.map collectionId (corpus d))) as [Hin|Hout];
      rewrite list_elem_of_In in *.
    + destruct (ids_split _ _ Hin) as [a [c0 [b [E Hid]]]].
      destruct (setAll_last 0%nat (corpus d) ∅ (length a) c0)
        as [r' [c' [Hl [Hc' [Hid' _]]]]].
      { rewrite E, lookup_app_r by lia. now rewrite Nat.sub_diag. }
      rewrite Hid in Hl. unfold ref in *. rewrite Hl in Hc. simpl in Hc.
      rewrite Hc' in Hc. injection Hc as <-. split; [congruence|].
      apply list_elem_of_In. eapply list_elem_of_lookup_2; eauto.
    + unfold ref in *. rewrite setAll_other in Hc by exact Hout.
      discriminate Hc.
Qed.

Lemma collectionOf_is_Some (m : State) (d : Data) (id : jsstring) :
  data m = Some d -> collections m = setAll 0%nat (corpus d) ∅ ->
  is_Some (ManagerQueries.collectionOf m id)
  <-> In id (List.map collectionId (corpus d)).
Proof.
  intros Hd Hix.
  destruct (collectionOf_loaded m d id Hd Hix) as [Habsent [Hsplit Hfound]].
  split.
  - intros [c Hc]. destruct (Hfound c Hc) as [<- Hin]. now apply in_map.
  - intros Hin.
    assert (Hlast : exists a' c' b', corpus d = a' ++ c' :: b'
                      /\ collectionId c' = id
                      /\ ~ In id (List.map collectionId b')).
    { clear Habsent Hsplit Hfound Hix Hd.
      induction (corpus d) as [|x cs IH]; [destruct Hin|].
      destruct (decide (id ∈ List.map collectionId cs)) as [Hi|Ho];
        rewrite list_elem_of_In in *.
      - destruct (IH Hi) as [a' [c' [b' [-> [Hc' Hb']]]]].
        exists (x :: a'), c', b'. auto.
      - destruct Hin as [Hx | Hi]; [|contradiction].
        exists [], x, cs. auto. }
    destruct Hlast as [a' [c' [b' [E' [Hc' Hb']]]]].
    rewrite (Hsplit a' c' b' E' Hc' Hb'). eauto.
Qed.

Lemma slice_length {A} (i j : nat) (a : list A) :
  length (slice i (i + j) a) = Nat.min j (length a - i).
Proof.
  unfold slice. rewrite length_take, length_drop.
  replace (i + j - i)%nat with j by lia. reflexivity.
Qed.

(** A page is followed by records exactly when the next page is not
    empty. *)
Lemma hasMore_next {A} (all : list A) (L offset : nat) :
  (1 <= L)%nat ->
  (offset + L <? length all)%nat = true
  <-> slice (offset + L) (offset + L + L) all <> [].
Proof.
  intros HL. rewrite Nat.ltb_lt.
  pose proof (slice_length (offset + L) L all) as Hlen.
  destruct (slice (offset + L) (offset + L + L) all) as [|x xs];
    simpl in Hlen.
  - split; [lia | congruence].
  - split; [discriminate | lia].
Qed.

Lemma allHadiths_origin (collection : Collection) (ft : option jsstring)
    (item : Item.t) :
  In item (ManagerQueries.allHadiths collection ft) ->
  exists file,
    In file (files collection)
    /\ skips ft (fileType file) = false
    /\ In (Item.hadith item) (hadiths file)
    /\ item = Item.make collection file (Item.hadith item).
Proof.
  unfold ManagerQueries.allHadiths. intros Hi.
  apply in_flat_map in Hi as [file [Hf Hi]].
  destruct (skips ft (fileType file)) eqn:Es; [destruct Hi|].
  apply in_map_iff in Hi as [h [<- Hh]]. exists file. auto.
Qed.

Lemma skips_false (ft value : jsstring) :
  ft <> [] -> skips (Some ft) value = false -> value = ft.
Proof.
  unfold skips. intros Hft Hs. destruct ft as [|x ft]; [congruence|].
  simpl in Hs. apply negb_false_iff, bool_decide_eq_true in Hs. exact Hs.
Qed.

Lemma allHadiths_unfiltered (collection : Collection) :
  Z.of_nat (length (ManagerQueries.allHadiths collection None))
  = recordCount collection.
Proof.
  rewrite recordCount_sum. unfold ManagerQueries.allHadiths. simpl.
  induction (files collection) as [|file fs IH]; simpl; [reflexivity|].
  rewrite length_app, length_map. lia.
Qed.

Lemma findHadith_some (c : Collection) (hid ft : jsstring)
    (fs : list FileVariant) (item : Item.t) :
  ManagerQueries.findHadith c hid ft fs = Some item ->
  exists file,
    In file fs /\ fileType file = ft
    /\ In (Item.hadith item) (hadiths file)
    /\ hadith_id (Item.hadith item) = hid
    /\ item = Item.make c file (Item.hadith item).
Proof.
  induction fs as [|file fs IH]; simpl; [discriminate|].
  destruct (bool_decide (fileType file = ft)) eqn:Eft.
  - destruct (List.find _ (hadiths file)) as [h|] eqn:Ef.
    + intros E. injection E as <-. apply find_some in Ef as [Hh Hid].
      apply bool_decide_eq_true in Eft, Hid. exists file. simpl. auto.
    + intros E. destruct (IH E) as [f [Hf H]]. exists f. auto.
  - intros E. destruct (IH E) as [f [Hf H]]. exists f. auto.
Qed.

Lemma findHadith_none (c : Collection) (hid ft : jsstring)
    (fs : list FileVariant) :
  ManagerQueries.findHadith c hid ft fs = None
  <-> forall file h, In file fs -> fileType file = ft ->
                     In h (hadiths file) -> hadith_id h <> hid.
Proof.
  induction fs as [|file fs IH]; simpl; [split; [intros _ ? ? [] | reflexivity]|].
  destruct (bool_decide (fileType file = ft)) eqn:Eft.
  - apply bool_decide_eq_true in Eft.
    destruct (List.find _ (hadiths file)) as [h|] eqn:Ef.
    + apply find_some in Ef as [Hh Hid]. apply bool_decide_eq_true in Hid.
      split; [discriminate|]. intros Hall. exfalso.
      apply (Hall file h); auto.
    + rewrite IH. split.
      * intros Hall f h [<- | Hf] Hft Hh; [|now apply (Hall f h)].
        pose proof (find_none _ _ Ef h Hh) as Hn.
        now apply bool_decide_eq_false in Hn.
      * intros Hall f h Hf. apply Hall. now right.
  - apply bool_decide_eq_false in Eft. rewrite IH. split.
    + intros Hall f h [<- | Hf] Hft Hh; [congruence | now apply (Hall f h)].
    + intros Hall f h Hf. apply Hall. now right.
Qed.

End QueryFacts.

(* ===================================================================== *)
(** * The queries of the manager and of the loader: properties          *)
(* ===================================================================== *)

Section QueryProperties.
Import JSFacts LoaderFacts LoadFacts QueryFacts.

(** X6. After a successful [loadData] the loader and the manager look a
    collection up in the same corpus: both find nothing for an identifier
    that no collection has; the loader finds the first collection with
    the identifier, the manager the last one; where the identifiers are
    pairwise different, the two lookups return the same. *)
Theorem getCollection_first_and_last
    (fs : Loader.FileSystem) (m0 m : Manager.State) :
  Manager.loadData fs m0 = Loader.Returned m ->
  exists d,
    Manager.data m = Some d
    /\ LoaderQueries.getCollections (Manager.dataLoader m) = Some (corpus d)
    /\ (forall id, ~ In id (List.map collectionId (corpus d)) ->
          LoaderQueries.getCollection (Manager.dataLoader m) id = Some None
          /\ ManagerQueries.collectionOf m id = None)
    /\ (forall a c b, corpus d = a ++ c :: b ->
          (~ In (collectionId c) (List.map collectionId a) ->
           LoaderQueries.getCollection (Manager.dataLoader m) (collectionId c)
           = Some (Some c))
          /\ (~ In (collectionId c) (List.map collectionId b) ->
              ManagerQueries.collectionOf m (collectionId c) = Some c))
    /\ (NoDup (List.map collectionId (corpus d)) ->
        forall id,
          LoaderQueries.getCollection (Manager.dataLoader m) id
          = Some (ManagerQueries.collectionOf m id)).
Proof.
  intros Hload.
  destruct (loadData_state fs m0 m Hload) as [d [Hd [Hld [Hil [Hix _]]]]].
  exists d. split; [exact Hd|].
  assert (Hcs : LoaderQueries.getCollections (Manager.dataLoader m)
                = Some (corpus d)).
  { unfold LoaderQueries.getCollections. now rewrite Hil, Hld. }
  split; [exact Hcs|].
  unfold LoaderQueries.getCollection. rewrite Hcs.
  assert (Habsent : forall id, ~ In id (List.map collectionId (corpus d)) ->
            Some (List.find (fun c => bool_decide (collectionId c = id))
                            (corpus d)) = Some None
            /\ ManagerQueries.collectionOf m id = None).
  { intros id Hid. rewrite find_absent by exact Hid. split; [reflexivity|].
    now apply (proj1 (collectionOf_loaded m d id Hd Hix)). }
  assert (Hsplit : forall a c b, corpus d = a ++ c :: b ->
            (~ In (collectionId c) (List.map collectionId a) ->
             Some (List.find (fun x => bool_decide (collectionId x = collectionId c))
                             (corpus d)) = Some (Some c))
            /\ (~ In (collectionId c) (List.map collectionId b) ->
                ManagerQueries.collectionOf m (collectionId c) = Some c)).
  { intros a c b E. split.
    - intros Ha. rewrite E. now rewrite find_split.
    - intros Hb.
      apply (proj1 (proj2 (collectionOf_loaded m d _ Hd Hix)) a c b E eq_refl Hb). }
  split; [exact Habsent|]. split; [exact Hsplit|].
  intros Hnd id.
  destruct (decide (id ∈ List.map collectionId (corpus d))) as [Hin|Hout];
    rewrite list_elem_of_In in *.
  - destruct (ids_split _ _ Hin) as [a [c [b [E <-]]]].
    rewrite E in Hnd. destruct (NoDup_split a b c Hnd) as [Ha Hb].
    destruct (Hsplit a c b E) as [H1 H2]. now rewrite (H1 Ha), (H2 Hb).
  - destruct (Habsent id Hout) as [H1 H2]. now rewrite H1, H2.
Qed.

Lemma getCollection_first_and_last_witness :
  LoaderQueries.getCollection (Manager.dataLoader SampleSearch.manager)
                              (lit "b") = Some (Some Sample.colB)
  /\ ManagerQueries.collectionOf SampleSearch.manager (lit "b")
     = Some Sample.colB.
Proof.
  destruct (getCollection_first_and_last Sample.fsUnified Manager.init
              SampleSearch.manager sample_loaded)
    as [d [Hd [_ [_ [Hsplit _]]]]].
  assert (Hdd : d = Sample.unified).
  { rewrite sample_data in Hd. now injection Hd. }
  subst d.
  destruct (Hsplit [Sample.colA] Sample.colB [] eq_refl) as [H1 H2].
  split; [apply H1 | apply H2]; vm_compute; intuition discriminate.
Defined.

(** X7. [getCollections()] of a loaded manager lists one summary for each
    collection of the corpus, in corpus order, with the number of records
    that the collection really holds, whatever its [totalHadiths] field
    says: the totals add up to the number of records of the corpus. The
    number of summaries is the [collectionsCount] of the loader under both
    strategies; under the unified strategy the totals add up to its
    [hadithsCount]. *)
Theorem getCollections_counts_records
    (fs : Loader.FileSystem) (m0 m : Manager.State) :
  Manager.loadData fs m0 = Loader.Returned m ->
  exists d summaries,
    Manager.data m = Some d
    /\ ManagerQueries.getCollections m = Some summaries
    /\ List.map ManagerQueries.collectionId summaries
       = List.map collectionId (corpus d)
    /\ List.map ManagerQueries.totalHadiths summaries
       = List.map recordCount (corpus d)
    /\ Loader.sumZ (List.map ManagerQueries.totalHadiths summaries)
       = totalRecords (corpus d)
    /\ Z.of_nat (length summaries)
       = Loader.collectionsCount (Loader.stats (Manager.dataLoader m))
    /\ (Loader.loadingMethod (Manager.dataLoader m) = Some Loader.UnifiedFile ->
        Loader.sumZ (List.map ManagerQueries.totalHadiths summaries)
        = Loader.hadithsCount (Loader.stats (Manager.dataLoader m))).
Proof.
  intros Hload.
  destruct (loadData_state fs m0 m Hload) as [d [Hd [Hld [_ [_ Hl]]]]].
  exists d. eexists. split; [exact Hd|].
  unfold ManagerQueries.getCollections. rewrite Hd.
  split; [reflexivity|]. rewrite !List.map_map. cbn.
  split; [reflexivity|]. split; [reflexivity|].
  split; [now rewrite totalRecords_sum|].
  rewrite length_map.
  rewrite loadData_cases in Hl.
  destruct (LoadSpec.splitUsable fs) eqn:Es.
  - injection Hl as Hl. rewrite <- Hl in *. cbn in *. split; [|discriminate].
    clear Hl. unfold LoadSpec.splitUsable in Es.
    unfold Loader.loadFromSplitFiles in *.
    destruct (Loader.collectionsDir fs); [|discriminate Es].
    destruct (Loader.manifestFile fs) as [[|manifest]|]; try discriminate Es.
    cbn in *. rewrite loadListed_spec in *.
    destruct (existsb _ _); [discriminate Es|]. cbn in *.
    injection Hld as <-. reflexivity.
  - destruct (LoadSpec.unifiedUsable fs) eqn:Eu; [|discriminate Hl].
    injection Hl as Hl. rewrite <- Hl in *. cbn in *. clear Hl.
    unfold LoadSpec.unifiedUsable in Eu.
    unfold Loader.loadFromUnifiedFile in *.
    destruct (Loader.unifiedFile fs) as [[|d1]|]; try discriminate Eu.
    cbn in *. injection Hld as <-. split; [reflexivity|]. intros _.
    rewrite unified_count, totalRecords_sum. unfold recordCount. lia.
Qed.

Lemma getCollections_counts_records_witness :
  exists summaries,
    ManagerQueries.getCollections SampleSearch.manager = Some summaries
    /\ List.map ManagerQueries.totalHadiths summaries = [1; 2]
    /\ Loader.sumZ (List.map ManagerQueries.totalHadiths summaries) = 3.
Proof.
  destruct (getCollections_counts_records Sample.fsUnified Manager.init
              SampleSearch.manager sample_loaded)
    as [d [summaries [Hd [Hs [_ [Ht [Hsum _]]]]]]].
  assert (Hdd : d = Sample.unified).
  { rewrite sample_data in Hd. now injection Hd. }
  subst d. exists summaries. split; [exact Hs|].
  split; [exact Ht | exact Hsum].
Defined.

End QueryProperties.

Section ListingProperties.
Import JSFacts LoaderFacts LoadFacts QueryFacts.

(** X8. For a loaded manager, [getCollectionHadiths] returns null exactly
    for an identifier that no collection of the corpus has. Otherwise the
    listing is taken from one collection with that identifier: its total
    is the number of records of the files that pass the file type filter
    (all the records of the collection without a filter), and every
    listed record is a record of a file of that collection, carries the
    identifier and the name of the collection and the type of its file,
    which is the type asked for, if any. *)
Theorem getCollectionHadiths_lists_collection
    (fs : Loader.FileSystem) (m0 m : Manager.State) (id : jsstring)
    (o : Options.t) :
  Manager.loadData fs m0 = Loader.Returned m ->
  exists d,
    Manager.data m = Some d
    /\ (ManagerQueries.getCollectionHadiths m id o = None
        <-> ~ In id (List.map collectionId (corpus d)))
    /\ forall listing,
         ManagerQueries.getCollectionHadiths m id o = Some listing ->
         exists collection,
           In collection (corpus d)
           /\ collectionId collection = id
           /\ Response.total (ManagerQueries.pagination listing)
              = length (ManagerQueries.allHadiths collection
                          (Options.fileType o))
           /\ (Options.fileType o = None ->
               Z.of_nat (Response.total (ManagerQueries.pagination listing))
               = recordCount collection)
           /\ sublist (ManagerQueries.hadiths listing)
                      (ManagerQueries.allHadiths collection
                         (Options.fileType o))
           /\ Forall
                (fun item =>
                   Item.collectionId item = id
                   /\ Item.collectionName item = collectionName collection
                   /\ (exists file,
                         In file (files collection)
                         /\ In (Item.hadith item) (hadiths file)
                         /\ Item.fileType item = fileType file)
                   /\ forall ft, Options.fileType o = Some ft -> ft <> [] ->
                                 Item.fileType item = ft)
                (ManagerQueries.hadiths listing).
Proof.
  intros Hload.
  destruct (loadData_state fs m0 m Hload) as [d [Hd [_ [_ [Hix _]]]]].
  destruct (collectionOf_loaded m d id Hd Hix) as [Habsent [_ Hfound]].
  exists d. split; [exact Hd|].
  unfold ManagerQueries.getCollectionHadiths.
  destruct (ManagerQueries.collectionOf m id) as [collection|] eqn:Ec.
  - destruct (Hfound collection eq_refl) as [Hid Hin]. split.
    + split; [discriminate|]. intros Hout.
      discriminate (Habsent Hout).
    + intros listing E. injection E as <-. exists collection. cbn.
      split; [exact Hin|]. split; [exact Hid|]. split; [reflexivity|].
      split; [intros ->; apply allHadiths_unfiltered|].
      split; [apply slice_sublist|].
      apply List.Forall_forall. intros item Hitem. apply slice_In in Hitem.
      destruct (allHadiths_origin _ _ _ Hitem) as [file [Hf [Hs [Hh ->]]]].
      cbn. split; [exact Hid|]. split; [reflexivity|].
      split; [exists file; auto|].
      intros ft Eft Hft. rewrite Eft in Hs. now apply skips_false.
  - split; [|discriminate]. split; [|reflexivity]. intros _ Hin.
    destruct (ids_split _ _ Hin) as [a [c [b [E Hc]]]].
    (* the last collection with the identifier is found *)
    assert (Hlast : exists a' c' b', corpus d = a' ++ c' :: b'
                      /\ collectionId c' = id
                      /\ ~ In id (List.map collectionId b')).
    { clear Ec Habsent Hfound Hix Hd Hload E Hc a c b.
      induction (corpus d) as [|x cs IH]; [destruct Hin|].
      destruct (decide (id ∈ List.map collectionId cs)) as [Hi|Ho];
        rewrite list_elem_of_In in *.
      - destruct (IH Hi) as [a' [c' [b' [-> [Hc' Hb']]]]].
        exists (x :: a'), c', b'. auto.
      - destruct Hin as [Hx | Hi]; [|contradiction].
        exists [], x, cs. auto. }
    destruct Hlast as [a' [c' [b' [E' [Hc' Hb']]]]].
    destruct (collectionOf_loaded m d id Hd Hix) as [_ [Hsplit _]].
    rewrite (Hsplit a' c' b' E' Hc' Hb') in Ec. discriminate Ec.
Qed.

Lemma getCollectionHadiths_lists_collection_witness :
  exists listing,
    ManagerQueries.getCollectionHadiths SampleSearch.manager (lit "b")
      Options.none = Some listing
    /\ Response.total (ManagerQueries.pagination listing) = 2%nat
    /\ Forall (fun item => Item.collectionId item = lit "b")
              (ManagerQueries.hadiths listing).
Proof.
  destruct (getCollectionHadiths_lists_collection Sample.fsUnified
              Manager.init SampleSearch.manager (lit "b") Options.none
              sample_loaded) as [d [Hd [_ Hall]]].
  destruct (ManagerQueries.getCollectionHadiths SampleSearch.manager (lit "b")
              Options.none) as [listing|] eqn:E;
    [|vm_compute in E; discriminate E].
  destruct (Hall listing eq_refl) as [c [_ [_ [_ [_ [_ Hf]]]]]].
  exists listing. split; [reflexivity|]. split.
  - vm_compute in E. injection E as <-. reflexivity.
  - eapply Forall_impl; [exact Hf|]. intros item Hi. apply Hi.
Defined.

(** X9. The pages of a listing are complete: for a collection that is
    found and every page size [L >= 1], the pages
    [getCollectionHadiths(id, {limit: L, offset: k * L})] for
    [k = 0 .. ceil(total / L) - 1], one after the other, are the records
    of the collection that pass the file type filter, in the order of the
    files and of their records. A page holds
    [min(limit, total - offset)] records, and its [hasMore] is true
    exactly when the page that follows it is not empty. *)
Theorem getCollectionHadiths_pages (m : Manager.State) (id : jsstring)
    (o : Options.t) (L : nat) (r0 : ManagerQueries.Listing) :
  (1 <= L)%nat ->
  ManagerQueries.getCollectionHadiths m id o = Some r0 ->
  let total := Response.total (ManagerQueries.pagination r0) in
  exists collection pgs,
    ManagerQueries.collectionOf m id = Some collection
    /\ Forall2
         (fun k pg =>
            ManagerQueries.getCollectionHadiths m id (Options.page o L (k * L))
            = Some pg)
         (seq 0 (pageCount total L)) pgs
    /\ concat (List.map ManagerQueries.hadiths pgs)
       = ManagerQueries.allHadiths collection (Options.fileType o)
    /\ forall offset, exists pg next,
         ManagerQueries.getCollectionHadiths m id (Options.page o L offset)
         = Some pg
         /\ ManagerQueries.getCollectionHadiths m id
              (Options.page o L (offset + L)) = Some next
         /\ length (ManagerQueries.hadiths pg) = Nat.min L (total - offset)
         /\ (Response.hasMore (ManagerQueries.pagination pg) = true
             <-> ManagerQueries.hadiths next <> []).
Proof.
  intros HL H0 total. unfold ManagerQueries.getCollectionHadiths in *.
  destruct (ManagerQueries.collectionOf m id) as [collection|];
    [|discriminate H0].
  injection H0 as <-. cbn in total.
  set (all := ManagerQueries.allHadiths collection (Options.fileType o))
    in *.
  exists collection.
  exists (List.map
            (fun k =>
               {| ManagerQueries.hadiths := slice (k * L) (k * L + L) all;
                  ManagerQueries.pagination :=
                    {| Response.total := total; Response.limit := L;
                       Response.offset := k * L;
                       Response.hasMore := (k * L + L <? total)%nat |} |})
            (seq 0 (pageCount total L))).
  split; [reflexivity|]. split; [|split].
  - apply Forall2_fmap_r. apply Forall_Forall2_diag. apply Forall_forall.
    intros k _. reflexivity.
  - rewrite List.map_map. cbn.
    change (concat (pages L (pageCount total L) all) = all).
    rewrite concat_pages. apply firstn_all2.
    apply (pageCount_covers total L HL).
  - intros offset. eexists. eexists. split; [reflexivity|].
    split; [reflexivity|]. cbn. split; [apply slice_length|].
    apply (hasMore_next all L offset HL).
Qed.

Lemma getCollectionHadiths_pages_witness :
  exists pgs,
    Forall2
      (fun k pg =>
         ManagerQueries.getCollectionHadiths SampleSearch.manager (lit "b")
           (Options.page Options.none 1 (k * 1)) = Some pg)
      [0; 1]%nat pgs
    /\ concat (List.map ManagerQueries.hadiths pgs)
       = ManagerQueries.allHadiths Sample.colB None.
Proof.
  destruct (ManagerQueries.getCollectionHadiths SampleSearch.manager (lit "b")
              Options.none) as [r0|] eqn:E;
    [|vm_compute in E; discriminate E].
  assert (Htotal : Response.total (ManagerQueries.pagination r0) = 2%nat).
  { vm_compute in E. injection E as <-. reflexivity. }
  destruct (getCollectionHadiths_pages SampleSearch.manager (lit "b")
              Options.none 1 r0 ltac:(lia) E)
    as [c [pgs [Hc [Hp [Hcat _]]]]].
  rewrite Htotal in Hp. exists pgs. split; [exact Hp|].
  assert (Hcc : c = Sample.colB).
  { vm_compute in Hc. now injection Hc. }
  subst c. exact Hcat.
Defined.

(** X10. For a loaded manager, [getHadith] returns a record only if it is
    the one asked for: it has the identifier asked for, it stands in a
    file of the type asked for (regular by default) of a collection of
    the corpus with the identifier asked for, and it is tagged with that
    identifier and that type. It returns null exactly when the collection
    it looks into, if any, has no record with that identifier in a file of
    that type. *)
Theorem getHadith_finds_record
    (fs : Loader.FileSystem) (m0 m : Manager.State)
    (collectionId' hadithId : jsstring) (fileType' : option jsstring) :
  Manager.loadData fs m0 = Loader.Returned m ->
  let wanted := default (lit "regular") fileType' in
  exists d,
    Manager.data m = Some d
    /\ (forall item,
          ManagerQueries.getHadith m collectionId' hadithId fileType'
          = Some item ->
          Item.collectionId item = collectionId'
          /\ hadith_id (Item.hadith item) = hadithId
          /\ Item.fileType item = wanted
          /\ exists collection file,
               In collection (corpus d)
               /\ collectionId collection = collectionId'
               /\ In file (files collection)
               /\ fileType file = wanted
               /\ In (Item.hadith item) (hadiths file))
    /\ (ManagerQueries.getHadith m collectionId' hadithId fileType' = None
        <-> forall collection,
              ManagerQueries.collectionOf m collectionId' = Some collection ->
              forall file h,
                In file (files collection) -> fileType file = wanted ->
                In h (hadiths file) -> hadith_id h <> hadithId).
Proof.
  intros Hload wanted.
  destruct (loadData_state fs m0 m Hload) as [d [Hd [_ [_ [Hix _]]]]].
  destruct (collectionOf_loaded m d collectionId' Hd Hix) as [_ [_ Hfound]].
  exists d. split; [exact Hd|].
  unfold ManagerQueries.getHadith. fold wanted.
  destruct (ManagerQueries.collectionOf m collectionId') as [collection|].
  - destruct (Hfound collection eq_refl) as [Hid Hin]. split.
    + intros item Hitem.
      destruct (findHadith_some _ _ _ _ _ Hitem)
        as [file [Hf [Hft [Hh [Hhid ->]]]]].
      cbn. split; [exact Hid|]. split; [exact Hhid|]. split; [exact Hft|].
      exists collection, file. auto.
    + rewrite findHadith_none. split.
      * intros Hall c E. injection E as <-. exact Hall.
      * intros Hall. now apply Hall.
  - split; [discriminate|]. split; [discriminate | reflexivity].
Qed.

Lemma getHadith_finds_record_witness :
  exists item,
    ManagerQueries.getHadith SampleSearch.manager (lit "b") (lit "2") None
    = Some item
    /\ Item.collectionId item = lit "b"
    /\ hadith_id (Item.hadith item) = lit "2"
    /\ Item.fileType item = lit "regular".
Proof.
  destruct (getHadith_finds_record Sample.fsUnified Manager.init
              SampleSearch.manager (lit "b") (lit "2") None sample_loaded)
    as [d [_ [Hsome _]]].
  destruct (ManagerQueries.getHadith SampleSearch.manager (lit "b") (lit "2")
              None) as [item|] eqn:E; [|vm_compute in E; discriminate E].
  destruct (Hsome item eq_refl) as [H1 [H2 [H3 _]]].
  exists item. auto.
Defined.

(** X11. The handler of [GET /:collectionId/hadiths] answers 404 exactly
    when the manager knows no collection with the identifier. Otherwise
    it sends a page whose limit is the limit asked for (20 by default),
    capped at 100, and which holds at most that many records. *)
Theorem collectionHadiths_caps_page (m : Manager.State)
    (collectionId' : jsstring) (fileType' : option jsstring)
    (limit offset : option nat) :
  (Routes.collectionHadiths m collectionId' fileType' limit offset
   = Routes.NotFound
   <-> ManagerQueries.collectionOf m collectionId' = None)
  /\ forall listing,
       Routes.collectionHadiths m collectionId' fileType' limit offset
       = Routes.Sent listing ->
       Response.limit (ManagerQueries.pagination listing)
       = Nat.min (default 20%nat limit) 100
       /\ Response.offset (ManagerQueries.pagination listing)
          = default 0%nat offset
       /\ (length (ManagerQueries.hadiths listing)
           <= Nat.min (default 20%nat limit) 100)%nat
       /\ (length (ManagerQueries.hadiths listing) <= 100)%nat.
Proof.
  unfold Routes.collectionHadiths, ManagerQueries.getCollectionHadiths.
  destruct (ManagerQueries.collectionOf m collectionId') as [collection|].
  - split; [split; discriminate|]. intros listing E. injection E as <-. cbn.
    split; [reflexivity|]. split; [reflexivity|].
    rewrite slice_length. lia.
  - split; [split; reflexivity | discriminate].
Qed.

End ListingProperties.

(* ===================================================================== *)
(** * Facts about the hits of a search                                  *)
(* ===================================================================== *)

Module HitFacts.
Import JSFacts SearchFacts FloatFacts QueryFacts Manager.

Section Engine.
Context `{CaseMapping}.

(** The hits are the records of the corpus that the filters let through
    and that match, each with its tags and its score. *)
Lemma hits_iff (cs : list Collection) (o : Options.t) (term : jsstring)
    (r : Result.t) :
  In r (hits cs o term)
  <-> exists c f h,
        In c cs /\ In f (files c) /\ In h (hadiths f)
        /\ skips (Options.collectionId o) (collectionId c) = false
        /\ skips (Options.fileType o) (fileType f) = false
        /\ matches (default false (Options.exactMatch o)) term h = true
        /\ r = {| Result.hadith := h;
                  Result.collectionId := collectionId c;
                  Result.collectionName := collectionName c;
                  Result.fileType := fileType f;
                  Result.relevanceScore :=
                    calculateRelevance (toLowerCase (text h)) term |}.
Proof.
  unfold hits, hitsOfFile. split.
  - intros Hr. apply in_flat_map in Hr as [c [Hc Hr]].
    destruct (skips _ (collectionId c)) eqn:Ec; [destruct Hr|].
    apply in_flat_map in Hr as [f [Hf Hr]].
    destruct (skips _ (fileType f)) eqn:Ef; [destruct Hr|].
    apply in_flat_map in Hr as [h [Hh Hr]].
    destruct (matches _ term h) eqn:Em; [|destruct Hr].
    destruct Hr as [<- | []]. exists c, f, h. auto 10.
  - intros [c [f [h [Hc [Hf [Hh [Ec [Ef [Em ->]]]]]]]]].
    apply in_flat_map. exists c. split; [exact Hc|]. rewrite Ec.
    apply in_flat_map. exists f. split; [exact Hf|]. rewrite Ef.
    apply in_flat_map. exists h. split; [exact Hh|]. rewrite Em. now left.
Qed.

(** A text that starts with the term scores 100. *)
Lemma calculateRelevance_prefix (text term : jsstring) :
  text <> [] ->
  startsWith (toLowerCase text) (toLowerCase term) = true ->
  calculateRelevance text term = num_of_Z 100.
Proof.
  intros Htext Hstart. unfold calculateRelevance.
  assert (Hinc : includes (toLowerCase text) (toLowerCase term) = true).
  { destruct (toLowerCase text); simpl; now rewrite Hstart. }
  assert (Hidx : indexOf (toLowerCase text) (toLowerCase term) = 0).
  { destruct (toLowerCase text); simpl; now rewrite Hstart. }
  rewrite Hinc, Hidx.
  destruct text as [|c text]; [congruence|].
  pose proof (normalize_positive (Pos.of_succ_nat (length text)) 0
                ltac:(unfold emin, emax, prec; lia)) as Hpos.
  unfold num_of_nat, num_of_Z at 3.
  change (Z.of_nat (length (c :: text)))
    with (Z.pos (Pos.of_succ_nat (length text))).
  destruct (binary_normalize prec emax (Z.pos (Pos.of_succ_nat (length text)))
              0 false)
    as [s|[|]| |[|] mn e]; try discriminate Hpos; reflexivity.
Qed.

(** The records of a page are hits. *)
Lemma page_hits (m : State) (d : Data) (query : jsstring) (o : Options.t)
    (resp : Response.t) (r : Result.t) :
  data m = Some d -> emptyQuery query = false ->
  searchHadiths m query o = Some resp ->
  In r (Response.hadiths resp) ->
  In r (hits (corpus d) o (toLowerCase (trim query))).
Proof.
  intros Hd Hq Hs Hr. rewrite (searchHadiths_loaded m d query o Hd) in Hs.
  injection Hs as <-. simpl in Hr. apply slice_In in Hr.
  unfold ranking in Hr. rewrite Hq in Hr. now apply ranked_In in Hr.
Qed.

(** The loop of the suggestions appends some of the terms that match. *)
Lemma suggest_spec (queryLower : jsstring) (limit : nat)
    (terms acc : list jsstring) :
  exists picked,
    Routes.suggest queryLower limit terms acc = acc ++ picked
    /\ sublist picked terms
    /\ Forall (fun t => includes (toLowerCase t) queryLower = true) picked
    /\ (length (acc ++ picked) <= Nat.max (length acc) limit)%nat
    /\ ((length acc + length terms <= limit)%nat ->
        picked
        = List.filter (fun t => includes (toLowerCase t) queryLower) terms).
Proof.
  unfold Routes.suggest. revert acc.
  induction terms as [|t terms IH]; intros acc; simpl.
  - exists []. rewrite app_nil_r. repeat split; try constructor; lia.
  - destruct (includes (toLowerCase t) queryLower) eqn:Ei; simpl.
    + destruct (length acc <? limit)%nat eqn:El.
      * destruct (IH (acc ++ [t])) as [picked [E [Hs [Hf [Hlen Hall]]]]].
        exists (t :: picked). rewrite E, <- app_assoc. simpl.
        split; [reflexivity|]. split; [now constructor|].
        split; [now constructor|].
        apply Nat.ltb_lt in El. rewrite !length_app in Hlen. simpl in Hlen.
        rewrite length_app. simpl.
        split; [lia|]. intros Hle. f_equal. apply Hall.
        rewrite length_app. simpl. lia.
      * destruct (IH acc) as [picked [E [Hs [Hf [Hlen Hall]]]]].
        exists picked. split; [exact E|]. split; [now constructor|].
        split; [exact Hf|]. split; [exact Hlen|].
        intros Hle. apply Nat.ltb_ge in El. lia.
    + destruct (IH acc) as [picked [E [Hs [Hf [Hlen Hall]]]]].
      exists picked. split; [exact E|]. split; [now constructor|].
      split; [exact Hf|]. split; [exact Hlen|].
      intros Hle. apply Hall. lia.
Qed.

End Engine.

End HitFacts.

(* ===================================================================== *)
(** * The search engine and its routes: properties of the code          *)
(* ===================================================================== *)

Section EngineProperties.
Import JSFacts SearchFacts FilterFacts QueryFacts HitFacts.
Context `{CaseMapping}.

(** X12. The results of a search are the matching records and no others:
    every record of a page is made of a record of the corpus that matches
    the term in the mode asked for, stands in a collection and a file that
    the filters let through, is tagged with the identifier and the name of
    that collection and the type of that file, and carries the score of
    its own text; a collection or file type filter that is given leaves
    only the records with that identifier or that type. Conversely the
    page of all the results holds every such record. *)
Theorem searchHadiths_returns_matches (m : Manager.State) (d : Data)
    (query : jsstring) (o : Options.t) (resp : Response.t) :
  Manager.data m = Some d ->
  emptyQuery query = false ->
  Manager.searchHadiths m query o = Some resp ->
  let term := toLowerCase (trim query) in
  let fits r :=
    exists c f h,
      In c (corpus d) /\ In f (files c) /\ In h (hadiths f)
      /\ Manager.skips (Options.collectionId o) (collectionId c) = false
      /\ Manager.skips (Options.fileType o) (fileType f) = false
      /\ Manager.matches (default false (Options.exactMatch o)) term h = true
      /\ r = {| Result.hadith := h;
                Result.collectionId := collectionId c;
                Result.collectionName := collectionName c;
                Result.fileType := fileType f;
                Result.relevanceScore :=
                  Manager.calculateRelevance (toLowerCase (text h)) term |} in
  Forall fits (Response.hadiths resp)
  /\ Forall
       (fun r =>
          (forall cid, Options.collectionId o = Some cid -> cid <> [] ->
                       Result.collectionId r = cid)
          /\ (forall ft, Options.fileType o = Some ft -> ft <> [] ->
                         Result.fileType r = ft))
       (Response.hadiths resp)
  /\ exists full,
       Manager.searchHadiths m query
         (Options.page o (Response.total (Response.pagination resp)) 0)
       = Some full
       /\ forall r, In r (Response.hadiths full) <-> fits r.
Proof.
  intros Hd Hq Hs term fits.
  assert (Hfits : forall r, In r (Response.hadiths resp) -> fits r).
  { intros r Hr. apply (hits_iff (corpus d) o term r).
    exact (page_hits m d query o resp r Hd Hq Hs Hr). }
  split; [now apply List.Forall_forall|]. split.
  - apply List.Forall_forall. intros r Hr.
    destruct (Hfits r Hr) as [c [f [h [_ [_ [_ [Ec [Ef [_ ->]]]]]]]]]. cbn.
    split.
    + intros cid E Hcid. rewrite E in Ec. now apply skips_false.
    + intros ft E Hft. rewrite E in Ef. now apply skips_false.
  - rewrite (searchHadiths_loaded m d query o Hd) in Hs. injection Hs as <-.
    cbn [Response.total Response.pagination].
    eexists. split; [apply (searchHadiths_loaded m d query _ Hd)|].
    intros r. cbn [Response.hadiths Options.offset Options.limit Options.page
                   default from_option].
    rewrite ranking_page, slice_all by (simpl; lia).
    unfold ranking. rewrite Hq, ranked_In. apply hits_iff.
Qed.

(** X13. A page of results holds [min(limit, total - offset)] records,
    and its [hasMore] is true exactly when the page that follows it is not
    empty; the two pages report the same total. This holds for every
    manager that holds a corpus, and for a blank query also before any
    corpus is loaded: a blank query is answered with an empty page, never
    with an error. *)
Theorem searchHadiths_page_size (m : Manager.State) (query : jsstring)
    (o : Options.t) (L offset : nat) :
  (1 <= L)%nat ->
  emptyQuery query = true \/ is_Some (Manager.data m) ->
  exists pg next,
    Manager.searchHadiths m query (Options.page o L offset) = Some pg
    /\ Manager.searchHadiths m query (Options.page o L (offset + L))
       = Some next
    /\ Response.total (Response.pagination next)
       = Response.total (Response.pagination pg)
    /\ length (Response.hadiths pg)
       = Nat.min L (Response.total (Response.pagination pg) - offset)
    /\ (Response.hasMore (Response.pagination pg) = true
        <-> Response.hadiths next <> [])
    /\ (emptyQuery query = true ->
        Response.hadiths pg = []
        /\ Response.total (Response.pagination pg) = 0%nat).
Proof.
  intros HL Hcase.
  destruct (emptyQuery query) eqn:Hq.
  - unfold Manager.searchHadiths. unfold emptyQuery in Hq. rewrite Hq.
    eexists. eexists. split; [reflexivity|]. split; [reflexivity|]. cbn.
    split; [reflexivity|]. split; [lia|]. split; [|auto].
    split; [discriminate | congruence].
  - destruct Hcase as [Hc | [d Hd]]; [discriminate Hc|].
    eexists. eexists.
    split; [apply (searchHadiths_loaded m d query _ Hd)|].
    split; [apply (searchHadiths_loaded m d query _ Hd)|].
    cbn [Response.total Response.pagination Response.hadiths Response.hasMore
         Options.offset Options.limit Options.page default from_option].
    rewrite !ranking_page. split; [reflexivity|].
    split; [apply slice_length|]. split; [|discriminate].
    apply (hasMore_next (ranking d query o) L offset HL).
Qed.

(** X14. A record of the results whose lower-cased text starts with the
    lower-cased term of the query has the relevance score 100. *)
Theorem prefix_match_scores_100 (m : Manager.State) (query : jsstring)
    (o : Options.t) (resp : Response.t) (r : Result.t) :
  Manager.searchHadiths m query o = Some resp ->
  In r (Response.hadiths resp) ->
  startsWith (toLowerCase (toLowerCase (text (Result.hadith r))))
             (toLowerCase (toLowerCase (trim query))) = true ->
  Result.relevanceScore r = num_of_Z 100.
Proof.
  intros Hs Hr Hstart.
  destruct (emptyQuery query) eqn:Hq.
  { unfold Manager.searchHadiths in Hs. unfold emptyQuery in Hq.
    rewrite Hq in Hs. injection Hs as <-. destruct Hr. }
  destruct (Manager.data m) as [d|] eqn:Hd.
  2:{ unfold Manager.searchHadiths in Hs. unfold emptyQuery in Hq.
      rewrite Hq, Hd in Hs. discriminate Hs. }
  pose proof (page_hits m d query o resp r Hd Hq Hs Hr) as Hhit.
  rewrite (hits_score _ _ _ _ Hhit).
  apply calculateRelevance_prefix; [|exact Hstart].
  intros E. rewrite E in Hstart.
  rewrite (proj2 (toLowerCase_empty []) eq_refl) in Hstart.
  destruct (toLowerCase (toLowerCase (trim query))) as [|x term] eqn:Et;
    [|discriminate Hstart].
  apply (proj1 (toLowerCase_empty _)) in Et.
  apply (proj1 (toLowerCase_empty _)) in Et.
  unfold emptyQuery in Hq. apply orb_false_iff in Hq as [_ Hq].
  rewrite Et in Hq. discriminate Hq.
Qed.

(** X15. The handler of [GET /search] on a loaded manager always answers.
    It answers 400 exactly for a blank query and for a collection that is
    asked for and that the corpus does not have. Otherwise it sends a
    page whose limit is the limit asked for (20 by default) capped at 100,
    which holds at most that many records, all of them from the
    collection that is asked for, if any. *)
Theorem search_route_validates
    (fs : Loader.FileSystem) (m0 m : Manager.State) (q : jsstring)
    (collection fileType' : option jsstring) (exact : option bool)
    (limit offset : option nat) :
  Manager.loadData fs m0 = Loader.Returned m ->
  exists d reply,
    Manager.data m = Some d
    /\ Routes.search m q collection fileType' exact limit offset = Some reply
    /\ (reply = Routes.BadRequest
        <-> emptyQuery q = true
            \/ exists cid, collection = Some cid /\ cid <> []
                           /\ ~ In cid (List.map collectionId (corpus d)))
    /\ reply <> Routes.NotFound
    /\ forall resp, reply = Routes.Sent resp ->
         Response.limit (Response.pagination resp)
         = Nat.min (default 20%nat limit) 100
         /\ (length (Response.hadiths resp)
             <= Nat.min (default 20%nat limit) 100)%nat
         /\ (length (Response.hadiths resp) <= 100)%nat
         /\ forall cid, collection = Some cid -> cid <> [] ->
              Forall (fun r => Result.collectionId r = cid)
                     (Response.hadiths resp).
Proof.
  intros Hload.
  destruct (loadData_state fs m0 m Hload) as [d [Hd [_ [_ [Hix _]]]]].
  exists d. unfold Routes.search.
  change (negb (truthy q) || (length (trim q) =? 0)%nat) with (emptyQuery q).
  destruct (emptyQuery q) eqn:Hq.
  { eexists. split; [exact Hd|]. split; [reflexivity|].
    split; [split; auto|]. split; discriminate. }
  set (bad := match collection with
              | Some collectionId0 =>
                  truthy collectionId0
                  && negb (bool_decide
                             (is_Some (ManagerQueries.collectionOf m
                                         collectionId0)))
              | None => false
              end).
  assert (Hbad : bad = true
                 <-> exists cid, collection = Some cid /\ cid <> []
                       /\ ~ In cid (List.map collectionId (corpus d))).
  { unfold bad. destruct collection as [cid|].
    - rewrite andb_true_iff, negb_true_iff, bool_decide_eq_false.
      rewrite (collectionOf_is_Some m d cid Hd Hix). split.
      + intros [Ht Hout]. exists cid. split; [reflexivity|].
        split; [|exact Hout]. intros ->. discriminate Ht.
      + intros [cid' [E [Hne Hout]]]. injection E as <-.
        split; [|exact Hout]. destruct cid; [congruence | reflexivity].
    - split; [discriminate|]. intros [cid [E _]]. discriminate E. }
  destruct bad eqn:Eb.
  { eexists. split; [exact Hd|]. split; [reflexivity|].
    split; [split; [intros _; right; now apply Hbad | reflexivity]|].
    split; discriminate. }
  rewrite (searchHadiths_loaded m d q _ Hd).
  eexists. split; [exact Hd|]. split; [reflexivity|]. split.
  { split; [discriminate|]. intros [Hc | Hc]; [discriminate Hc|].
    apply Hbad in Hc. discriminate Hc. }
  split; [discriminate|].
  intros resp E. injection E as <-.
  cbn [Response.limit Response.pagination Response.hadiths Options.limit
       Options.offset default from_option].
  split; [reflexivity|]. split; [rewrite slice_length; lia|].
  split; [rewrite slice_length; lia|].
  intros cid E Hcid. apply List.Forall_forall. intros r Hr.
  apply slice_In in Hr. unfold ranking in Hr. rewrite Hq in Hr.
  apply ranked_In, hits_iff in Hr
    as [c [f [h [_ [_ [_ [Ec [_ [_ ->]]]]]]]]].
  cbn in *. rewrite E in Ec. now apply skips_false.
Qed.

(** X16. The suggestions start with the query itself. What follows are
    common terms, in the order of the list of the handler, whose lower
    case contains the lower-cased query; there are at most [limit]
    suggestions (10 by default) in all, and from a limit of 11 on every
    common term that contains the query is suggested. *)
Theorem suggestions_start_with_query (query : jsstring)
    (limit : option nat) :
  (1 <= default 10%nat limit)%nat ->
  exists picked,
    Routes.suggestions query limit = (query :: picked, query)
    /\ sublist picked Routes.commonTerms
    /\ Forall (fun t => includes (toLowerCase t) (toLowerCase query) = true)
              picked
    /\ (length (query :: picked) <= default 10%nat limit)%nat
    /\ ((11 <= default 10%nat limit)%nat ->
        picked
        = List.filter
            (fun t => includes (toLowerCase t) (toLowerCase query))
            Routes.commonTerms).
Proof.
  intros Hl. unfold Routes.suggestions.
  destruct (suggest_spec (toLowerCase query) (default 10%nat limit)
              Routes.commonTerms [query])
    as [picked [E [Hs [Hf [Hlen Hall]]]]].
  exists picked. rewrite E. simpl app in *. simpl length in Hlen, Hall.
  assert (Hle : (length (query :: picked) <= default 10%nat limit)%nat)
    by (simpl in *; lia).
  split; [|split; [exact Hs|split; [exact Hf|split; [exact Hle|]]]].
  - f_equal. now apply slice_all.
  - intros H11. apply Hall. lia.
Qed.

(** X17. Every record that the advanced search returns passes every
    filter of the request: its collection is one of [collections] and its
    file type one of [fileTypes] when these are not empty, its
    [textLength] lies between [minLength] and [maxLength] where these are
    given, and its diacritics flag is the one asked for, if any. The
    total of the pagination is [resultsAfterFiltering], which is at most
    [resultsBeforeFiltering]; bounds that contradict each other leave
    nothing. *)
Theorem advancedSearch_results_pass_filters (m : Manager.State)
    (b : SearchRoutes.AdvancedBody) (resp : SearchRoutes.AdvancedResponse) :
  SearchRoutes.advancedSearch m b = Some resp ->
  Forall
    (fun r =>
       (SearchRoutes.collections b <> [] ->
        In (Result.collectionId r) (SearchRoutes.collections b))
       /\ (SearchRoutes.fileTypes b <> [] ->
           In (Result.fileType r) (SearchRoutes.fileTypes b))
       /\ (forall mn, SearchRoutes.minLength b = Some mn ->
                      mn <= textLength (Result.hadith r))
       /\ (forall mx, SearchRoutes.maxLength b = Some mx ->
                      textLength (Result.hadith r) <= mx)
       /\ (forall flag, SearchRoutes.hasFullDiacritics b = Some flag ->
                        Model.hasFullDiacritics (Result.hadith r) = flag))
    (SearchRoutes.hadiths resp)
  /\ Response.total (SearchRoutes.pagination resp)
     = SearchRoutes.resultsAfterFiltering (SearchRoutes.filters resp)
  /\ (SearchRoutes.resultsAfterFiltering (SearchRoutes.filters resp)
      <= SearchRoutes.resultsBeforeFiltering (SearchRoutes.filters resp))%nat
  /\ (length (SearchRoutes.hadiths resp)
      <= SearchRoutes.resultsAfterFiltering (SearchRoutes.filters resp))%nat
  /\ (forall mn mx,
        SearchRoutes.minLength b = Some mn ->
        SearchRoutes.maxLength b = Some mx -> mx < mn ->
        SearchRoutes.hadiths resp = []
        /\ Response.total (SearchRoutes.pagination resp) = 0%nat).
Proof.
  unfold SearchRoutes.advancedSearch.
  destruct (Manager.searchHadiths m _ _) as [base|]; [|discriminate].
  intros E. injection E as <-. cbn.
  assert (Hkeep : forall r, SearchRoutes.keeps b r = true ->
            (SearchRoutes.collections b <> [] ->
             In (Result.collectionId r) (SearchRoutes.collections b))
            /\ (SearchRoutes.fileTypes b <> [] ->
                In (Result.fileType r) (SearchRoutes.fileTypes b))
            /\ (forall mn, SearchRoutes.minLength b = Some mn ->
                           mn <= textLength (Result.hadith r))
            /\ (forall mx, SearchRoutes.maxLength b = Some mx ->
                           textLength (Result.hadith r) <= mx)
            /\ (forall flag, SearchRoutes.hasFullDiacritics b = Some flag ->
                             Model.hasFullDiacritics (Result.hadith r) = flag)).
  { intros r Hk. rewrite keeps_conjunction in Hk.
    repeat (apply andb_true_iff in Hk as [Hk ?]).
    assert (Hinc : forall a s, SearchRoutes.includesString a s = true ->
                               In s a).
    { intros a s Hi. apply existsb_exists in Hi as [x [Hx Hi]].
      apply bool_decide_eq_true in Hi. now subst. }
    split; [|split; [|split; [|split]]].
    - intros Hne. unfold passCollections in Hk.
      destruct (SearchRoutes.collections b); [congruence | now apply Hinc].
    - intros Hne. unfold passFileTypes in H3.
      destruct (SearchRoutes.fileTypes b); [congruence | now apply Hinc].
    - intros mn Emn. unfold passMinLength in H2. rewrite Emn in H2.
      now apply Z.leb_le.
    - intros mx Emx. unfold passMaxLength in H1. rewrite Emx in H1.
      now apply Z.leb_le.
    - intros flag Ef. unfold passDiacritics in H0. rewrite Ef in H0.
      now apply Bool.eqb_prop. }
  split.
  { apply List.Forall_forall. intros r Hr. apply slice_In in Hr.
    apply filter_In in Hr as [_ Hk]. now apply Hkeep. }
  split; [reflexivity|].
  split; [apply sublist_length, filter_sublist|].
  split; [apply sublist_length, slice_sublist|].
  intros mn mx Emn Emx Hlt.
  assert (Hnil : List.filter (SearchRoutes.keeps b) (Response.hadiths base)
                 = []).
  { destruct (List.filter _ _) as [|r rs] eqn:Ef; [reflexivity|].
    assert (Hr : In r (List.filter (SearchRoutes.keeps b)
                                    (Response.hadiths base)))
      by (rewrite Ef; now left).
    apply filter_In in Hr as [_ Hk].
    destruct (Hkeep r Hk) as [_ [_ [Hmn [Hmx _]]]].
    specialize (Hmn mn Emn). specialize (Hmx mx Emx). lia. }
  rewrite Hnil, slice_nil. split; reflexivity.
Qed.

End EngineProperties.

Section EngineWitnesses.
Import SearchFacts.

Lemma searchHadiths_returns_matches_witness :
  exists resp,
    Manager.searchHadiths (H := latin1Case) SampleSearch.manager (lit "ab")
      {| Options.collectionId := Some (lit "b"); Options.fileType := None;
         Options.limit := None; Options.offset := None;
         Options.exactMatch := None |} = Some resp
    /\ length (Response.hadiths resp) = 1%nat
    /\ Forall (fun r => Result.collectionId r = lit "b")
              (Response.hadiths resp).
Proof.
  set (o := {| Options.collectionId := Some (lit "b");
               Options.fileType := None; Options.limit := None;
               Options.offset := None; Options.exactMatch := None |}).
  destruct (Manager.searchHadiths (H := latin1Case) SampleSearch.manager
              (lit "ab") o) as [resp|] eqn:E;
    [|vm_compute in E; discriminate E].
  destruct (searchHadiths_returns_matches (H := latin1Case)
              SampleSearch.manager Sample.unified (lit "ab") o resp
              sample_data eq_refl E) as [_ [Hf _]].
  exists resp. split; [reflexivity|]. split.
  - vm_compute in E. injection E as <-. reflexivity.
  - eapply Forall_impl; [exact Hf|]. intros r [Hr _].
    apply (Hr (lit "b")); [reflexivity | discriminate].
Defined.

Lemma prefix_match_scores_100_witness :
  exists resp r,
    Manager.searchHadiths (H := latin1Case) SampleSearch.manager (lit "AB")
                          Options.none = Some resp
    /\ Response.hadiths resp !! 0%nat = Some r
    /\ text (Result.hadith r) = lit "ab"
    /\ Result.relevanceScore r = num_of_Z 100.
Proof.
  destruct (Manager.searchHadiths (H := latin1Case) SampleSearch.manager
              (lit "AB") Options.none) as [resp|] eqn:E;
    [|vm_compute in E; discriminate E].
  destruct (Response.hadiths resp !! 0%nat) as [r|] eqn:Er;
    [|vm_compute in E; injection E as <-; discriminate Er].
  assert (Ht : text (Result.hadith r) = lit "ab").
  { vm_compute in E. injection E as <-. vm_compute in Er.
    injection Er as <-. reflexivity. }
  exists resp, r. split; [reflexivity|]. split; [exact Er|].
  split; [exact Ht|].
  apply (prefix_match_scores_100 (H := latin1Case) SampleSearch.manager
           (lit "AB") Options.none resp r E).
  - apply list_elem_of_In. eapply list_elem_of_lookup_2. exact Er.
  - rewrite Ht. vm_compute. reflexivity.
Defined.

Lemma search_route_validates_witness :
  Routes.search (H := latin1Case) SampleSearch.manager (lit "ab")
    (Some (lit "zz")) None None None None = Some Routes.BadRequest.
Proof.
  destruct (search_route_validates (H := latin1Case) Sample.fsUnified
              Manager.init SampleSearch.manager (lit "ab") (Some (lit "zz"))
              None None None None sample_loaded)
    as [d [reply [Hd [Hr [Hbad _]]]]].
  assert (Hdd : d = Sample.unified).
  { rewrite sample_data in Hd. now injection Hd. }
  subst d. rewrite Hr. f_equal. apply Hbad. right.
  exists (lit "zz"). split; [reflexivity|]. split; [discriminate|].
  vm_compute. intuition discriminate.
Defined.

Lemma suggestions_start_with_query_witness :
  exists picked,
    Routes.suggestions (H := latin1Case) [1575; 1604]%N (Some 3%nat)
    = ([1575; 1604]%N :: picked, [1575; 1604]%N)
    /\ (length ([1575; 1604]%N :: picked) <= 3)%nat.
Proof.
  destruct (suggestions_start_with_query (H := latin1Case) [1575; 1604]%N
              (Some 3%nat) ltac:(simpl; lia))
    as [picked [E [_ [_ [Hlen _]]]]].
  exists picked. split; [exact E | exact Hlen].
Defined.

Lemma advancedSearch_results_pass_filters_witness :
  exists resp,
    SearchRoutes.advancedSearch (H := latin1Case) SampleSearch.manager
      {| SearchRoutes.query := lit "ab"; SearchRoutes.collections := [];
         SearchRoutes.fileTypes := []; SearchRoutes.minLength := Some 3;
         SearchRoutes.maxLength := None;
         SearchRoutes.hasFullDiacritics := None;
         SearchRoutes.limit := None; SearchRoutes.offset := None |}
    = Some resp
    /\ length (SearchRoutes.hadiths resp) = 1%nat
    /\ Forall (fun r => 3 <= textLength (Result.hadith r))
              (SearchRoutes.hadiths resp).
Proof.
  set (b := {| SearchRoutes.query := lit "ab"; SearchRoutes.collections := [];
               SearchRoutes.fileTypes := []; SearchRoutes.minLength := Some 3;
               SearchRoutes.maxLength := None;
               SearchRoutes.hasFullDiacritics := None;
               SearchRoutes.limit := None; SearchRoutes.offset := None |}).
  destruct (SearchRoutes.advancedSearch (H := latin1Case)
              SampleSearch.manager b) as [resp|] eqn:E;
    [|vm_compute in E; discriminate E].
  destruct (advancedSearch_results_pass_filters (H := latin1Case)
              SampleSearch.manager b resp E) as [Hf _].
  exists resp. split; [reflexivity|]. split.
  - vm_compute in E. injection E as <-. reflexivity.
  - eapply Forall_impl; [exact Hf|]. intros r [_ [_ [Hmn _]]].
    now apply (Hmn 3).
Defined.


Lemma searchHadiths_page_size_witness :
  exists pg next,
    Manager.searchHadiths (H := latin1Case) SampleSearch.manager (lit "ab")
      (Options.page Options.none 1 0) = Some pg
    /\ Manager.searchHadiths (H := latin1Case) SampleSearch.manager (lit "ab")
         (Options.page Options.none 1 1) = Some next
    /\ length (Response.hadiths pg) = 1%nat
    /\ Response.hasMore (Response.pagination pg) = true
    /\ Response.hadiths next <> [].
Proof.
  destruct (searchHadiths_page_size (H := latin1Case) SampleSearch.manager
              (lit "ab") Options.none 1 0 ltac:(lia)
              ltac:(right; vm_compute; eauto))
    as [pg [next [Hpg [Hnext [_ [Hlen [Hmore _]]]]]]].
  exists pg, next. split; [exact Hpg|]. split; [exact Hnext|].
  assert (Ht : Response.total (Response.pagination pg) = 2%nat).
  { vm_compute in Hpg. injection Hpg as <-. reflexivity. }
  rewrite Ht in Hlen. split; [exact Hlen|].
  assert (Hm : Response.hasMore (Response.pagination pg) = true).
  { vm_compute in Hpg. injection Hpg as <-. reflexivity. }
  split; [exact Hm | now apply Hmore].
Defined.

End EngineWitnesses.

(* ===================================================================== *)
(** * Facts about the distribution of the lengths                       *)
(* ===================================================================== *)

Module DistributionFacts.
Import JSFacts StatsRoutes StatsFacts StatsSpec.

Lemma countIf_Permutation (f : Z -> bool) (a b : list Z) :
  Permutation a b -> countIf f a = countIf f b.
Proof.
  unfold countIf. induction 1 as [|x a b _ IH|x y a|a b c _ IH1 _ IH2];
    simpl; try reflexivity.
  - destruct (f x); simpl; now rewrite IH.
  - destruct (f x), (f y); reflexivity.
  - now rewrite IH1.
Qed.

(** Every length falls into exactly one of the five ranges. *)
Lemma ranges_partition (a : list Z) :
  (countIf (fun l => l <? 100)%Z a
   + countIf (fun l => (100 <=? l) && (l <? 300))%Z a
   + countIf (fun l => (300 <=? l) && (l <? 600))%Z a
   + countIf (fun l => (600 <=? l) && (l <? 1000))%Z a
   + countIf (fun l => 1000 <=? l)%Z a)%nat = length a.
Proof.
  unfold countIf. induction a as [|x a IH]; [reflexivity|]. simpl.
  destruct (x <? 100) eqn:E1, (100 <=? x) eqn:E2, (x <? 300) eqn:E3,
    (300 <=? x) eqn:E4, (x <? 600) eqn:E5, (600 <=? x) eqn:E6,
    (x <? 1000) eqn:E7, (1000 <=? x) eqn:E8; simpl; try lia;
    exfalso;
    rewrite ?Z.ltb_lt, ?Z.ltb_ge, ?Z.leb_le, ?Z.leb_gt in *; lia.
Qed.

(** What the handler answers on a scope that is not empty. *)
Lemma distribution_of (m : Manager.State) (cid ft : option jsstring)
    (lengths : list Z) :
  lengthsInScope m cid ft = Some lengths -> lengths <> [] ->
  distribution m cid ft
  = Some (Some
      (let allLengths := sort ascending lengths in
       let total := length allLengths in
       {| ranges :=
            {| range_0_99 := countIf (fun l => l <? 100) allLengths;
               range_100_299 :=
                 countIf (fun l => (100 <=? l) && (l <? 300)) allLengths;
               range_300_599 :=
                 countIf (fun l => (300 <=? l) && (l <? 600)) allLengths;
               range_600_999 :=
                 countIf (fun l => (600 <=? l) && (l <? 1000)) allLengths;
               range_1000 := countIf (fun l => 1000 <=? l) allLengths |};
          total := total;
          mean := round (div (num_of_Z (fold_left Z.add allLengths 0))
                             (num_of_nat total));
          median := at_index allLengths (Z.of_nat (total / 2));
          min := allLengths !! 0%nat;
          max := allLengths !! (total - 1)%nat;
          percentiles :=
            List.map
              (fun p => (p, at_index allLengths (percentileIndex p total)))
              ladder |})).
Proof.
  intros Hs Hne. unfold distribution. rewrite Hs.
  destruct lengths; [congruence | reflexivity].
Qed.

Lemma distribution_scope (m : Manager.State) (cid ft : option jsstring)
    (dist : Distribution) :
  distribution m cid ft = Some (Some dist) ->
  exists lengths,
    lengthsInScope m cid ft = Some lengths /\ lengths <> [].
Proof.
  unfold distribution.
  destruct (lengthsInScope m cid ft) as [lengths|]; [|discriminate].
  destruct lengths as [|x l]; [discriminate|]. intros _.
  exists (x :: l). split; [reflexivity | discriminate].
Qed.

(** In an ascending array a later element is not smaller. *)
Lemma sorted_lookup_le (a : list Z) (i j : nat) (x y : Z) :
  StronglySorted Z.le a -> (i <= j)%nat ->
  a !! i = Some x -> a !! j = Some y -> x <= y.
Proof.
  intros Hs. revert i j. induction Hs as [|z a Hs IH Hz]; intros i j Hij Hi Hj.
  - discriminate Hi.
  - destruct i as [|i], j as [|j]; simpl in *.
    + injection Hi as <-. injection Hj as <-. lia.
    + injection Hi as <-. rewrite List.Forall_forall in Hz. apply Hz.
      apply list_elem_of_In. eapply list_elem_of_lookup_2. exact Hj.
    + lia.
    + apply (IH i j); [lia | assumption | assumption].
Qed.

End DistributionFacts.

(* ===================================================================== *)
(** * The statistics routes: properties of the code                     *)
(* ===================================================================== *)

Section DistributionProperties.
Import JSFacts StatsRoutes StatsFacts StatsSpec DistributionFacts QueryFacts.

(** X18. The five ranges of the length distribution are a partition of
    the lengths in scope: each count is the number of lengths of the scope
    that fall into the range, and the five counts add up to the total,
    which is the number of records in scope. *)
Theorem distribution_ranges_partition (m : Manager.State)
    (collectionId' fileType' : option jsstring) (dist : Distribution) :
  distribution m collectionId' fileType' = Some (Some dist) ->
  exists lengths,
    lengthsInScope m collectionId' fileType' = Some lengths
    /\ total dist = length lengths
    /\ rangesTotal (ranges dist) = total dist
    /\ range_0_99 (ranges dist) = countIf (fun l => l <? 100) lengths
    /\ range_100_299 (ranges dist)
       = countIf (fun l => (100 <=? l) && (l <? 300)) lengths
    /\ range_300_599 (ranges dist)
       = countIf (fun l => (300 <=? l) && (l <? 600)) lengths
    /\ range_600_999 (ranges dist)
       = countIf (fun l => (600 <=? l) && (l <? 1000)) lengths
    /\ range_1000 (ranges dist) = countIf (fun l => 1000 <=? l) lengths.
Proof.
  intros Hdist.
  destruct (distribution_scope _ _ _ _ Hdist) as [lengths [Hs Hne]].
  rewrite (distribution_of m _ _ lengths Hs Hne) in Hdist.
  injection Hdist as <-. exists lengths. split; [exact Hs|].
  cbn [total ranges]. unfold rangesTotal.
  cbn [range_0_99 range_100_299 range_300_599 range_600_999 range_1000].
  pose proof (sort_Permutation ascending lengths) as Hperm.
  split; [apply sort_length|]. split; [apply ranges_partition|].
  repeat split; now apply countIf_Permutation.
Qed.

Lemma distribution_ranges_partition_witness :
  exists dist,
    distribution SampleSearch.manager None None = Some (Some dist)
    /\ total dist = 3%nat
    /\ rangesTotal (ranges dist) = 3%nat.
Proof.
  destruct (distribution SampleSearch.manager None None) as [[dist|]|] eqn:E;
    try (vm_compute in E; discriminate E).
  destruct (distribution_ranges_partition SampleSearch.manager None None dist
              E) as [lengths [Hs [Ht [Hr _]]]].
  exists dist. split; [reflexivity|].
  assert (Hl : lengths = [2; 2; 5]).
  { vm_compute in Hs. now injection Hs. }
  subst lengths. split; [exact Ht | now rewrite Hr].
Defined.

(** X19. For a scope that is not empty (an array holds fewer than 2^32
    elements), the distribution reports as [min] and [max] the least and
    the greatest length of the scope; the percentiles p10, p25, p50, p75,
    p90, p95 and p99 are all defined, never decrease along the ladder,
    and lie between [min] and [max]; the median is the percentile p50. *)
Theorem distribution_order_statistics (m : Manager.State)
    (collectionId' fileType' : option jsstring) (dist : Distribution)
    (lengths : list Z) :
  lengthsInScope m collectionId' fileType' = Some lengths ->
  distribution m collectionId' fileType' = Some (Some dist) ->
  Z.of_nat (length lengths) < 2 ^ 32 ->
  exists lo hi values,
    min dist = Some lo /\ max dist = Some hi
    /\ In lo lengths /\ In hi lengths
    /\ Forall (fun l => lo <= l <= hi) lengths
    /\ percentileValues dist = List.map Some values
    /\ length values = 7%nat
    /\ StronglySorted Z.le values
    /\ Forall (fun v => lo <= v <= hi /\ In v lengths) values
    /\ median dist = values !! 2%nat.
Proof.
  intros Hs Hdist Hlt.
  destruct (distribution_scope _ _ _ _ Hdist) as [lengths' [Hs' Hne]].
  rewrite Hs in Hs'. injection Hs' as <-.
  rewrite (distribution_of m _ _ lengths Hs Hne) in Hdist.
  injection Hdist as <-. cbv zeta.
  destruct (sort_ascending lengths) as [Hperm Hsorted].
  pose proof (sort_length ascending lengths) as Hsl.
  set (sorted := sort ascending lengths) in *.
  set (n := length lengths) in *.
  assert (Hn : (1 <= n)%nat).
  { unfold n. destruct lengths; [congruence | simpl; lia]. }
  assert (Hin : forall i v, sorted !! i = Some v -> In v lengths).
  { intros i v Hv. apply (Permutation_in _ Hperm).
    apply list_elem_of_In. eapply list_elem_of_lookup_2. exact Hv. }
  assert (Hidx : forall p, In p ladder ->
            0 <= p * Z.of_nat n / 100 < Z.of_nat n).
  { intros p Hp.
    assert (1 <= p <= 99) by (unfold ladder in Hp; simpl in Hp; lia).
    assert (0 < Z.of_nat n) by lia.
    split; [apply Z.div_pos; nia|]. apply Z.div_lt_upper_bound; nia. }
  assert (Hval : forall p, In p ladder ->
            at_index sorted (percentileIndex p n)
            = sorted !! Z.to_nat (p * Z.of_nat n / 100)).
  { intros p Hp.
    rewrite (percentileIndex_exact p n Hp Hn Hlt). unfold at_index.
    replace (p * Z.of_nat n / 100 <? 0) with false
      by (symmetry; apply Z.ltb_ge; apply Hidx; exact Hp).
    reflexivity. }
  destruct (lookup_lt_is_Some_2 sorted 0) as [lo Hlo]; [lia|].
  destruct (lookup_lt_is_Some_2 sorted (n - 1)) as [hi Hhi]; [lia|].
  assert (Hbound : forall i v, sorted !! i = Some v -> lo <= v <= hi).
  { intros i v Hv. pose proof (lookup_lt_Some _ _ _ Hv) as Hi. split.
    - apply (sorted_lookup_le sorted 0 i lo v Hsorted); [lia | auto | auto].
    - apply (sorted_lookup_le sorted i (n - 1) v hi Hsorted);
        [lia | auto | auto]. }
  set (at_p := fun p => Z.to_nat (p * Z.of_nat n / 100)).
  assert (Hat : forall p, In p ladder ->
            exists v, sorted !! at_p p = Some v).
  { intros p Hp. apply lookup_lt_is_Some_2. unfold at_p.
    destruct (Hidx p Hp). lia. }
  assert (Hmono : forall p q, In p ladder -> In q ladder -> p <= q ->
            (at_p p <= at_p q)%nat).
  { intros p q Hp Hq Hpq. unfold at_p.
    assert (1 <= p <= 99) by (unfold ladder in Hp; simpl in Hp; lia).
    assert (1 <= q <= 99) by (unfold ladder in Hq; simpl in Hq; lia).
    apply Z2Nat.inj_le.
    - apply Z.div_pos; [nia | lia].
    - apply Z.div_pos; [nia | lia].
    - apply Z.div_le_mono; [lia | nia]. }
  destruct (Hat 10) as [v10 H10]; [simpl; tauto|].
  destruct (Hat 25) as [v25 H25]; [simpl; tauto|].
  destruct (Hat 50) as [v50 H50]; [simpl; tauto|].
  destruct (Hat 75) as [v75 H75]; [simpl; tauto|].
  destruct (Hat 90) as [v90 H90]; [simpl; tauto|].
  destruct (Hat 95) as [v95 H95]; [simpl; tauto|].
  destruct (Hat 99) as [v99 H99]; [simpl; tauto|].
  exists lo, hi, [v10; v25; v50; v75; v90; v95; v99].
  cbn [min max median percentiles total].
  fold sorted. rewrite Hsl. fold n.
  split; [exact Hlo|]. split; [exact Hhi|].
  split; [now apply (Hin 0%nat)|]. split; [now apply (Hin (n - 1)%nat)|].
  split.
  { apply List.Forall_forall. intros l Hl.
    apply (Permutation_in _ (Permutation_sym Hperm)) in Hl.
    apply list_elem_of_In, list_elem_of_lookup in Hl as [i Hi].
    now apply (Hbound i). }
  split.
  { unfold percentileValues. cbn [percentiles List.map snd].
    rewrite !Hval by (simpl; tauto). fold (at_p 10) (at_p 25) (at_p 50)
      (at_p 75) (at_p 90) (at_p 95) (at_p 99).
    now rewrite H10, H25, H50, H75, H90, H95, H99. }
  split; [reflexivity|].
  assert (Hle : forall p q vp vq, In p ladder -> In q ladder -> p <= q ->
            sorted !! at_p p = Some vp -> sorted !! at_p q = Some vq ->
            vp <= vq).
  { intros p q vp vq Hp Hq Hpq Hvp Hvq.
    apply (sorted_lookup_le sorted (at_p p) (at_p q) vp vq Hsorted);
      [now apply Hmono | auto | auto]. }
  split.
  { repeat constructor;
      match goal with
      | Hx : sorted !! at_p ?p = Some ?x,
        Hy : sorted !! at_p ?q = Some ?y |- ?x <= ?y =>
          apply (Hle p q x y);
          [simpl; tauto | simpl; tauto | lia | exact Hx | exact Hy]
      end. }
  split.
  { repeat constructor;
      try (eapply Hbound; eassumption); try (eapply Hin; eassumption). }
  unfold at_index. change (fst (Nat.divmod n 1 0 1)) with (n / 2)%nat.
  replace (Z.of_nat (n / 2) <? 0) with false
    by (symmetry; apply Z.ltb_ge; lia).
  change ([v10; v25; v50; v75; v90; v95; v99] !! 2%nat) with (Some v50).
  rewrite <- H50. f_equal. unfold at_p. f_equal.
  rewrite Nat2Z.inj_div. change (Z.of_nat 2) with 2. generalize (Z.of_nat n). clear. intros z.
  pose proof (Z.div_mod z 2 ltac:(lia)).
  pose proof (Z.mod_pos_bound z 2 ltac:(lia)).
  apply (Z.div_unique _ _ _ (50 * (z mod 2))); lia.
Qed.

Lemma distribution_order_statistics_witness :
  exists dist,
    distribution SampleSearch.manager None None = Some (Some dist)
    /\ min dist = Some 2 /\ max dist = Some 5
    /\ exists values,
         percentileValues dist = List.map Some values
         /\ StronglySorted Z.le values.
Proof.
  destruct (distribution SampleSearch.manager None None) as [[dist|]|] eqn:E;
    try (vm_compute in E; discriminate E).
  destruct (distribution_order_statistics SampleSearch.manager None None dist
              [2; 2; 5] ltac:(vm_compute; reflexivity) E
              ltac:(simpl; lia))
    as [lo [hi [values [_ [_ [_ [_ [_ [Hv [_ [Hs _]]]]]]]]]]].
  exists dist. split; [reflexivity|].
  split; [vm_compute in E; injection E as <-; reflexivity|].
  split; [vm_compute in E; injection E as <-; reflexivity|].
  exists values. split; [exact Hv | exact Hs].
Defined.

(** X20. The distribution answers that there is no data exactly when no
    record is in scope, which is the case for a collection that the
    loaded corpus does not have and for a file type that no file of the
    corpus has; on a loaded manager the handler always answers. *)
Theorem distribution_of_empty_scope
    (fs : Loader.FileSystem) (m0 m : Manager.State)
    (collectionId' fileType' : option jsstring) :
  Manager.loadData fs m0 = Loader.Returned m ->
  exists d lengths,
    Manager.data m = Some d
    /\ lengthsInScope m collectionId' fileType' = Some lengths
    /\ (distribution m collectionId' fileType' = Some None
        <-> lengths = [])
    /\ (exists answer, distribution m collectionId' fileType' = Some answer)
    /\ (forall cid, collectionId' = Some cid -> cid <> [] ->
          ~ In cid (List.map collectionId (corpus d)) -> lengths = [])
    /\ (forall ft, fileType' = Some ft -> ft <> [] ->
          (forall c f, In c (corpus d) -> In f (files c) ->
                       fileType f <> ft) ->
          lengths = []).
Proof.
  intros Hload.
  destruct (loadData_state fs m0 m Hload) as [d [Hd [_ [_ [Hix _]]]]].
  exists d. unfold distribution.
  destruct (lengthsInScope m collectionId' fileType') as [lengths|] eqn:Hs.
  2:{ unfold lengthsInScope in Hs. rewrite Hd in Hs. discriminate Hs. }
  exists lengths. split; [exact Hd|]. split; [reflexivity|].
  split; [|split; [|split]].
  - destruct lengths; simpl; split; congruence.
  - destruct lengths; simpl; eauto.
  - intros cid -> Hne Hout. unfold lengthsInScope in Hs. rewrite Hd in Hs.
    destruct cid as [|x cid]; [congruence|]. cbn [truthy] in Hs.
    change (match Manager.getCollection m (x :: cid) with
            | Some r => Manager.deref m r
            | None => None
            end) with (ManagerQueries.collectionOf m (x :: cid)) in Hs.
    rewrite (proj1 (collectionOf_loaded m d _ Hd Hix) Hout) in Hs.
    now injection Hs.
  - intros ft -> Hne Hnone. unfold lengthsInScope in Hs. rewrite Hd in Hs.
    injection Hs as <-.
    assert (Hfiles : forall c, In c (corpus d) ->
              flat_map
                (fun file =>
                   if Manager.skips (Some ft) (fileType file) then []
                   else List.map textLength (hadiths file))
                (files c) = []).
    { intros c Hc. specialize (Hnone c).
      induction (files c) as [|f fl IH]; [reflexivity|]. cbn [flat_map].
      assert (Hsk : Manager.skips (Some ft) (fileType f) = true).
      { unfold Manager.skips. destruct ft as [|y ft]; [congruence|]. simpl.
        apply negb_true_iff, bool_decide_eq_false.
        apply Hnone; [exact Hc | now left]. }
      rewrite Hsk. cbn [app]. apply IH. intros f' Hc' Hf'. apply Hnone; [exact Hc'|].
      now right. }
    assert (Hall : forall cs : list (option Collection),
              (forall c, In (Some c) cs -> In c (corpus d)) ->
              flat_map
                (fun collection =>
                   match collection with
                   | Some collection =>
                       flat_map
                         (fun file =>
                            if Manager.skips (Some ft) (fileType file) then []
                            else List.map textLength (hadiths file))
                         (files collection)
                   | None => []
                   end) cs = []).
    { induction cs as [|oc cs IH]; intros Hcs; [reflexivity|].
      cbn [flat_map]. rewrite IH by (intros c Hc; apply Hcs; now right).
      rewrite app_nil_r. destruct oc as [c|]; [|reflexivity].
      apply Hfiles. apply Hcs. now left. }
    apply Hall. intros c Hc.
    destruct collectionId' as [cid|].
    + destruct (truthy cid).
      * destruct Hc as [Hc | []].
        change (match Manager.getCollection m cid with
                | Some r => Manager.deref m r
                | None => None
                end) with (ManagerQueries.collectionOf m cid) in Hc.
        now apply (proj2 (proj2 (collectionOf_loaded m d cid Hd Hix)) c).
      * apply in_map_iff in Hc as [c' [E Hc']]. now injection E as <-.
    + apply in_map_iff in Hc as [c' [E Hc']]. now injection E as <-.
Qed.

Lemma distribution_of_empty_scope_witness :
  distribution SampleSearch.manager (Some (lit "zz")) None = Some None.
Proof.
  destruct (distribution_of_empty_scope Sample.fsUnified Manager.init
              SampleSearch.manager (Some (lit "zz")) None sample_loaded)
    as [d [lengths [Hd [_ [Hiff [_ [Hcid _]]]]]]].
  assert (Hdd : d = Sample.unified).
  { rewrite sample_data in Hd. now injection Hd. }
  subst d. apply Hiff. apply (Hcid (lit "zz")); [reflexivity | discriminate|].
  vm_compute. intuition discriminate.
Defined.

End DistributionProperties.

(* ===================================================================== *)
(** * Facts about the search index                                      *)
(* ===================================================================== *)

Module IndexFacts.
Import LoaderFacts.

Section Folds.
Import ManagerQueries.

Lemma fold_flat_map {A B C} (f : C -> B -> C) (g : A -> list B)
    (l : list A) (c : C) :
  fold_left f (flat_map g l) c = fold_left (fun c x => fold_left f (g x) c) l c.
Proof.
  revert c. induction l as [|x l IH]; intros c; simpl; [reflexivity|].
  now rewrite fold_left_app, IH.
Qed.

Lemma fold_map {A B C} (f : C -> B -> C) (h : A -> B) (l : list A) (c : C) :
  fold_left f (List.map h l) c = fold_left (fun c x => f c (h x)) l c.
Proof.
  revert c. induction l as [|x l IH]; intros c; simpl; [reflexivity|].
  apply IH.
Qed.

Lemma setEach_dom (l : list (jsstring * IndexEntry)) (index : gmap jsstring IndexEntry) (k : jsstring) :
  is_Some (setEach l index !! k)
  <-> In k (List.map fst l) \/ is_Some (index !! k).
Proof.
  unfold setEach. revert index.
  induction l as [|[k0 v0] l IH]; intros index; simpl; [tauto|].
  rewrite IH. destruct (decide (k0 = k)) as [<- | Hne].
  - rewrite lookup_insert_eq. split; [tauto|]. intros _. right. eauto.
  - rewrite lookup_insert_ne by exact Hne. tauto.
Qed.

Lemma setEach_origin (l : list (jsstring * IndexEntry)) (index : gmap jsstring IndexEntry) (k : jsstring) (v : IndexEntry) :
  setEach l index !! k = Some v -> In (k, v) l \/ index !! k = Some v.
Proof.
  unfold setEach. revert index.
  induction l as [|[k0 v0] l IH]; intros index; simpl; [tauto|].
  intros Hk. destruct (IH _ Hk) as [Hin | Hidx]; [tauto|].
  destruct (decide (k0 = k)) as [<- | Hne].
  - rewrite lookup_insert_eq in Hidx. injection Hidx as <-. tauto.
  - rewrite lookup_insert_ne in Hidx by exact Hne. tauto.
Qed.

Lemma setEach_size (l : list (jsstring * IndexEntry)) (index : gmap jsstring IndexEntry) :
  (size (setEach l index) <= size index + length l)%nat.
Proof.
  unfold setEach. revert index.
  induction l as [|[k0 v0] l IH]; intros index; simpl; [lia|].
  specialize (IH (<[k0 := v0]> index)).
  destruct (index !! k0) as [v|] eqn:E.
  - rewrite map_size_insert_Some in IH by eauto. lia.
  - rewrite map_size_insert_None in IH by exact E. lia.
Qed.

Lemma setEach_other (l : list (jsstring * IndexEntry)) (index : gmap jsstring IndexEntry) (k : jsstring) :
  ~ In k (List.map fst l) -> setEach l index !! k = index !! k.
Proof.
  unfold setEach. revert index.
  induction l as [|[k0 v0] l IH]; intros index Hk; simpl; [reflexivity|].
  simpl in Hk. rewrite IH by tauto. apply lookup_insert_ne. tauto.
Qed.

Lemma setEach_NoDup (l : list (jsstring * IndexEntry)) (index : gmap jsstring IndexEntry) :
  NoDup (List.map fst l) ->
  (forall k, In k (List.map fst l) -> index !! k = None) ->
  size (setEach l index) = (size index + length l)%nat
  /\ forall k v, In (k, v) l -> setEach l index !! k = Some v.
Proof.
  revert index. induction l as [|[k0 v0] l IH]; intros index Hnd Hfresh.
  - split; [simpl; lia | intros k v []].
  - simpl in Hnd. apply NoDup_cons in Hnd as [Hk0 Hnd].
    rewrite list_elem_of_In in Hk0.
    destruct (IH (<[k0 := v0]> index) Hnd) as [Hsize Hfind].
    { intros k Hk. rewrite lookup_insert_ne by (intros ->; contradiction).
      apply Hfresh. now right. }
    change (setEach ((k0, v0) :: l) index)
      with (setEach l (<[k0 := v0]> index)).
    split.
    + rewrite Hsize, map_size_insert_None by (apply Hfresh; now left).
      simpl. lia.
    + intros k v [E | Hin]; [|now apply Hfind].
      injection E as <- <-. rewrite setEach_other by exact Hk0.
      apply lookup_insert_eq.
Qed.

End Folds.

Lemma buildSearchIndex_setEach (d : Data) :
  ManagerQueries.buildSearchIndex d
  = ManagerQueries.setEach (ManagerQueries.searchEntries d) ∅.
Proof.
  unfold ManagerQueries.buildSearchIndex, ManagerQueries.searchEntries,
    ManagerQueries.setEach.
  rewrite fold_flat_map. generalize (∅ : gmap jsstring ManagerQueries.IndexEntry).
  induction (corpus d) as [|c cs IH]; intros index; simpl; [reflexivity|].
  rewrite fold_flat_map. rewrite <- IH. f_equal.
  generalize index. clear.
  induction (files c) as [|f fl IH]; intros index; simpl; [reflexivity|].
  rewrite fold_map. cbn [fst snd]. apply IH.
Qed.

Lemma searchEntries_length (d : Data) :
  Z.of_nat (length (ManagerQueries.searchEntries d)) = totalRecords (corpus d).
Proof.
  rewrite totalRecords_sum. unfold ManagerQueries.searchEntries.
  induction (corpus d) as [|c cs IH]; simpl; [reflexivity|].
  rewrite length_app, Nat2Z.inj_add, IH. f_equal.
  rewrite recordCount_sum.
  induction (files c) as [|f fl IHf]; simpl; [reflexivity|].
  rewrite length_app, length_map, Nat2Z.inj_add, IHf. reflexivity.
Qed.

End IndexFacts.

(* ===================================================================== *)
(** * The search index and the listings of the loader: properties       *)
(* ===================================================================== *)

Section IndexAndLoaderProperties.
Import JSFacts LoaderFacts QueryFacts IndexFacts.

(** X21. The search index that [buildSearchIndex] builds knows exactly
    the keys of the records of the corpus, and each of its entries is made
    of a record with that key, its collection and its file. The index
    holds at most as many entries as the corpus has records, and exactly
    as many when the keys of the records are pairwise different; it holds
    fewer as soon as two records share their collection identifier, file
    type and record identifier. *)
Theorem searchIndex_covers_records (d : Data) :
  let index := ManagerQueries.buildSearchIndex d in
  Z.of_nat (length (ManagerQueries.searchKeys d)) = totalRecords (corpus d)
  /\ (size index <= length (ManagerQueries.searchKeys d))%nat
  /\ (forall k, is_Some (index !! k) <-> In k (ManagerQueries.searchKeys d))
  /\ (forall k e, index !! k = Some e ->
        exists c f h,
          In c (corpus d) /\ In f (files c) /\ In h (hadiths f)
          /\ k = ManagerQueries.searchKey c f h
          /\ ManagerQueries.entry_collectionId e = collectionId c
          /\ ManagerQueries.entry_fileType e = fileType f
          /\ ManagerQueries.entry_hadith e = h)
  /\ (NoDup (ManagerQueries.searchKeys d)
      <-> size index = length (ManagerQueries.searchKeys d)).
Proof.
  intros index. unfold index. rewrite buildSearchIndex_setEach.
  unfold ManagerQueries.searchKeys.
  split; [rewrite length_map; apply searchEntries_length|].
  split.
  { pose proof (setEach_size (ManagerQueries.searchEntries d) ∅) as Hs.
    rewrite map_size_empty in Hs. rewrite length_map. lia. }
  split.
  { intros k. rewrite setEach_dom, lookup_empty. split; [|tauto].
    intros [Hk | [x Hx]]; [exact Hk | discriminate Hx]. }
  split.
  { intros k e Hk. apply setEach_origin in Hk as [Hin | Hk];
      [|rewrite lookup_empty in Hk; discriminate Hk].
    unfold ManagerQueries.searchEntries in Hin.
    apply in_flat_map in Hin as [c [Hc Hin]].
    apply in_flat_map in Hin as [f [Hf Hin]].
    apply in_map_iff in Hin as [h [E Hh]]. injection E as <- <-.
    exists c, f, h. cbn. auto 10. }
  split.
  - intros Hnd.
    destruct (setEach_NoDup (ManagerQueries.searchEntries d) ∅ Hnd)
      as [Hsize _]; [intros k _; apply lookup_empty|].
    rewrite Hsize, map_size_empty, length_map. reflexivity.
  - rewrite length_map. generalize (ManagerQueries.searchEntries d).
    intros l Hsize.
    assert (Hgen : forall (l : list (jsstring * ManagerQueries.IndexEntry))
                     index,
              size (ManagerQueries.setEach l index)
              = (size index + length l)%nat ->
              NoDup (List.map fst l)
              /\ forall k, In k (List.map fst l) -> index !! k = None).
    { clear. induction l as [|[k0 v0] l IH]; intros index Hsize.
      - split; [constructor | intros k []].
      - change (ManagerQueries.setEach ((k0, v0) :: l) index)
          with (ManagerQueries.setEach l (<[k0 := v0]> index)) in Hsize.
        pose proof (setEach_size l (<[k0 := v0]> index)) as Hle.
        destruct (index !! k0) as [v|] eqn:E.
        + rewrite map_size_insert_Some in Hle by eauto.
          simpl in Hsize. lia.
        + rewrite map_size_insert_None in Hle by exact E.
          destruct (IH (<[k0 := v0]> index)) as [Hnd Hfresh].
          { rewrite map_size_insert_None by exact E.
            simpl in Hsize. lia. }
          assert (Hk0 : ~ In k0 (List.map fst l)).
          { intros Hin. specialize (Hfresh k0 Hin).
            rewrite lookup_insert_eq in Hfresh. discriminate Hfresh. }
          split.
          * simpl. apply NoDup_cons. rewrite list_elem_of_In. auto.
          * intros k [<- | Hk]; [exact E|].
            specialize (Hfresh k Hk).
            rewrite lookup_insert_ne in Hfresh by (intros ->; contradiction).
            exact Hfresh. }
    apply (Hgen l ∅). rewrite Hsize, map_size_empty. reflexivity.
Qed.



End IndexAndLoaderProperties.

(* ===================================================================== *)
(** * The two match modes on a query of one word                        *)
(* ===================================================================== *)

Module WordFacts.
Import JSFacts SearchFacts Manager.

(** A string without white space splits into itself. *)
Lemma splitWsFrom_word (cur s : jsstring) :
  forallb (fun c => negb (isWhiteSpace c)) s = true ->
  splitWsFrom cur false s = [rev cur ++ s].
Proof.
  revert cur. induction s as [|c s IH]; intros cur Hs; simpl.
  - now rewrite app_nil_r.
  - simpl in Hs. apply andb_true_iff in Hs as [Hc Hs].
    apply negb_true_iff in Hc. rewrite Hc, (IH _ Hs). simpl.
    now rewrite <- app_assoc.
Qed.

Section Engine.
Context `{CaseMapping}.

Lemma hits_word (cs : list Collection) (o : Options.t) (term : jsstring) :
  forallb (fun c => negb (isWhiteSpace c)) term = true ->
  hits cs (withMode o true) term = hits cs (withMode o false) term.
Proof.
  intros Hw. unfold hits, hitsOfFile, matches, fuzzySearch, splitWs. simpl.
  rewrite (splitWsFrom_word [] term Hw). simpl.
  induction cs as [|c cs IH]; simpl; [reflexivity|]. rewrite IH. f_equal.
  destruct (skips _ (collectionId c)); [reflexivity|].
  induction (files c) as [|f fl IHf]; simpl; [reflexivity|].
  rewrite IHf. f_equal. destruct (skips _ (fileType f)); [reflexivity|].
  induction (hadiths f) as [|h hs IHh]; simpl; [reflexivity|].
  rewrite IHh. now rewrite orb_false_r.
Qed.

End Engine.
End WordFacts.

Section WordProperties.
Import JSFacts SearchFacts WordFacts.
Context `{CaseMapping}.

(** X23. For a query whose term, lower-cased and trimmed, has no white
    space in it, the exact mode and the fuzzy mode of [searchHadiths]
    answer alike: the same records in the same order, and the same
    pagination. *)
Theorem single_word_modes_agree (m : Manager.State) (query : jsstring)
    (o : Options.t) (rE rF : Response.t) :
  forallb (fun c => negb (isWhiteSpace c)) (toLowerCase (trim query)) = true ->
  Manager.searchHadiths m query (withMode o true) = Some rE ->
  Manager.searchHadiths m query (withMode o false) = Some rF ->
  Response.hadiths rE = Response.hadiths rF
  /\ Response.pagination rE = Response.pagination rF.
Proof.
  intros Hw HE HF. unfold Manager.searchHadiths in HE, HF.
  destruct (negb (truthy query) || _).
  - injection HE as <-. injection HF as <-. split; reflexivity.
  - destruct (Manager.data m) as [d|]; [|discriminate HE].
    injection HE as <-. injection HF as <-. cbn.
    unfold Manager.ranked. rewrite (hits_word (corpus d) o _ Hw).
    split; reflexivity.
Qed.

End WordProperties.

Section WordWitnesses.
Import SearchFacts.

Lemma single_word_modes_agree_witness :
  exists rE rF,
    Manager.searchHadiths (H := latin1Case) SampleSearch.manager (lit "cd")
      (withMode Options.none true) = Some rE
    /\ Manager.searchHadiths (H := latin1Case) SampleSearch.manager (lit "cd")
         (withMode Options.none false) = Some rF
    /\ length (Response.hadiths rE) = 2%nat
    /\ Response.hadiths rE = Response.hadiths rF.
Proof.
  destruct (Manager.searchHadiths (H := latin1Case) SampleSearch.manager
              (lit "cd") (withMode Options.none true)) as [rE|] eqn:HE;
    [|vm_compute in HE; discriminate HE].
  destruct (Manager.searchHadiths (H := latin1Case) SampleSearch.manager
              (lit "cd") (withMode Options.none false)) as [rF|] eqn:HF;
    [|vm_compute in HF; discriminate HF].
  exists rE, rF. split; [reflexivity|]. split; [reflexivity|]. split.
  - vm_compute in HE. injection HE as <-. reflexivity.
  - apply (single_word_modes_agree (H := latin1Case) SampleSearch.manager
             (lit "cd") Options.none rE rF eq_refl HE HF).
Defined.

End WordWitnesses.

(* ===================================================================== *)
(** * Facts about the tally of the terms                                *)
(* ===================================================================== *)

Module TallyFacts.
Import JSFacts FrequentTerms.
Local Open Scope nat_scope.

Lemma increment_keys (term : jsstring) (entries : list (jsstring * nat))
    (k : jsstring) :
  In k (List.map fst (increment term entries))
  <-> k = term \/ In k (List.map fst entries).
Proof.
  induction entries as [|[t n] entries IH]; simpl.
  - intuition.
  - destruct (bool_decide (t = term)) eqn:E; simpl.
    + apply bool_decide_eq_true in E. subst. intuition.
    + rewrite IH. intuition.
Qed.

Lemma increment_sum (term : jsstring) (entries : list (jsstring * nat)) :
  list_sum (List.map snd (increment term entries))
  = S (list_sum (List.map snd entries)).
Proof.
  induction entries as [|[t n] entries IH]; simpl; [reflexivity|].
  destruct (bool_decide (t = term)); simpl; [lia | rewrite IH; lia].
Qed.

Lemma increment_wellFormed (term : jsstring)
    (entries : list (jsstring * nat)) :
  forallb isArabic term = true -> 2 < length term ->
  wellFormed entries -> wellFormed (increment term entries).
Proof.
  intros Ha Hl [Hnd Hall]. split.
  - induction entries as [|[t n] entries IH]; simpl.
    + repeat constructor. intros Hin. inversion Hin.
    + simpl in Hnd. apply NoDup_cons in Hnd as [Ht Hnd].
      inversion Hall as [|? ? _ Hall']; subst.
      destruct (bool_decide (t = term)) eqn:E; simpl.
      * apply NoDup_cons. auto.
      * apply bool_decide_eq_false in E. apply NoDup_cons. split; [|auto].
        rewrite list_elem_of_In, increment_keys.
        rewrite list_elem_of_In in Ht. intuition.
  - induction entries as [|[t n] entries IH]; simpl.
    + repeat constructor; simpl; auto.
    + inversion Hall as [|? ? [H1 [H2 H3]] Hall']; subst.
      simpl in Hnd. apply NoDup_cons in Hnd as [_ Hnd].
      destruct (bool_decide (t = term)); simpl.
      * constructor; [|exact Hall']. simpl in *. repeat split; auto. lia.
      * constructor; [|auto]. simpl in *. auto.
Qed.

Lemma countWord_kept (t : Tally) (word : jsstring) :
  kept t ->
  kept (countWord t word)
  /\ analyzedHadiths (countWord t word) = analyzedHadiths t
  /\ totalTerms t <= totalTerms (countWord t word) <= S (totalTerms t).
Proof.
  intros [Hw Hs]. unfold countWord.
  destruct (2 <? length (cleanWord word)) eqn:E.
  - apply Nat.ltb_lt in E. simpl. split; [|split; [reflexivity | lia]].
    split; simpl.
    + apply increment_wellFormed; [|exact E|exact Hw].
      unfold cleanWord. apply forallb_forall. intros c Hc.
      now apply filter_In in Hc.
    + now rewrite increment_sum, Hs.
  - split; [split; assumption|]. split; [reflexivity | lia].
Qed.

Lemma countWords_kept (ws : list jsstring) (t : Tally) :
  kept t ->
  kept (fold_left countWord ws t)
  /\ analyzedHadiths (fold_left countWord ws t) = analyzedHadiths t
  /\ totalTerms t <= totalTerms (fold_left countWord ws t)
     <= totalTerms t + length ws.
Proof.
  revert t. induction ws as [|w ws IH]; intros t Hk; simpl.
  - split; [exact Hk|]. split; [reflexivity | lia].
  - destruct (countWord_kept t w Hk) as [Hk' [Ha Ht]].
    destruct (IH _ Hk') as [Hk'' [Ha' Ht']].
    split; [exact Hk''|]. split; [congruence | lia].
Qed.

Lemma words_length (text : jsstring) : length (words text) <= 50.
Proof. unfold words. rewrite (QueryFacts.slice_length 0 50). lia. Qed.

Lemma countHadith_kept (t : Tally) (h : Hadith) :
  kept t ->
  kept (countHadith t h)
  /\ analyzedHadiths (countHadith t h) = S (analyzedHadiths t)
  /\ totalTerms t <= totalTerms (countHadith t h) <= totalTerms t + 50.
Proof.
  intros Hk. unfold countHadith.
  destruct (countWords_kept (words (text h))
              {| termFrequency := termFrequency t;
                 totalTerms := totalTerms t;
                 analyzedHadiths := S (analyzedHadiths t) |} Hk)
    as [Hk' [Ha Ht]].
  pose proof (words_length (text h)). simpl in *.
  split; [exact Hk'|]. split; [exact Ha | lia].
Qed.

Lemma countHadiths_kept (hs : list Hadith) (t : Tally) :
  kept t ->
  kept (fold_left countHadith hs t)
  /\ analyzedHadiths (fold_left countHadith hs t)
     = analyzedHadiths t + length hs
  /\ totalTerms t <= totalTerms (fold_left countHadith hs t)
     <= totalTerms t + 50 * length hs.
Proof.
  revert t. induction hs as [|h hs IH]; intros t Hk; simpl.
  - split; [exact Hk|]. split; lia.
  - destruct (countHadith_kept t h Hk) as [Hk' [Ha Ht]].
    destruct (IH _ Hk') as [Hk'' [Ha' Ht']].
    split; [exact Hk''|]. split; lia.
Qed.

Lemma countFiles_kept (fl : list FileVariant) (t : Tally) :
  kept t ->
  let records :=
    flat_map (fun file => if bool_decide (fileType file = lit "regular")
                          then hadiths file else []) fl in
  kept (fold_left countFile fl t)
  /\ analyzedHadiths (fold_left countFile fl t)
     = analyzedHadiths t + length records
  /\ totalTerms t <= totalTerms (fold_left countFile fl t)
     <= totalTerms t + 50 * length records.
Proof.
  revert t. induction fl as [|f fl IH]; intros t Hk; cbn [flat_map fold_left].
  - split; [exact Hk|]. simpl. split; lia.
  - destruct (bool_decide (fileType f = lit "regular")) eqn:E.
    + assert (Ef : countFile t f = fold_left countHadith (hadiths f) t)
        by (unfold countFile; now rewrite E).
      destruct (countHadiths_kept (hadiths f) t Hk) as [Hk' [Ha Ht]].
      rewrite <- Ef in Hk', Ha, Ht.
      destruct (IH _ Hk') as [Hk'' [Ha' Ht']]. cbv zeta in *.
      rewrite length_app. split; [exact Hk''|]. split; lia.
    + assert (Ef : countFile t f = t) by (unfold countFile; now rewrite E).
      rewrite Ef. cbn [app]. now apply IH.
Qed.

Lemma countCollections_kept (cs : list (option Collection)) (t : Tally) :
  kept t ->
  kept (fold_left countCollection cs t)
  /\ analyzedHadiths (fold_left countCollection cs t)
     = analyzedHadiths t + length (regularRecords cs)
  /\ totalTerms t <= totalTerms (fold_left countCollection cs t)
     <= totalTerms t + 50 * length (regularRecords cs).
Proof.
  revert t. induction cs as [|c cs IH]; intros t Hk;
    cbn [fold_left regularRecords flat_map].
  - split; [exact Hk|]. simpl. split; lia.
  - destruct c as [c|]; cbn [countCollection].
    + destruct (countFiles_kept (files c) t Hk) as [Hk' [Ha Ht]].
      destruct (IH _ Hk') as [Hk'' [Ha' Ht']]. unfold regularRecords in *.
      rewrite length_app. split; [exact Hk''|]. split; lia.
    + cbn [app]. now apply IH.
Qed.

Lemma byFrequency_asym (a b : jsstring * nat) :
  byFrequency a b = true -> byFrequency b a = false.
Proof.
  unfold byFrequency. intros Hab. apply Nat.ltb_lt in Hab.
  apply Nat.ltb_ge. lia.
Qed.

(** The sorted entries stand in descending order of their counts. *)
Lemma sort_byFrequency (entries : list (jsstring * nat)) :
  StronglySorted (fun a b => snd b <= snd a) (sort byFrequency entries).
Proof.
  apply Sorted_StronglySorted; [intros x y z; lia|].
  pose proof (sort_Sorted byFrequency entries byFrequency_asym) as Hs.
  induction Hs as [|a k Hk IH Hhd]; constructor; [exact IH|].
  destruct Hhd as [|b k' Hab]; constructor.
  unfold inOrder, byFrequency in Hab. apply Nat.ltb_ge in Hab. exact Hab.
Qed.

Lemma StronglySorted_sublist {A} (R : A -> A -> Prop) (l k : list A) :
  sublist l k -> StronglySorted R k -> StronglySorted R l.
Proof.
  intros Hs Hk. revert l Hs.
  induction Hk as [|x k Hk IH Hx]; intros l Hs.
  - apply sublist_nil_r in Hs. subst. constructor.
  - inversion Hs as [| ? l' ? Hs' | ? ? ? Hs']; subst.
    + constructor; [now apply IH|].
      apply List.Forall_forall. intros y Hy.
      rewrite List.Forall_forall in Hx. apply Hx.
      eapply sublist_In; eauto.
    + now apply IH.
Qed.

Lemma list_sum_sublist (l k : list nat) :
  sublist l k -> list_sum l <= list_sum k.
Proof.
  induction 1; simpl; lia.
Qed.

Lemma list_sum_Permutation (l k : list nat) :
  Permutation l k -> list_sum l = list_sum k.
Proof.
  induction 1; simpl; lia.
Qed.

Lemma sublist_map {A B} (f : A -> B) (l k : list A) :
  sublist l k -> sublist (List.map f l) (List.map f k).
Proof. induction 1; simpl; now constructor. Qed.

Lemma StronglySorted_map {A B} (R : B -> B -> Prop) (f : A -> B)
    (l : list A) :
  StronglySorted (fun a b => R (f a) (f b)) l ->
  StronglySorted R (List.map f l).
Proof.
  induction 1 as [|x l Hl IH Hx]; simpl; constructor; [exact IH|].
  apply List.Forall_forall. intros y Hy.
  apply in_map_iff in Hy as [a [<- Ha]].
  rewrite List.Forall_forall in Hx. now apply Hx.
Qed.

End TallyFacts.

(* ===================================================================== *)
(** * The frequent terms: properties of the code                        *)
(* ===================================================================== *)

Section TermProperties.
Import JSFacts QueryFacts FrequentTerms TallyFacts.
Local Open Scope nat_scope.

(** X24. The answer of [GET /stats/frequent-terms] counts as analyzed the
    regular records in scope and nothing else, and counts at most 50
    terms for each of them. The terms it returns are pairwise different,
    made of Arabic code units only and longer than 2; they stand in
    descending order of their frequencies, which are at least 1; there
    are [limit] of them (20 by default) or, if fewer, all the terms
    counted; their frequencies add up to at most [totalTerms], and to
    exactly [totalTerms] when all the terms are returned. *)
Theorem frequentTerms_counts (m : Manager.State)
    (collectionId' : option jsstring) (limit : option nat)
    (answer : Answer) :
  frequentTerms m collectionId' limit = Some answer ->
  exists collections,
    scope m collectionId' = Some collections
    /\ analysis_analyzedHadiths answer = length (regularRecords collections)
    /\ analysis_totalTerms answer <= 50 * analysis_analyzedHadiths answer
    /\ length (frequent answer)
       = Nat.min (default 20 limit) (uniqueTerms answer)
    /\ NoDup (List.map term (frequent answer))
    /\ Forall (fun t => forallb isArabic (term t) = true
                        /\ 2 < length (term t) /\ 1 <= frequency t)
              (frequent answer)
    /\ StronglySorted (fun a b => frequency b <= frequency a)
                      (frequent answer)
    /\ list_sum (List.map frequency (frequent answer))
       <= analysis_totalTerms answer
    /\ (uniqueTerms answer <= default 20 limit ->
        list_sum (List.map frequency (frequent answer))
        = analysis_totalTerms answer).
Proof.
  unfold frequentTerms.
  destruct (scope m collectionId') as [collections|]; [|discriminate].
  intros E. injection E as <-. exists collections. split; [reflexivity|].
  set (t0 := {| termFrequency := []; totalTerms := 0;
                analyzedHadiths := 0 |}).
  assert (Hk0 : kept t0).
  { split; [split; constructor | reflexivity]. }
  destruct (countCollections_kept collections t0 Hk0)
    as [[[Hnd Hall] Hsum] [Ha Ht]].
  set (t := fold_left countCollection collections t0) in *.
  cbn [frequent analysis_totalTerms uniqueTerms analysis_analyzedHadiths].
  set (entries := slice 0 (default 20 limit)
                    (sort byFrequency (termFrequency t))).
  pose proof (sort_Permutation byFrequency (termFrequency t)) as Hperm.
  assert (Hsub : sublist entries (sort byFrequency (termFrequency t)))
    by apply slice_sublist.
  assert (Hterm : List.map term
                    (List.map
                       (fun entry =>
                          {| term := fst entry; frequency := snd entry;
                             percentage :=
                               CollectionStats.percent
                                 (div (num_of_nat (snd entry))
                                      (num_of_nat (totalTerms t))) |})
                       entries) = List.map fst entries)
    by (rewrite List.map_map; reflexivity).
  assert (Hfreq : List.map frequency
                    (List.map
                       (fun entry =>
                          {| term := fst entry; frequency := snd entry;
                             percentage :=
                               CollectionStats.percent
                                 (div (num_of_nat (snd entry))
                                      (num_of_nat (totalTerms t))) |})
                       entries) = List.map snd entries)
    by (rewrite List.map_map; reflexivity).
  unfold t0 in Ha, Ht. cbn [analyzedHadiths totalTerms] in Ha, Ht.
  split; [lia|]. split; [lia|].
  split.
  { rewrite length_map. unfold entries.
    rewrite (slice_length 0 (default 20 limit)), sort_length. f_equal. lia. }
  split.
  { rewrite Hterm. eapply sublist_NoDup; [|exact (sublist_map fst _ _ Hsub)].
    eapply NoDup_Permutation_proper; [|exact Hnd].
    now apply Permutation_map. }
  split.
  { apply List.Forall_forall. intros x Hx.
    apply in_map_iff in Hx as [e [<- He]]. cbn.
    apply (sublist_In _ _ _ Hsub), sort_In in He.
    rewrite List.Forall_forall in Hall. now apply Hall. }
  split.
  { apply (StronglySorted_map (fun a b : Term => frequency b <= frequency a)).
    cbn [frequency].
    apply (StronglySorted_sublist _ _ _ Hsub), sort_byFrequency. }
  rewrite Hfreq.
  assert (Htot : list_sum (List.map snd (sort byFrequency (termFrequency t)))
                 = totalTerms t).
  { rewrite <- Hsum. apply list_sum_Permutation. now apply Permutation_map. }
  split.
  - rewrite <- Htot. apply list_sum_sublist. now apply sublist_map.
  - intros Hle. unfold entries. rewrite slice_all; [exact Htot|].
    rewrite sort_length. exact Hle.
Qed.

Lemma frequentTerms_counts_witness :
  exists answer,
    frequentTerms SampleTerms.manager None None = Some answer
    /\ List.map term (frequent answer)
       = [SampleTerms.qala; SampleTerms.alnabi]
    /\ List.map frequency (frequent answer) = [2; 1]
    /\ analysis_totalTerms answer = 3
    /\ analysis_analyzedHadiths answer = 1
    /\ StronglySorted (fun a b => frequency b <= frequency a)
                      (frequent answer).
Proof.
  destruct (frequentTerms SampleTerms.manager None None) as [answer|] eqn:E;
    [|vm_compute in E; discriminate E].
  destruct (frequentTerms_counts SampleTerms.manager None None answer E)
    as [cs [_ [_ [_ [_ [_ [_ [Hs _]]]]]]]].
  exists answer. split; [reflexivity|].
  vm_compute in E. injection E as <-.
  split; [reflexivity|]. split; [reflexivity|]. split; [reflexivity|].
  split; [reflexivity | exact Hs].
Defined.

End TermProperties.

(* ===================================================================== *)
(** * The statistics of one collection: properties of the code          *)
(* ===================================================================== *)

Module CollectionStatsFacts.
Import LoaderFacts CollectionStats.








End CollectionStatsFacts.

Section CollectionStatsProperties.
Import JSFacts LoaderFacts QueryFacts DistributionFacts CollectionStats
  CollectionStatsFacts.



End CollectionStatsProperties.

(* ===================================================================== *)
(** * The conversion of the data directory: properties of the code      *)
(* ===================================================================== *)

Module ConversionFacts.
Import LoaderFacts Converter.

Lemma lookupInfo_own (name : jsstring) (info : CollectionInfo) :
  lookupInfo name = Own info -> In (name, info) collectionMap.
Proof.
  unfold lookupInfo.
  destruct (List.find _ collectionMap) as [[k i]|] eqn:E.
  - intros E'. injection E' as <-. apply find_some in E as [Hin Hk].
    apply bool_decide_eq_true in Hk. simpl in Hk. now subst.
  - destruct (existsb _ _); discriminate.
Qed.

(** The identifiers of the map belong to one directory name each. *)
Lemma collectionMap_injective (a b : jsstring) (ia ib : CollectionInfo) :
  In (a, ia) collectionMap -> In (b, ib) collectionMap ->
  info_id ia = info_id ib -> a = b.
Proof.
  unfold collectionMap. intros Ha Hb.
  repeat (destruct Ha as [Ha | Ha]; [injection Ha as <- <-|]);
    [| | | | | | | | |destruct Ha];
    repeat (destruct Hb as [Hb | Hb]; [injection Hb as <- <-|]);
    try (destruct Hb); intros E; try reflexivity;
    vm_compute in E; discriminate E.
Qed.

(** What [processCollection] makes of a directory. *)
Lemma processCollection_made (dir : Directory) (c : Collection) :
  processCollection dir = Made c ->
  exists info,
    lookupInfo (dirName dir) = Own info
    /\ collectionId c = info_id info
    /\ collectionName c = info_name info
    /\ files c <> []
    /\ totalHadiths c = recordCount c
    /\ Forall (fun f => count f = Z.of_nat (length (hadiths f))) (files c).
Proof.
  unfold processCollection.
  destruct (lookupInfo (dirName dir)) as [info| |]; try discriminate.
  destruct (List.filter _ (dirFiles dir)) as [|f fl] eqn:Ef;
    [discriminate|].
  change (length (f :: fl) =? 0)%nat with false. cbv iota.
  assert (f :: fl <> []) as Hne by discriminate.
  revert Hne. generalize (f :: fl). clear Ef f fl. intros fl Hne.
  intros E. injection E as <-. exists info.
  cbn [collectionId collectionName files totalHadiths].
  split; [reflexivity|]. split; [reflexivity|]. split; [reflexivity|].
  split; [destruct fl; [congruence | discriminate]|]. split.
  - rewrite recordCount_sum. cbn [files].
    rewrite (fold_left_sum count), !List.map_map.
    rewrite Z.add_0_l. reflexivity.
  - apply List.Forall_forall. intros x Hx.
    apply in_map_iff in Hx as [y [<- _]]. reflexivity.
Qed.

(** A collection of the result was made from one of the directories. *)
Lemma made_of_in (dirs : list Directory) (c : Collection) :
  In c (flat_map (fun r => match r with
                           | Made collection => [collection]
                           | _ => []
                           end) (List.map processCollection dirs)) ->
  exists dir, In dir dirs /\ processCollection dir = Made c.
Proof.
  induction dirs as [|dir dirs IH]; cbn [List.map flat_map].
  - intros [].
  - intros Hin. apply in_app_or in Hin as [Hin | Hin].
    + destruct (processCollection dir) as [| |c'|] eqn:E;
        try (destruct Hin; fail).
      destruct Hin as [<- | []]. exists dir. split; [now left | exact E].
    + destruct (IH Hin) as [d [Hd E]]. exists d. split; [now right | exact E].
Qed.

(** The collections keep the order of their directories, so that their
    identifiers are as distinct as the directory names. *)
Lemma made_ids_NoDup (dirs : list Directory) :
  NoDup (List.map dirName dirs) ->
  NoDup (List.map collectionId
    (flat_map (fun r => match r with
                        | Made collection => [collection]
                        | _ => []
                        end) (List.map processCollection dirs))).
Proof.
  induction dirs as [|dir dirs IH]; cbn [List.map flat_map]; intros Hnd.
  - constructor.
  - apply NoDup_cons in Hnd as [Hnotin Hnd]. specialize (IH Hnd).
    destruct (processCollection dir) as [| |c|] eqn:E;
      cbn [app List.map]; try exact IH.
    apply NoDup_cons. split; [|exact IH].
    intros Hin. apply Hnotin.
    apply list_elem_of_In, in_map_iff in Hin as [c' [Hid Hc']].
    pose proof (made_of_in dirs c' Hc') as [d [Hd Ed]].
    apply processCollection_made in E as [i [Hi [Hci _]]].
    apply processCollection_made in Ed as [i' [Hi' [Hci' _]]].
    apply lookupInfo_own in Hi, Hi'.
    assert (dirName d = dirName dir) as <-.
    { apply (collectionMap_injective _ _ i' i Hi' Hi). congruence. }
    apply list_elem_of_In, in_map. exact Hd.
Qed.

Lemma fold_left_lengths {A B} (f : A -> list B) (l : list A) (a : nat) :
  fold_left (fun sum x => (sum + length (f x))%nat) l a
  = (a + length (flat_map f l))%nat.
Proof.
  revert a. induction l as [|x l IH]; intros a; cbn [fold_left flat_map].
  - cbn [length]. lia.
  - rewrite IH, length_app. lia.
Qed.

(** No directory that [convertAll] keeps has a name unknown to
    [processCollection]. *)
Lemma kept_directories_known (entries : list DirEntry) :
  existsb (fun r => match r with
                    | UnknownCollection => true
                    | _ => false
                    end)
    (List.map processCollection
       (List.map entry
          (List.filter
             (fun e => isDirectory e
                       && match lookupInfo (dirName (entry e)) with
                          | Absent => false
                          | _ => true
                          end) entries))) = false.
Proof.
  induction entries as [|e entries IH]; [reflexivity|].
  cbn [List.filter].
  destruct (isDirectory e); cbn [andb]; [|exact IH].
  destruct (lookupInfo (dirName (entry e))) eqn:E; [| |exact IH];
    cbn [List.map existsb]; rewrite IH, orb_false_r;
    unfold processCollection; rewrite E; [|reflexivity].
  destruct (length _ =? 0)%nat; reflexivity.
Qed.

End ConversionFacts.

Section ConversionProperties.
Import LoaderFacts Converter ConversionFacts.

(** X26. [convertAll] throws exactly when no entry of the data directory
    is a directory with a name that the collection map answers to. When
    it returns,
    the totals of the metadata are those of the collections returned: their
    number, the number of their files and the number of their records.
    Every collection returned has at least one file, declares as
    [totalHadiths] the number of records it holds, has in each file a
    [count] that is the number of its records, and carries the identifier
    and the name that the map gives for the name of one of the
    directories. Directories with distinct names give collections with
    distinct identifiers. *)
Theorem convertAll_totals_and_identifiers (entries : list DirEntry) :
  (convertAll entries = ConversionThrows
   <-> Forall (fun e => isDirectory e = false
                        \/ lookupInfo (dirName (entry e)) = Absent) entries)
  /\ forall (d : Data) (md : Metadata),
       convertAll entries = Converted d md ->
       totalCollections md = length (corpus d)
       /\ totalFiles md = length (flat_map files (corpus d))
       /\ metadata_totalHadiths md = totalRecords (corpus d)
       /\ Forall (fun c =>
             files c <> []
             /\ totalHadiths c = recordCount c
             /\ Forall (fun f => count f = Z.of_nat (length (hadiths f)))
                       (files c)
             /\ exists e info,
                  In e entries /\ isDirectory e = true
                  /\ In (dirName (entry e), info) collectionMap
                  /\ collectionId c = info_id info
                  /\ collectionName c = info_name info) (corpus d)
       /\ (NoDup (List.map (fun e => dirName (entry e)) entries) ->
           NoDup (List.map collectionId (corpus d))).
Proof.
  unfold convertAll.
  set (keep := fun e : DirEntry => isDirectory e
                 && match lookupInfo (dirName (entry e)) with
                    | Absent => false
                    | _ => true
                    end).
  pose proof (kept_directories_known entries) as Hknown.
  fold keep in Hknown.
  set (dirs := List.map entry (List.filter keep entries)) in *.
  split.
  - split.
    + intros E. assert (dirs = []) as Hnil.
      { destruct dirs as [|x dirs']; [reflexivity|]. exfalso.
        change (length (x :: dirs') =? 0)%nat with false in E.
        cbv iota in E. rewrite Hknown in E. clear Hknown.
        destruct (existsb _ _); discriminate E. }
      apply List.Forall_forall. intros e Hin.
      destruct (isDirectory e) eqn:Hd; [right | now left].
      destruct (lookupInfo (dirName (entry e))) eqn:El; [| |reflexivity];
        exfalso;
        (assert (In (entry e) dirs) as Hc
           by (apply in_map, filter_In; split; [exact Hin|];
               unfold keep; now rewrite Hd, El));
        rewrite Hnil in Hc; destruct Hc.
    + intros Hall. assert (dirs = []) as ->; [|reflexivity].
      subst dirs. clear Hknown. induction Hall as [|e l He _ IH]; [reflexivity|].
      cbn [List.filter]. unfold keep at 1.
      destruct He as [-> | ->]; [exact IH|].
      rewrite andb_false_r. exact IH.
  - intros d md E.
    destruct (length dirs =? 0)%nat; [discriminate|].
    rewrite Hknown in E. clear Hknown.
    destruct (existsb _ _); [discriminate|]. injection E as <- <-.
    cbn [corpus Model.collections totalCollections totalFiles
         metadata_totalHadiths].
    set (cs := flat_map _ _).
    split; [reflexivity|]. split; [now rewrite (fold_left_lengths files)|]. split.
    + rewrite totalRecords_sum, (fold_left_sum totalHadiths), Z.add_0_l.
      f_equal. apply map_ext_in. intros c Hc.
      apply made_of_in in Hc as [dir [_ Hc]].
      apply processCollection_made in Hc as [i [_ [_ [_ [_ [Ht _]]]]]].
      exact Ht.
    + split.
      * apply List.Forall_forall. intros c Hc.
        apply made_of_in in Hc as [dir [Hdir Hc]].
        apply processCollection_made in Hc
          as [i [Hi [Hid [Hname [Hne [Ht Hf]]]]]].
        repeat (split; [assumption|]).
        apply in_map_iff in Hdir as [e [<- He]].
        apply filter_In in He as [He Hk].
        exists e, i. split; [exact He|].
        split; [unfold keep in Hk; now apply andb_true_iff in Hk|].
        split; [now apply lookupInfo_own|]. now split.
      * intros Hnd. apply made_ids_NoDup. subst dirs.
        rewrite List.map_map.
        eapply sublist_NoDup; [exact Hnd|].
        apply TallyFacts.sublist_map, FilterFacts.filter_sublist.
Qed.

(** The theorem on a data directory with a stray file, an unknown directory,
    a collection without CSV files and a collection of two records. *)
Lemma convertAll_totals_and_identifiers_witness :
  let text := Some (lit "qala alnabi") in
  let rows := [ {| row_id := Some (lit "1"); row_text := text |};
                {| row_id := Some (lit "2"); row_text := Some (lit " ") |};
                {| row_id := Some (lit "3"); row_text := text |} ] in
  let entries :=
    [ {| entry := {| dirName := lit "README.md"; dirFiles := [] |};
         isDirectory := false |};
      {| entry := {| dirName := lit "Drafts";
                     dirFiles := [(lit "a.csv", rows)] |};
         isDirectory := true |};
      {| entry := {| dirName := lit "Sahih_Muslim";
                     dirFiles := [(lit "notes.txt", rows)] |};
         isDirectory := true |};
      {| entry := {| dirName := lit "Maliks_Muwataa";
                     dirFiles := [(lit "muwataa.csv", rows)] |};
         isDirectory := true |} ] in
  exists d md,
    convertAll entries = Converted d md
    /\ List.map collectionId (corpus d) = [lit "maliks_muwataa"]
    /\ totalCollections md = 1%nat
    /\ totalFiles md = 1%nat
    /\ metadata_totalHadiths md = 2
    /\ totalRecords (corpus d) = 2.
Proof.
  intros text rows entries.
  destruct (convertAll entries) as [|d md|] eqn:E;
    [vm_compute in E; discriminate E| |vm_compute in E; discriminate E].
  exists d, md. split; [reflexivity|].
  destruct (convertAll_totals_and_identifiers entries) as [_ Hreturns].
  destruct (Hreturns d md E) as [_ [_ [Ht _]]].
  split; [|split; [|split; [|split]]].
  - vm_compute in E. injection E as <- _. reflexivity.
  - vm_compute in E. injection E as _ <-. reflexivity.
  - vm_compute in E. injection E as _ <-. reflexivity.
  - vm_compute in E. injection E as _ <-. reflexivity.
  - rewrite <- Ht. vm_compute in E. injection E as _ <-. reflexivity.
Defined.

End ConversionProperties.
